(** * Collaborators dashboard: the enrollment hook, its persistence adapter,
      the display ordering and the announcement fetchers.

    The TypeScript sources are embedded shallowly:
    - [useCollaborators.ts]: the enrollment state container, its six
      operations, the two delayed callbacks of [submitForReview], and the
      local-storage adapter;
    - [EnrollmentsTab.tsx]: the comparator and the sort of the enrollment list;
    - [example-fetch.ts], [AnnouncementsTab.tsx]: the announcement fetchers and
      the campaign loader.

    Conventions.  JavaScript strings are [string]; the numbers of the program
    are integer-valued and are [Z], written in decimal where a number becomes
    a string, and [NaN] is [None] where it can arise; [undefined] in an
    optional field is [None]; [Math.random()] reads an explicit oracle, whose
    values and whose product with the range are binary64 numbers, held as the
    rationals they denote and rounded to nearest, ties to even (module
    [Double]); an exception is an explicit [Threw] completion; the state
    setters of React are state transformers, applied in the order in which
    the handlers call them. *)

From Stdlib Require Import ZArith QArith Qround Qpower String Ascii List Lia.
From Stdlib Require Import Permutation Sorted DecimalString DecimalPos DecimalZ.
From stdpp Require Import gmap strings.
Import ListNotations.
Open Scope Z_scope.

(** ** Data model ([types.ts] is not part of the sources; the shapes below
       are the ones the hook reads and writes) *)

(** [EnrollmentStatus] is a union of string literals; at run time a status is
    a string, and the casts [as EnrollmentStatus] are unchecked. *)
Definition EnrollmentStatus : Type := string.

Definition enrolled : EnrollmentStatus := "enrolled".
Definition uploaded : EnrollmentStatus := "uploaded".
Definition processing : EnrollmentStatus := "processing".
Definition under_review : EnrollmentStatus := "under-review".
Definition approved : EnrollmentStatus := "approved".
Definition rejected : EnrollmentStatus := "rejected".

(** The closed set of the six statuses. *)
Definition allStatuses : list EnrollmentStatus :=
  [enrolled; uploaded; processing; under_review; approved; rejected].

Definition isStatus (s : EnrollmentStatus) : bool :=
  existsb (String.eqb s) allStatuses.

(** A [Date] object: its time value in milliseconds since the epoch, or an
    Invalid Date (time value [NaN]). *)
Inductive Date : Type :=
| ValidDate (t : Z)
| InvalidDate.

(** [d.getTime()]; [None] is [NaN]. *)
Definition getTime (d : Date) : option Z :=
  match d with
  | ValidDate t => Some t
  | InvalidDate => None
  end.

(** Largest magnitude of a time value (ECMA-262 TimeClip). *)
Definition maxTime : Z := 8640000000000000.

(** [new Date(ms)] for an integer [ms]. *)
Definition newDate (ms : Z) : Date :=
  if Z.abs ms <=? maxTime then ValidDate ms else InvalidDate.

Definition isValidDate (d : Date) : bool :=
  match d with
  | ValidDate t => Z.abs t <=? maxTime
  | InvalidDate => false
  end.

Module Campaign.
(** Modelled from the spec: the declaration of [Campaign] in [types.ts] is
    missing; the spec lists "Campaign (id, merchant, discount, reward
    terms)".  The hook reads [id] and [merchant] as strings. *)
Record t : Type := mk {
  id : string;
  merchant : string;
  discount : string;
  reward : string
}.
End Campaign.

(** The part of a browser [File] that [uploadFile] reads. *)
Record File : Type := { file_name : string; file_size : Z }.

Record UploadedFile : Type := { name : string; size : Z }.

Module Stats.
Record t : Type := mk { clicks : Z; orders : Z; earnings : Z }.
End Stats.

Module Enrollment.
Record t : Type := mk {
  id : string;
  campaign : Campaign.t;
  status : EnrollmentStatus;
  enrolledAt : Date;
  uploadedFile : option UploadedFile;
  referralUrl : option string;
  clicks : option Z;
  orders : option Z;
  earnings : option Z;
  stats : option Stats.t;
  rejectionReason : option string
}.

(** [{ ...e, status: s }] *)
Definition withStatus (s : EnrollmentStatus) (e : t) : t :=
  mk (id e) (campaign e) s (enrolledAt e) (uploadedFile e) (referralUrl e)
     (clicks e) (orders e) (earnings e) (stats e) (rejectionReason e).

(** [{ ...e, uploadedFile: f, status: s }] *)
Definition withUpload (f : UploadedFile) (s : EnrollmentStatus) (e : t) : t :=
  mk (id e) (campaign e) s (enrolledAt e) (Some f) (referralUrl e)
     (clicks e) (orders e) (earnings e) (stats e) (rejectionReason e).

(** [{ ...e, status: s, rejectionReason: r }] *)
Definition withRejection (s : EnrollmentStatus) (r : string) (e : t) : t :=
  mk (id e) (campaign e) s (enrolledAt e) (uploadedFile e) (referralUrl e)
     (clicks e) (orders e) (earnings e) (stats e) (Some r).

(** [{ ...e, status: s, referralUrl: url, clicks: c, orders: o,
       earnings: g, stats: { clicks: c, orders: o, earnings: g } }] *)
Definition withApproval (s : EnrollmentStatus) (url : string) (c o g : Z)
    (e : t) : t :=
  mk (id e) (campaign e) s (enrolledAt e) (uploadedFile e) (Some url)
     (Some c) (Some o) (Some g) (Some (Stats.mk c o g)) (rejectionReason e).
End Enrollment.

(** ** [utils.ts] (missing from the sources) *)

(** Modelled from the spec: [isTerminalState] of [utils.ts] is missing; the
    spec says "approved and rejected are terminal". *)
Definition isTerminalState (s : EnrollmentStatus) : bool :=
  String.eqb s approved || String.eqb s rejected.

(** Modelled from the spec: [nextEnrollmentState] of [utils.ts] is missing; the
    spec gives the chain "enrolled → uploaded → processing → under-review →
    approved/rejected", and [advanceEnrollment] tests the result for being
    absent and for being ['approved'].  A status with no successor has no next
    state. *)
Definition nextEnrollmentState (s : EnrollmentStatus) : option EnrollmentStatus :=
  if String.eqb s enrolled then Some uploaded
  else if String.eqb s uploaded then Some processing
  else if String.eqb s processing then Some under_review
  else if String.eqb s under_review then Some approved
  else None.

(** ** The environment of an event handler *)

(** Number-to-string conversion of a template literal, for an integer. *)
Definition showZ (n : Z) : string := NilZero.string_of_int (Z.to_int n).

(** The Number type of JavaScript is IEEE 754 binary64.  A finite double is
    held as the rational it denotes, and an operation on doubles is the exact
    operation followed by [round]: to the nearest double, ties to the one
    whose last bit is even.  Overflow to [Infinity] is left out: the numbers
    rounded here are below 2^1024 (the products of [randomInt] are below
    500). *)
Module Double.

Definition pow2 (k : Z) : Q := (2 ^ k)%Q.

(** The exponent [k] with [2^k <= q < 2^(k+1)], for [0 < q]. *)
Definition binade (q : Q) : Z :=
  let k := Z.log2 (Qnum q) - Z.log2 (Zpos (Qden q)) in
  if Qle_bool (pow2 k) q then k else k - 1.

(** The integer nearest to [x], the even one when two are as near. *)
Definition nearestEven (x : Q) : Z :=
  let f := Qfloor x in
  match (x - inject_Z f ?= 1 # 2)%Q with
  | Lt => f
  | Gt => f + 1
  | Eq => if Z.even f then f else f + 1
  end.

(** The exponent of the last bit of the 53-bit significand of a double in the
    binade of [q]; it is -1074 for the subnormal numbers. *)
Definition lastBit (q : Q) : Z := Z.max (-1074) (binade q - 52).

Definition roundPositive (q : Q) : Q :=
  let e := lastBit q in
  (inject_Z (nearestEven (q * pow2 (- e))) * pow2 e)%Q.

Definition round (q : Q) : Q :=
  match (q ?= 0)%Q with
  | Eq => 0%Q
  | Gt => roundPositive q
  | Lt => (- roundPositive (- q))%Q
  end.

(** The rationals that are doubles. *)
Definition isDouble (q : Q) : Prop := (round q == q)%Q.

(** [x * y] on two doubles. *)
Definition mul (x y : Q) : Q := round (x * y).

End Double.

(** The values returned by successive calls of [Math.random()]; the cursor
    counts the calls made so far. *)
Definition Oracle : Type := nat -> Q.

(** An updater that draws random numbers: cursor in, result and cursor out. *)
Definition Rand (A : Type) : Type := nat -> A * nat.

Definition ret {A} (a : A) : Rand A := fun n => (a, n).

Definition bind {A B} (m : Rand A) (k : A -> Rand B) : Rand B :=
  fun n => let '(a, n') := m n in k a n'.

Notation "'let*' x ':=' m 'in' k" := (bind m (fun x => k))
  (at level 10, x name, m at level 100, k at level 200).

(** [Math.random()] *)
Definition Math_random (rnd : Oracle) : Rand Q := fun n => (rnd n, S n).

(** [Math.floor(Math.random() * range) + base]: the product is rounded to a
    double; its floor and the sum with [base] are integers far below 2^53,
    hence exact. *)
Definition randomInt (rnd : Oracle) (range base : Z) : Rand Z :=
  let* r := Math_random rnd in
  ret (Qfloor (Double.mul r (inject_Z range)) + base).

(** [prev.map(f)] for a callback that draws random numbers; the callback runs
    on the elements from left to right. *)
Fixpoint mapRand {A B} (f : A -> Rand B) (l : list A) : Rand (list B) :=
  match l with
  | [] => ret []
  | a :: l' => let* b := f a in let* bs := mapRand f l' in ret (b :: bs)
  end.

(** ** [useCollaborators]: the updaters passed to [setEnrollments] *)

Module Update.
Import Enrollment.

(** The record built by [enrollInCampaign]; [now] is the reading of
    [Date.now()] and of [new Date()]. *)
Definition newEnrollment (now : Z) (c : Campaign.t) : Enrollment.t :=
  {| id := "enrollment-" ++ showZ now;
     campaign := c;
     status := enrolled;
     enrolledAt := newDate now;
     uploadedFile := None;
     referralUrl := None;
     clicks := Some 0;
     orders := Some 0;
     earnings := Some 0;
     stats := None;
     rejectionReason := None |}.

(** [prev => [...prev, newEnrollment]] *)
Definition enrollInCampaign (now : Z) (c : Campaign.t)
    (prev : list Enrollment.t) : list Enrollment.t :=
  prev ++ [newEnrollment now c].

Definition uploadFile (enrollmentId : string) (file : File)
    (prev : list Enrollment.t) : list Enrollment.t :=
  map (fun e =>
         if String.eqb (id e) enrollmentId
         then withUpload {| name := file_name file; size := file_size file |}
                         uploaded e
         else e) prev.

(** The synchronous part of [submitForReview]. *)
Definition submitForReview (enrollmentId : string)
    (prev : list Enrollment.t) : list Enrollment.t :=
  map (fun e =>
         if String.eqb (id e) enrollmentId then withStatus processing e else e)
      prev.

(** The callback that [submitForReview] schedules after 4000 ms. *)
Definition toUnderReview (enrollmentId : string)
    (prev : list Enrollment.t) : list Enrollment.t :=
  map (fun e =>
         if String.eqb (id e) enrollmentId && String.eqb (status e) processing
         then withStatus under_review e
         else e) prev.

(** [`https://snoonu.com/ref/${e.campaign.id}?c=${Date.now()}`] *)
Definition referralUrlFor (now : Z) (e : Enrollment.t) : string :=
  "https://snoonu.com/ref/" ++ Campaign.id (campaign e) ++ "?c=" ++ showZ now.

(** The callback that [submitForReview] schedules after 8000 ms. *)
Definition toApproved (rnd : Oracle) (now : Z) (enrollmentId : string)
    (prev : list Enrollment.t) : Rand (list Enrollment.t) :=
  mapRand (fun e =>
    if negb (String.eqb (id e) enrollmentId)
       || negb (String.eqb (status e) under_review)
    then ret e
    else
      let* clicks := randomInt rnd 400 100 in
      let* orders := randomInt rnd 40 10 in
      let* earnings := randomInt rnd 150 50 in
      ret (withApproval approved (referralUrlFor now e)
                        clicks orders earnings e)) prev.

Definition advanceEnrollment (rnd : Oracle) (now : Z) (enrollmentId : string)
    (prev : list Enrollment.t) : Rand (list Enrollment.t) :=
  mapRand (fun e =>
    if negb (String.eqb (id e) enrollmentId) || isTerminalState (status e)
    then ret e
    else
      match nextEnrollmentState (status e) with
      | None => ret e
      | Some nextStatus =>
          if String.eqb nextStatus EmptyString then ret e
          else
            let updated := withStatus nextStatus e in
            if String.eqb nextStatus approved then
              let* clicks := randomInt rnd 400 100 in
              let* orders := randomInt rnd 40 10 in
              let* earnings := randomInt rnd 150 50 in
              ret (withApproval nextStatus (referralUrlFor now e)
                                clicks orders earnings updated)
            else ret updated
      end) prev.

Definition advanceToApproved (rnd : Oracle) (now : Z) (enrollmentId : string)
    (prev : list Enrollment.t) : Rand (list Enrollment.t) :=
  mapRand (fun e =>
    if negb (String.eqb (id e) enrollmentId) then ret e
    else
      let* clicks := randomInt rnd 500 100 in
      let* orders := randomInt rnd 50 10 in
      let* earnings := randomInt rnd 200 50 in
      ret (withApproval approved (referralUrlFor now e)
                        clicks orders earnings e)) prev.

Definition rejectionText : string :=
  "Video did not meet the campaign guidelines. Please ensure you mention the discount code clearly.".

Definition rejectEnrollment (enrollmentId : string)
    (prev : list Enrollment.t) : list Enrollment.t :=
  map (fun e =>
         if String.eqb (id e) enrollmentId
         then withRejection rejected rejectionText e
         else e) prev.
End Update.

(** ** [useCollaborators]: the state container and its timers *)

Inductive ToastType : Type := success | error | info.

Record Toast : Type := { message : string; type : ToastType }.

(** The closures handed to [setTimeout]. *)
Inductive Callback : Type :=
| ClearToast                              (* [() => setToast(null)] *)
| ToUnderReview (enrollmentId : string)   (* first timer of [submitForReview] *)
| ToApproved (enrollmentId : string).     (* second timer of [submitForReview] *)

(** A pending timer: the time at which it becomes due, and its callback. *)
Record Timer : Type := { due : Z; callback : Callback }.

(** The state of the hook that the enrollment operations touch, with the
    clock, the pending timers and the cursor of the random oracle. *)
Record State : Type := {
  enrollments : list Enrollment.t;
  toast : option Toast;
  timers : list Timer;
  now : Z;
  draws : nat
}.

Definition setEnrollments (f : list Enrollment.t -> list Enrollment.t)
    (s : State) : State :=
  {| enrollments := f (enrollments s); toast := toast s; timers := timers s;
     now := now s; draws := draws s |}.

(** [setEnrollments] with an updater that draws random numbers. *)
Definition setEnrollmentsRand (f : list Enrollment.t -> Rand (list Enrollment.t))
    (s : State) : State :=
  let '(l, n) := f (enrollments s) (draws s) in
  {| enrollments := l; toast := toast s; timers := timers s;
     now := now s; draws := n |}.

Definition setToast (t : option Toast) (s : State) : State :=
  {| enrollments := enrollments s; toast := t; timers := timers s;
     now := now s; draws := draws s |}.

(** [setTimeout(cb, delay)]: the timer is due [delay] ms from now. *)
Definition setTimeout (cb : Callback) (delay : Z) (s : State) : State :=
  {| enrollments := enrollments s; toast := toast s;
     timers := timers s ++ [{| due := now s + delay; callback := cb |}];
     now := now s; draws := draws s |}.

(** [showToast(message, type)]; the type defaults to ['success']. *)
Definition showToast (msg : string) (ty : ToastType) (s : State) : State :=
  setTimeout ClearToast 3000 (setToast (Some {| message := msg; type := ty |}) s).

Definition enrollInCampaign (c : Campaign.t) (s : State) : State :=
  showToast ("Enrolled in " ++ Campaign.merchant c ++ "!") success
    (setEnrollments (Update.enrollInCampaign (now s) c) s).

Definition uploadFile (enrollmentId : string) (file : File) (s : State) : State :=
  showToast "Video uploaded successfully!" success
    (setEnrollments (Update.uploadFile enrollmentId file) s).

Definition submitForReview (enrollmentId : string) (s : State) : State :=
  setTimeout (ToApproved enrollmentId) 8000
    (setTimeout (ToUnderReview enrollmentId) 4000
       (showToast "Submitted for review!" success
          (setEnrollments (Update.submitForReview enrollmentId) s))).

Section WithOracle.
Variable rnd : Oracle.

Definition advanceEnrollment (enrollmentId : string) (s : State) : State :=
  setEnrollmentsRand (Update.advanceEnrollment rnd (now s) enrollmentId) s.

Definition advanceToApproved (enrollmentId : string) (s : State) : State :=
  showToast "Enrollment approved!" success
    (setEnrollmentsRand (Update.advanceToApproved rnd (now s) enrollmentId) s).

Definition rejectEnrollment (enrollmentId : string) (s : State) : State :=
  showToast "Enrollment rejected" error
    (setEnrollments (Update.rejectEnrollment enrollmentId) s).

(** Running the callback of a timer that fires. *)
Definition runCallback (cb : Callback) (s : State) : State :=
  match cb with
  | ClearToast => setToast None s
  | ToUnderReview i => setEnrollments (Update.toUnderReview i) s
  | ToApproved i => setEnrollmentsRand (Update.toApproved rnd (now s) i) s
  end.

(** Removal of the [k]-th pending timer. *)
Definition dropTimer (k : nat) (s : State) : State :=
  {| enrollments := enrollments s; toast := toast s;
     timers := firstn k (timers s) ++ skipn (S k) (timers s);
     now := now s; draws := draws s |}.

(** What the event loop can do: run one of the six operations, let time
    pass, or fire a pending timer that is due (a timer never fires early; it
    may fire late, and the pending timers may fire in any order once due). *)
Inductive Event : Type :=
| DoEnroll (c : Campaign.t)
| DoUpload (enrollmentId : string) (file : File)
| DoSubmit (enrollmentId : string)
| DoAdvance (enrollmentId : string)
| DoApprove (enrollmentId : string)
| DoReject (enrollmentId : string)
| Elapse (ms : Z)
| Fire (k : nat).

Definition elapse (ms : Z) (s : State) : State :=
  {| enrollments := enrollments s; toast := toast s; timers := timers s;
     now := now s + Z.max 0 ms; draws := draws s |}.

Definition fire (k : nat) (s : State) : State :=
  match nth_error (timers s) k with
  | Some t => if due t <=? now s then runCallback (callback t) (dropTimer k s)
              else s
  | None => s
  end.

Definition step (s : State) (ev : Event) : State :=
  match ev with
  | DoEnroll c => enrollInCampaign c s
  | DoUpload i f => uploadFile i f s
  | DoSubmit i => submitForReview i s
  | DoAdvance i => advanceEnrollment i s
  | DoApprove i => advanceToApproved i s
  | DoReject i => rejectEnrollment i s
  | Elapse ms => elapse ms s
  | Fire k => fire k s
  end.

Definition run (s : State) (evs : list Event) : State := fold_left step evs s.
End WithOracle.

(** ** [EnrollmentsTab]: the order of the displayed list *)

(** [statusPriority]: a higher number is a higher position. *)
Definition statusPriority : gmap string Z :=
  list_to_map
    [("approved", 6); ("under-review", 5); ("processing", 4);
     ("uploaded", 3); ("enrolled", 2); ("rejected", 1)]%string.

(** Subtraction of two numbers, either of which may be [undefined] or [NaN];
    [None] is [NaN]. *)
Definition minus (a b : option Z) : option Z :=
  match a, b with
  | Some x, Some y => Some (x - y)
  | _, _ => None
  end.

(** [x !== 0] for a number that may be [NaN]. *)
Definition isNonZero (x : option Z) : bool :=
  match x with
  | Some v => negb (v =? 0)
  | None => true
  end.

(** The comparator handed to [sort]. *)
Definition compareEnrollments (a b : Enrollment.t) : option Z :=
  let priorityDiff :=
    minus (statusPriority !! Enrollment.status b)
          (statusPriority !! Enrollment.status a) in
  if isNonZero priorityDiff then priorityDiff
  else minus (getTime (Enrollment.enrolledAt b))
             (getTime (Enrollment.enrolledAt a)).

Section ArraySort.
Context {A : Type}.
Variable comparefn : A -> A -> option Z.

(** SortCompare of ECMA-262: a comparator result of [NaN] counts as [+0]. *)
Definition sortCompare (x y : A) : Z :=
  match comparefn x y with
  | Some v => v
  | None => 0
  end.

(** [Array.prototype.sort].  When the comparator is consistent for the
    elements ([SortCompare] is then a total preorder on them), ECMA-262 fixes
    the result: the elements in that order, those that compare equal keeping
    their places.  Every engine returns it, and the stable insertion sort
    below computes it.  When the comparator is not consistent (here: when
    [NaN] results make it intransitive), the standard leaves the order to the
    engine, which returns some permutation of the array; the insertion sort
    is then one engine among others.  What is proved of the order and of the
    stability of the result is therefore stated for consistent comparators;
    where a list with an inconsistent comparator is sorted, the comparisons
    that decide the result are given with it. *)
Fixpoint insertSorted (x : A) (l : list A) : list A :=
  match l with
  | [] => [x]
  | y :: l' => if sortCompare x y <=? 0 then x :: l else y :: insertSorted x l'
  end.

Fixpoint Array_sort (l : list A) : list A :=
  match l with
  | [] => []
  | x :: l' => insertSorted x (Array_sort l')
  end.
End ArraySort.

(** [sortedEnrollments]: [[...enrollments].sort(compare)]. *)
Definition sortedEnrollments (enrollments : list Enrollment.t) : list Enrollment.t :=
  Array_sort compareEnrollments enrollments.

(** ** Completions: how a statement or a call ends *)

Inductive Completion (A : Type) : Type :=
| Normal (a : A)
| Threw (err : string).
Arguments Normal {A} a.
Arguments Threw {A} err.

(** [try { body } catch (error) { handler(error) }] *)
Definition tryCatch {A} (body : Completion A) (handler : string -> Completion A)
    : Completion A :=
  match body with
  | Normal a => Normal a
  | Threw err => handler err
  end.

(** Sequencing inside a [try] block. *)
Definition andThen {A B} (c : Completion A) (k : A -> Completion B)
    : Completion B :=
  match c with
  | Normal a => k a
  | Threw err => Threw err
  end.

(** A value that may be [null]. *)
Inductive Nullable (A : Type) : Type :=
| Null
| NotNull (a : A).
Arguments Null {A}.
Arguments NotNull {A} a.

(** ** [example-fetch.ts]: the announcement fetchers *)

Module Fetch.
(** The query that the builder chain assembles. *)
Record Query : Type := {
  schema : string;
  from : string;
  select : string;
  order : option (string * bool);       (* column, ascending *)
  eq : option (string * string);        (* column, value *)
  single : bool
}.

Section WithRows.
(** A row of the table, as the database returns it. *)
Variable Row : Type.

(** [data] of a response: the rows, or one row after [.single()]. *)
Inductive Data : Type :=
| Rows (rows : list Row)
| OneRow (row : Row).

(** The object that awaiting a query resolves to. *)
Record Response : Type := {
  data : Nullable Data;
  error : Nullable string
}.

(** The client: awaiting a query resolves to a response or rejects. *)
Definition Client : Type := Query -> Completion Response.

(** [supabase!.schema(...)...]: a [null] client makes the chain throw. *)
Definition await (supabase : Nullable Client) (q : Query)
    : Completion Response :=
  match supabase with
  | Null => Threw "TypeError: Cannot read properties of null"
  | NotNull client => client q
  end.

(** The body shared by the five fetchers: [if (error) return null;
    return data], inside [try], with [catch] returning [null].  What the
    fetchers write to the console is left out. *)
Definition fetchWith (supabase : Nullable Client) (q : Query)
    : Completion (Nullable Data) :=
  tryCatch
    (andThen (await supabase q) (fun r =>
       match error r with
       | NotNull _ => Normal Null
       | Null => Normal (data r)
       end))
    (fun _ => Normal Null).

(** The five builder chains. *)
Definition allQuery : Query :=
  {| schema := "Snoonu Collaborators"; from := "announcments";
     select := "*"; order := None; eq := None; single := false |}.

Definition orderedQuery : Query :=
  {| schema := "Snoonu Collaborators"; from := "announcments";
     select := "*"; order := Some ("created_at"%string, false);
     eq := None; single := false |}.

Definition basicQuery : Query :=
  {| schema := "Snoonu Collaborators"; from := "announcments";
     select := "id, merchant, discount, reward"; order := None;
     eq := None; single := false |}.

Definition byMerchantQuery (merchantName : string) : Query :=
  {| schema := "Snoonu Collaborators"; from := "announcments";
     select := "*"; order := None;
     eq := Some ("merchant"%string, merchantName); single := false |}.

Definition byIdQuery (id : string) : Query :=
  {| schema := "Snoonu Collaborators"; from := "announcments";
     select := "*"; order := None; eq := Some ("id"%string, id);
     single := true |}.

Definition fetchAllAnnouncements (supabase : Nullable Client)
    : Completion (Nullable Data) :=
  fetchWith supabase allQuery.

Definition fetchAnnouncementsOrdered (supabase : Nullable Client)
    : Completion (Nullable Data) :=
  fetchWith supabase orderedQuery.

Definition fetchAnnouncementsBasic (supabase : Nullable Client)
    : Completion (Nullable Data) :=
  fetchWith supabase basicQuery.

Definition fetchAnnouncementsByMerchant (supabase : Nullable Client)
    (merchantName : string) : Completion (Nullable Data) :=
  fetchWith supabase (byMerchantQuery merchantName).

Definition fetchAnnouncementById (supabase : Nullable Client) (id : string)
    : Completion (Nullable Data) :=
  fetchWith supabase (byIdQuery id).

(** The query failed: the client is [null], awaiting rejects, or the
    response carries an error. *)
Definition failed (supabase : Nullable Client) (q : Query) : Prop :=
  match await supabase q with
  | Threw _ => True
  | Normal r => error r <> Null
  end.
End WithRows.
End Fetch.

(** ** [AnnouncementsTab]: the campaign loader *)

Module AnnouncementsTab.
Record State : Type := {
  campaignsList : list Campaign.t;
  isLoading : bool
}.

Definition setCampaignsList (l : list Campaign.t) (s : State) : State :=
  {| campaignsList := l; isLoading := isLoading s |}.

Definition setIsLoading (b : bool) (s : State) : State :=
  {| campaignsList := campaignsList s; isLoading := b |}.

(** [loadCampaigns].  [testSupabaseConnection] and [fetchCampaigns] live in
    [supabaseQueries.ts], which is not part of the sources; what awaiting
    each of them gives is an input. *)
Definition loadCampaigns
    (testSupabaseConnection : Completion bool)
    (fetchCampaigns : Completion (list Campaign.t))
    (s : State) : Completion State :=
  let s1 := setIsLoading true s in
  let tried :=
    tryCatch
      (andThen testSupabaseConnection (fun _ =>
       andThen fetchCampaigns (fun supabaseCampaigns =>
         if (0 <? length supabaseCampaigns)%nat
         then Normal (setCampaignsList supabaseCampaigns s1)
         else Normal (setCampaignsList [] s1))))
      (fun _ => Normal (setCampaignsList [] s1)) in
  (* finally *)
  match tried with
  | Normal s2 => Normal (setIsLoading false s2)
  | Threw err => Threw err
  end.

(** What the view renders once loading is over. *)
Inductive View : Type :=
| Loading
| NoCampaignsFound
| CampaignGrid (cards : list Campaign.t).

Definition render (s : State) : View :=
  if isLoading s then Loading
  else if (length (campaignsList s) =? 0)%nat then NoCampaignsFound
  else CampaignGrid (campaignsList s).
End AnnouncementsTab.

(** ** Dates as ISO strings ([toISOString], [new Date(string)]) *)

Module ISO.
Definition msPerDay : Z := 86400000.

(** DayFromYear of ECMA-262: the day number of the first day of year [y]. *)
Definition dayFromYear (y : Z) : Z :=
  365 * (y - 1970) + (y - 1969) / 4 - (y - 1901) / 100 + (y - 1601) / 400.

(** The year that contains day [day], that is the largest [y] with
    [dayFromYear y <= day]: an estimate from the mean length of a year is off
    by at most one. *)
Definition yearFromDay (day : Z) : Z :=
  let y0 := 1970 + (400 * day) / 146097 in
  if dayFromYear (y0 + 1) <=? day then y0 + 1
  else if day <? dayFromYear y0 then y0 - 1
  else y0.

(** InLeapYear of ECMA-262. *)
Definition inLeapYear (y : Z) : Z :=
  if (y mod 4 =? 0) && (negb (y mod 100 =? 0) || (y mod 400 =? 0))
  then 1 else 0.

(** The day of the year on which month [m] (1 to 12) starts; 13 gives the
    length of the year. *)
Definition monthStart (leap m : Z) : Z :=
  if m <=? 1 then 0
  else if m =? 2 then 31
  else if m =? 3 then 59 + leap
  else if m =? 4 then 90 + leap
  else if m =? 5 then 120 + leap
  else if m =? 6 then 151 + leap
  else if m =? 7 then 181 + leap
  else if m =? 8 then 212 + leap
  else if m =? 9 then 243 + leap
  else if m =? 10 then 273 + leap
  else if m =? 11 then 304 + leap
  else if m =? 12 then 334 + leap
  else 365 + leap.

(** MonthFromTime of ECMA-262, with the months counted from 1. *)
Definition monthFromDayOfYear (leap doy : Z) : Z :=
  if doy <? 31 then 1
  else if doy <? 59 + leap then 2
  else if doy <? 90 + leap then 3
  else if doy <? 120 + leap then 4
  else if doy <? 151 + leap then 5
  else if doy <? 181 + leap then 6
  else if doy <? 212 + leap then 7
  else if doy <? 243 + leap then 8
  else if doy <? 273 + leap then 9
  else if doy <? 304 + leap then 10
  else if doy <? 334 + leap then 11
  else 12.

(** Year, month (1 to 12) and day of the month of a day number. *)
Definition civilFromDays (day : Z) : Z * Z * Z :=
  let y := yearFromDay day in
  let doy := day - dayFromYear y in
  let m := monthFromDayOfYear (inLeapYear y) doy in
  (y, m, doy - monthStart (inLeapYear y) m + 1).

(** MakeDay of ECMA-262, for a month from 1 to 12. *)
Definition daysFromCivil (y m d : Z) : Z :=
  dayFromYear y + monthStart (inLeapYear y) m + d - 1.

Definition daysInMonth (y m : Z) : Z :=
  monthStart (inLeapYear y) (m + 1) - monthStart (inLeapYear y) m.

(** Decimal digits. *)
Definition digitChar (d : Z) : ascii := ascii_of_N (48 + Z.to_N d).

Definition digitValue (c : ascii) : option Z :=
  let n := Z.of_N (N_of_ascii c) in
  if (48 <=? n) && (n <=? 57) then Some (n - 48) else None.

(** [n] written with exactly [width] digits. *)
Fixpoint fixedDigits (width : nat) (n : Z) : list ascii :=
  match width with
  | O => []
  | S w => digitChar (n / 10 ^ Z.of_nat w) :: fixedDigits w (n mod 10 ^ Z.of_nat w)
  end.

(** Reads exactly [width] digits. *)
Fixpoint readDigits (width : nat) (acc : Z) (s : list ascii)
    : option (Z * list ascii) :=
  match width with
  | O => Some (acc, s)
  | S w =>
      match s with
      | c :: s' => d ← digitValue c; readDigits w (10 * acc + d) s'
      | [] => None
      end
  end.

Definition expect (c : ascii) (s : list ascii) : option (list ascii) :=
  match s with
  | c' :: s' => if Ascii.eqb c c' then Some s' else None
  | [] => None
  end.

(** The year: four digits from 0 to 9999, otherwise a sign and six digits. *)
Definition yearChars (y : Z) : list ascii :=
  if (0 <=? y) && (y <=? 9999) then fixedDigits 4 y
  else (if y <? 0 then "-"%char else "+"%char) :: fixedDigits 6 (Z.abs y).

(** The expanded year [-000000] is not a valid year. *)
Definition readYear (s : list ascii) : option (Z * list ascii) :=
  match s with
  | c :: s' =>
      if Ascii.eqb c "+" then readDigits 6 0 s'
      else if Ascii.eqb c "-" then
        '(n, r) ← readDigits 6 0 s';
        if n =? 0 then None else Some (- n, r)
      else readDigits 4 0 s
  | [] => None
  end.

(** [YYYY-MM-DDTHH:mm:ss.sssZ] for a time value. *)
Definition isoChars (t : Z) : list ascii :=
  let day := t / msPerDay in
  let ms := t mod msPerDay in
  let '(y, m, d) := civilFromDays day in
  yearChars y ++ "-"%char :: fixedDigits 2 m ++ "-"%char :: fixedDigits 2 d
    ++ "T"%char :: fixedDigits 2 (ms / 3600000)
    ++ ":"%char :: fixedDigits 2 (ms / 60000 mod 60)
    ++ ":"%char :: fixedDigits 2 (ms / 1000 mod 60)
    ++ "."%char :: fixedDigits 3 (ms mod 1000) ++ ["Z"%char].

(** Out-of-bounds fields make the string an invalid instance of the format;
    [24:00:00.000] is the end of the day. *)
Definition fieldsValid (y m d hh mm ss ms : Z) : bool :=
  (1 <=? m) && (m <=? 12) && (1 <=? d) && (d <=? daysInMonth y m)
  && ((hh <=? 23) && (mm <=? 59) && (ss <=? 59)
      || (hh =? 24) && (mm =? 0) && (ss =? 0) && (ms =? 0)).

(** The date-time form of the ECMA-262 date string format with all its fields
    and the UTC designator, which is what [toISOString] writes. *)
Definition parseChars (s : list ascii) : option Z :=
  '(y, s) ← readYear s;
  s ← expect "-" s;
  '(m, s) ← readDigits 2 0 s;
  s ← expect "-" s;
  '(d, s) ← readDigits 2 0 s;
  s ← expect "T" s;
  '(hh, s) ← readDigits 2 0 s;
  s ← expect ":" s;
  '(mm, s) ← readDigits 2 0 s;
  s ← expect ":" s;
  '(ss, s) ← readDigits 2 0 s;
  s ← expect "." s;
  '(ms, s) ← readDigits 3 0 s;
  s ← expect "Z" s;
  match s with
  | [] =>
      if fieldsValid y m d hh mm ss ms
      then Some (daysFromCivil y m d * msPerDay
                 + hh * 3600000 + mm * 60000 + ss * 1000 + ms)
      else None
  | _ :: _ => None
  end.
End ISO.

(** [d.toISOString()]: a [RangeError] for an Invalid Date. *)
Definition toISOString (d : Date) : Completion string :=
  match d with
  | ValidDate t =>
      if Z.abs t <=? maxTime
      then Normal (string_of_list_ascii (ISO.isoChars t))
      else Threw "RangeError: Invalid time value"
  | InvalidDate => Threw "RangeError: Invalid time value"
  end.

(** [Date.parse(s)]: the string is read in the date-time format first; the
    other forms of the format and the implementation-specific fallbacks are
    left to [otherFormats].  [None] is [NaN]. *)
Definition Date_parse (otherFormats : string -> option Z) (s : string)
    : option Z :=
  match ISO.parseChars (list_ascii_of_string s) with
  | Some t => Some t
  | None => otherFormats s
  end.

(** ** JSON values and the objects of the run time *)

(** What [JSON.parse] returns and [JSON.stringify] reads.  Numbers are the
    integers, the only numbers the hook stores; the properties of an object
    are kept in their order of enumeration. *)
#[warnings="-register-all"]
Inductive json : Type :=
| JNull
| JBool (b : bool)
| JNum (n : Z)
| JStr (s : string)
| JArr (elems : list json)
| JObj (props : list (string * json)).

(** The value of a property of an enrollment object: JSON data, or a [Date]
    object. *)
Inductive PropertyValue : Type :=
| Data (j : json)
| DateObject (d : Date).

(** An object: its own enumerable properties, in order. *)
Definition JSObject : Type := list (string * PropertyValue).

(** [o.k = v]: an existing property keeps its place, a new one goes last. *)
Fixpoint setProp {V} (k : string) (v : V) (o : list (string * V))
    : list (string * V) :=
  match o with
  | [] => [(k, v)]
  | (k', v') :: o' =>
      if String.eqb k' k then (k, v) :: o' else (k', v') :: setProp k v o'
  end.

(** [o.k], [None] for [undefined]. *)
Fixpoint getProp {V} (k : string) (o : list (string * V)) : option V :=
  match o with
  | [] => None
  | (k', v') :: o' => if String.eqb k' k then Some v' else getProp k o'
  end.

(** The index keys ["0"], ["1"], ... of an array or a string. *)
Fixpoint indexed {V} (i : Z) (l : list V) : list (string * V) :=
  match l with
  | [] => []
  | v :: l' => (showZ i, v) :: indexed (i + 1) l'
  end.

(** [{ ...e }]: the own enumerable properties of a JSON value. *)
Definition ownProperties (e : json) : JSObject :=
  match e with
  | JObj props =>
      fold_left (fun o kv => setProp (fst kv) (Data (snd kv)) o) props []
  | JArr elems => indexed 0 (map Data elems)
  | JStr s =>
      indexed 0 (map (fun c => Data (JStr (String c EmptyString)))
                     (list_ascii_of_string s))
  | JNull | JBool _ | JNum _ => []
  end.

(** The message of the [TypeError] of OrdinaryToPrimitive. *)
Definition notPrimitive : string :=
  "TypeError: Cannot convert object to primitive value".

(** An object made by [JSON.parse] has an own property [k]. *)
Definition hasOwn (k : string) (props : list (string * json)) : bool :=
  existsb (fun kv => String.eqb (fst kv) k) props.

(** ToString of a JSON value.  A number is written in decimal, which is what
    Number::toString writes for a safe integer (magnitude below 2^53).  An
    array is converted by [Array.prototype.join]: its elements, converted in
    order and joined with commas, [null] giving the empty string.  An object
    is converted by OrdinaryToPrimitive, which calls its [toString] and its
    [valueOf]: [toString] is [Object.prototype.toString] unless the object
    has an own property of that name, which, coming from [JSON.parse], is not
    callable; [valueOf], inherited or own, then gives no primitive either,
    and the conversion throws a [TypeError]. *)
Fixpoint ToString (j : json) : Completion string :=
  match j with
  | JNull => Normal "null"
  | JBool b => Normal (if b then "true" else "false")
  | JNum n => Normal (showZ n)
  | JStr s => Normal s
  | JArr elems =>
      andThen
        ((fix joined (l : list json) : Completion (list string) :=
            match l with
            | [] => Normal []
            | x :: l' =>
                andThen (match x with
                         | JNull => Normal EmptyString
                         | _ => ToString x
                         end) (fun s =>
                andThen (joined l') (fun ss => Normal (s :: ss)))
            end) elems)
        (fun ss => Normal (String.concat "," ss))
  | JObj props =>
      if hasOwn "toString" props then Threw notPrimitive
      else Normal "[object Object]"
  end.

(** The string that [join] writes for an element of an array. *)
Definition elementString (x : json) : Completion string :=
  match x with
  | JNull => Normal EmptyString
  | _ => ToString x
  end.

(** [new Date(v)] for a property value, [None] being [undefined]: a [Date]
    object gives its time value; any other value is converted by ToPrimitive,
    which leaves a primitive as it is and converts an array or an object to
    the string of [ToString], or throws as [ToString] does; a string is
    parsed, and any other primitive is converted to a number. *)
Definition newDateOf (otherFormats : string -> option Z)
    (v : option PropertyValue) : Completion Date :=
  let fromString s :=
    match Date_parse otherFormats s with
    | Some t => newDate t
    | None => InvalidDate
    end in
  match v with
  | None => Normal InvalidDate
  | Some (DateObject d) => Normal d
  | Some (Data JNull) => Normal (newDate 0)
  | Some (Data (JBool b)) => Normal (newDate (if b then 1 else 0))
  | Some (Data (JNum n)) => Normal (newDate n)
  | Some (Data (JStr s)) => Normal (fromString s)
  | Some (Data j) => andThen (ToString j) (fun s => Normal (fromString s))
  end.

(** [toJSON] of a property value, as [JSON.stringify] applies it: an Invalid
    Date becomes [null]. *)
Definition toJSON (v : PropertyValue) : json :=
  match v with
  | Data j => j
  | DateObject d =>
      match toISOString d with
      | Normal s => JStr s
      | Threw _ => JNull
      end
  end.

Definition jsonOfObject (o : JSObject) : json :=
  JObj (map (fun kv => (fst kv, toJSON (snd kv))) o).

(** The object behind an [Enrollment] record: the properties that
    [enrollInCampaign] creates, then the optional ones; an [undefined]
    property is absent. *)
Definition optionalProp {A} (k : string) (f : A -> json) (v : option A)
    : JSObject :=
  match v with
  | Some a => [(k, Data (f a))]
  | None => []
  end.

Definition campaignJson (c : Campaign.t) : json :=
  JObj [("id", JStr (Campaign.id c)); ("merchant", JStr (Campaign.merchant c));
        ("discount", JStr (Campaign.discount c));
        ("reward", JStr (Campaign.reward c))]%string.

Definition uploadedFileJson (f : UploadedFile) : json :=
  JObj [("name", JStr (name f)); ("size", JNum (size f))]%string.

Definition statsJson (st : Stats.t) : json :=
  JObj [("clicks", JNum (Stats.clicks st)); ("orders", JNum (Stats.orders st));
        ("earnings", JNum (Stats.earnings st))]%string.

Definition toObject (e : Enrollment.t) : JSObject :=
  [("id", Data (JStr (Enrollment.id e)));
   ("campaign", Data (campaignJson (Enrollment.campaign e)));
   ("status", Data (JStr (Enrollment.status e)));
   ("enrolledAt", DateObject (Enrollment.enrolledAt e))]%string
  ++ optionalProp "clicks" JNum (Enrollment.clicks e)
  ++ optionalProp "orders" JNum (Enrollment.orders e)
  ++ optionalProp "earnings" JNum (Enrollment.earnings e)
  ++ optionalProp "uploadedFile" uploadedFileJson (Enrollment.uploadedFile e)
  ++ optionalProp "referralUrl" JStr (Enrollment.referralUrl e)
  ++ optionalProp "stats" statsJson (Enrollment.stats e)
  ++ optionalProp "rejectionReason" JStr (Enrollment.rejectionReason e).

(** ** The browser: local storage and the console *)

Record Browser : Type := {
  localStorage : gmap string string;
  quota : nat;                 (* characters the store can hold *)
  storageAccess : bool;        (* [false]: every access throws *)
  console : list string        (* the messages of [console.error] *)
}.

(** A computation that reads and writes the browser and may throw; what was
    written before a throw stays written. *)
Definition JS (A : Type) : Type := Browser -> Completion A * Browser.

Definition pure {A} (a : A) : JS A := fun b => (Normal a, b).

Definition throw {A} (err : string) : JS A := fun b => (Threw err, b).

Definition lift {A} (c : Completion A) : JS A := fun b => (c, b).

Definition bindJS {A B} (m : JS A) (k : A -> JS B) : JS B :=
  fun b =>
    match m b with
    | (Normal a, b') => k a b'
    | (Threw err, b') => (Threw err, b')
    end.

Notation "'do' x '<==' m ';' k" := (bindJS m (fun x => k))
  (at level 10, x name, m at level 100, k at level 200).

(** [try { body } catch (error) { handler(error) }] *)
Definition tryCatchJS {A} (body : JS A) (handler : string -> JS A) : JS A :=
  fun b =>
    match body b with
    | (Normal a, b') => (Normal a, b')
    | (Threw err, b') => handler err b'
    end.

Definition storageUsage (m : gmap string string) : nat :=
  map_fold (fun k v acc => (String.length k + String.length v + acc)%nat) 0%nat m.

(** [localStorage.getItem(k)], [None] being [null]. *)
Definition getItem (k : string) : JS (option string) :=
  fun b =>
    if storageAccess b then (Normal (localStorage b !! k), b)
    else (Threw "SecurityError: access to storage is denied", b).

(** [localStorage.setItem(k, v)] *)
Definition setItem (k v : string) : JS unit :=
  fun b =>
    if negb (storageAccess b)
    then (Threw "SecurityError: access to storage is denied", b)
    else
      let m := <[k := v]> (localStorage b) in
      if (quota b <? storageUsage m)%nat
      then (Threw "QuotaExceededError: the quota has been exceeded", b)
      else (Normal tt,
            {| localStorage := m; quota := quota b;
               storageAccess := storageAccess b; console := console b |}).

(** [console.error(msg, error)] *)
Definition console_error (msg err : string) : JS unit :=
  fun b =>
    (Normal tt,
     {| localStorage := localStorage b; quota := quota b;
        storageAccess := storageAccess b;
        console := console b ++ [(msg ++ " " ++ err)%string] |}).

(** [l.map(f)] for a callback that may throw. *)
Fixpoint mapCompletion {A B} (f : A -> Completion B) (l : list A)
    : Completion (list B) :=
  match l with
  | [] => Normal []
  | a :: l' =>
      andThen (f a) (fun b =>
      andThen (mapCompletion f l') (fun bs => Normal (b :: bs)))
  end.

(** ** [useCollaborators]: the persistence adapter *)

Definition ENROLLMENTS_STORAGE_KEY : string := "snoonu-collaborators-enrollments".

(** The messages of the two [catch] blocks. *)
Definition loadFailed : string :=
  "[useCollaborators] Failed to load enrollments from localStorage:".

Definition saveFailed : string :=
  "[useCollaborators] Failed to save enrollments to localStorage:".

Section Persistence.
(** [JSON.stringify] and [JSON.parse] of the platform. *)
Variable JSON_stringify : json -> Completion string.
Variable JSON_parse : string -> Completion json.
(** The date strings that the platform reads besides the date-time format. *)
Variable otherFormats : string -> option Z.

(** [{ ...e, enrolledAt: e.enrolledAt.toISOString() }] *)
Definition serializeEnrollment (e : Enrollment.t) : Completion JSObject :=
  andThen (toISOString (Enrollment.enrolledAt e)) (fun iso =>
  Normal (setProp "enrolledAt" (Data (JStr iso)) (toObject e))).

(** The array handed to [JSON.stringify]. *)
Definition serialized (enrollments : list Enrollment.t) : Completion json :=
  andThen (mapCompletion serializeEnrollment enrollments) (fun objs =>
  Normal (JArr (map jsonOfObject objs))).

Definition saveEnrollmentsToStorage (enrollments : list Enrollment.t) : JS unit :=
  tryCatchJS
    (do arr <== lift (serialized enrollments);
     do txt <== lift (JSON_stringify arr);
     setItem ENROLLMENTS_STORAGE_KEY txt)
    (fun error => console_error saveFailed error).

(** [{ ...e, enrolledAt: new Date(e.enrolledAt) }]; reading a property of
    [null] throws, and so does [new Date] of a value that has no primitive. *)
Definition reviveEnrollment (e : json) : Completion JSObject :=
  match e with
  | JNull => Threw "TypeError: Cannot read properties of null"
  | _ =>
      andThen (newDateOf otherFormats (getProp "enrolledAt" (ownProperties e)))
        (fun d =>
      Normal (setProp "enrolledAt" (DateObject d) (ownProperties e)))
  end.

(** The loaded array holds objects that are cast to [Enrollment] unchecked. *)
Definition loadEnrollmentsFromStorage : JS (list JSObject) :=
  tryCatchJS
    (do stored <== getItem ENROLLMENTS_STORAGE_KEY;
     match stored with
     | None => pure []
     | Some txt =>
         if String.eqb txt EmptyString then pure []
         else
           do parsed <== lift (JSON_parse txt);
           match parsed with
           | JArr elems => lift (mapCompletion reviveEnrollment elems)
           | _ => throw "TypeError: parsed.map is not a function"
           end
     end)
    (fun error => do _ <== console_error loadFailed error; pure []).
End Persistence.

(** ** A JSON printer and parser

    [stringify] writes what [JSON.stringify] writes for a [json] value (no
    white space, the escapes of ECMA-262 QuoteJSONString); [parse] reads the
    JSON grammar for the values of [json]: a number with a fraction or an
    exponent and an escape beyond the ASCII range are outside what [json]
    holds and are rejected. *)

Module JSON.
Definition code (c : ascii) : Z := Z.of_N (N_of_ascii c).

Definition char (n : Z) : ascii := ascii_of_N (Z.to_N n).

Definition hexChar (n : Z) : ascii :=
  if n <? 10 then char (48 + n) else char (87 + n).

Definition hexValue (c : ascii) : option Z :=
  let n := code c in
  if (48 <=? n) && (n <=? 57) then Some (n - 48)
  else if (97 <=? n) && (n <=? 102) then Some (n - 87)
  else if (65 <=? n) && (n <=? 70) then Some (n - 55)
  else None.

(** QuoteJSONString, one character at a time. *)
Definition escapeChar (c : ascii) : list ascii :=
  let n := code c in
  if n =? 34 then ["\"; "034"]%char
  else if n =? 92 then ["\"; "\"]%char
  else if n =? 8 then ["\"; "b"]%char
  else if n =? 12 then ["\"; "f"]%char
  else if n =? 10 then ["\"; "n"]%char
  else if n =? 13 then ["\"; "r"]%char
  else if n =? 9 then ["\"; "t"]%char
  else if n <? 32
  then ["\"; "u"; "0"; "0"]%char ++ [hexChar (n / 16); hexChar (n mod 16)]
  else [c].

Definition quote (s : list ascii) : list ascii :=
  "034"%char :: flat_map escapeChar s ++ ["034"%char].

(** The character that a one-letter escape stands for. *)
Definition unescape (n : Z) : option ascii :=
  if n =? 34 then Some "034"%char
  else if n =? 92 then Some "\"%char
  else if n =? 47 then Some "/"%char
  else if n =? 98 then Some (char 8)
  else if n =? 102 then Some (char 12)
  else if n =? 110 then Some (char 10)
  else if n =? 114 then Some (char 13)
  else if n =? 116 then Some (char 9)
  else None.

(** The rest of a string literal, after its opening quote. *)
Fixpoint parseString (s : list ascii) : option (list ascii * list ascii) :=
  match s with
  | [] => None
  | c :: r =>
      if code c =? 34 then Some ([], r)
      else if code c =? 92 then
        match r with
        | [] => None
        | e :: r1 =>
            if code e =? 117 then
              match r1 with
              | h1 :: h2 :: h3 :: h4 :: r2 =>
                  a ← hexValue h1; b ← hexValue h2;
                  c ← hexValue h3; d ← hexValue h4;
                  let v := ((a * 16 + b) * 16 + c) * 16 + d in
                  if v <? 128 then
                    '(str, rest) ← parseString r2; Some (char v :: str, rest)
                  else None
              | _ => None
              end
            else
              ch ← unescape (code e);
              '(str, rest) ← parseString r1; Some (ch :: str, rest)
        end
      else if code c <? 32 then None
      else '(str, rest) ← parseString r; Some (c :: str, rest)
  end.

Definition printZ (n : Z) : list ascii := list_ascii_of_string (showZ n).

Definition isNumChar (c : ascii) : bool :=
  (code c =? 45) || ((48 <=? code c) && (code c <=? 57)).

Fixpoint spanNum (s : list ascii) : list ascii * list ascii :=
  match s with
  | c :: r =>
      if isNumChar c then let '(tok, rest) := spanNum r in (c :: tok, rest)
      else ([], s)
  | [] => ([], [])
  end.

Definition list_ascii_eqb (a b : list ascii) : bool :=
  String.eqb (string_of_list_ascii a) (string_of_list_ascii b).

(** An integer literal: the decimal digits without a leading zero, after an
    optional minus sign. *)
Definition parseNumber (s : list ascii) : option (Z * list ascii) :=
  let '(tok, rest) := spanNum s in
  i ← NilZero.int_of_string (string_of_list_ascii tok);
  let n := Z.of_int i in
  if list_ascii_eqb tok (printZ n) || list_ascii_eqb tok ["-"; "0"]%char
  then Some (n, rest)
  else None.

Fixpoint commaSep (l : list (list ascii)) : list ascii :=
  match l with
  | [] => []
  | [x] => x
  | x :: l' => x ++ ","%char :: commaSep l'
  end.

Fixpoint print (j : json) : list ascii :=
  match j with
  | JNull => ["n"; "u"; "l"; "l"]%char
  | JBool b => if b then ["t"; "r"; "u"; "e"]%char
               else ["f"; "a"; "l"; "s"; "e"]%char
  | JNum n => printZ n
  | JStr s => quote (list_ascii_of_string s)
  | JArr elems => "["%char :: commaSep (map print elems) ++ ["]"%char]
  | JObj props =>
      "{"%char ::
      commaSep (map (fun kv => quote (list_ascii_of_string (fst kv))
                               ++ ":"%char :: print (snd kv)) props)
      ++ ["}"%char]
  end.

Definition isWhiteSpace (c : ascii) : bool :=
  (code c =? 32) || (code c =? 9) || (code c =? 10) || (code c =? 13).

Fixpoint skipWs (s : list ascii) : list ascii :=
  match s with
  | c :: r => if isWhiteSpace c then skipWs r else s
  | [] => []
  end.

(** Drops the characters of a keyword. *)
Fixpoint expectWord (w s : list ascii) : option (list ascii) :=
  match w with
  | [] => Some s
  | c :: w' =>
      match s with
      | c' :: s' => if Ascii.eqb c c' then expectWord w' s' else None
      | [] => None
      end
  end.

(** Recursive descent; [fuel] bounds the nesting and the number of elements
    still to read, and the length of the text is always enough. *)
Fixpoint parseValue (fuel : nat) (s : list ascii) : option (json * list ascii) :=
  match fuel with
  | O => None
  | S f =>
      match skipWs s with
      | [] => None
      | c :: r =>
          if code c =? 110 then
            r' ← expectWord ["u"; "l"; "l"]%char r; Some (JNull, r')
          else if code c =? 116 then
            r' ← expectWord ["r"; "u"; "e"]%char r; Some (JBool true, r')
          else if code c =? 102 then
            r' ← expectWord ["a"; "l"; "s"; "e"]%char r; Some (JBool false, r')
          else if code c =? 34 then
            '(str, r') ← parseString r;
            Some (JStr (string_of_list_ascii str), r')
          else if code c =? 91 then
            match skipWs r with
            | [] => None
            | c2 :: r2 =>
                if code c2 =? 93 then Some (JArr [], r2)
                else '(elems, r') ← parseElements f r; Some (JArr elems, r')
            end
          else if code c =? 123 then
            match skipWs r with
            | [] => None
            | c2 :: r2 =>
                if code c2 =? 125 then Some (JObj [], r2)
                else '(props, r') ← parseMembers f r; Some (JObj props, r')
            end
          else
            '(n, r') ← parseNumber (c :: r); Some (JNum n, r')
      end
  end
with parseElements (fuel : nat) (s : list ascii)
    : option (list json * list ascii) :=
  match fuel with
  | O => None
  | S f =>
      '(v, r) ← parseValue f s;
      match skipWs r with
      | [] => None
      | c :: r1 =>
          if code c =? 44 then
            '(vs, r2) ← parseElements f r1; Some (v :: vs, r2)
          else if code c =? 93 then Some ([v], r1)
          else None
      end
  end
with parseMembers (fuel : nat) (s : list ascii)
    : option (list (string * json) * list ascii) :=
  match fuel with
  | O => None
  | S f =>
      match skipWs s with
      | [] => None
      | c :: r =>
          if code c =? 34 then
            '(k, r1) ← parseString r;
            match skipWs r1 with
            | [] => None
            | c1 :: r2 =>
                if code c1 =? 58 then
                  '(v, r3) ← parseValue f r2;
                  match skipWs r3 with
                  | [] => None
                  | c3 :: r4 =>
                      if code c3 =? 44 then
                        '(ms, r5) ← parseMembers f r4;
                        Some ((string_of_list_ascii k, v) :: ms, r5)
                      else if code c3 =? 125
                      then Some ([(string_of_list_ascii k, v)], r4)
                      else None
                  end
                else None
            end
          else None
      end
  end.

Definition stringify (j : json) : Completion string :=
  Normal (string_of_list_ascii (print j)).

Definition parse (text : string) : Completion json :=
  let s := list_ascii_of_string text in
  match parseValue (S (length s)) s with
  | Some (j, rest) =>
      match skipWs rest with
      | [] => Normal j
      | _ :: _ => Threw "SyntaxError: Unexpected non-whitespace character after JSON"
      end
  | None => Threw "SyntaxError: Unexpected token in JSON"
  end.
End JSON.

(** ** Reading a loaded object at the type [Enrollment] *)

Definition asString (v : option json) : option string :=
  match v with
  | Some (JStr s) => Some s
  | _ => None
  end.

Definition asNumber (v : option json) : option Z :=
  match v with
  | Some (JNum n) => Some n
  | _ => None
  end.

Definition dataOf (v : option PropertyValue) : option json :=
  match v with
  | Some (Data j) => Some j
  | _ => None
  end.

Definition propsOf (v : option json) : list (string * json) :=
  match v with
  | Some (JObj props) => props
  | _ => []
  end.

(** The record that the fields of an object spell; [None] when a required
    field is missing or has another type.  An optional field that is missing
    or has another type reads as [undefined]. *)
Definition fromObject (o : JSObject) : option Enrollment.t :=
  let field k := dataOf (getProp k o) in
  let campaign := propsOf (field "campaign"%string) in
  let file := propsOf (field "uploadedFile"%string) in
  let stats := propsOf (field "stats"%string) in
  i ← asString (field "id"%string);
  ci ← asString (getProp "id"%string campaign);
  cm ← asString (getProp "merchant"%string campaign);
  cd ← asString (getProp "discount"%string campaign);
  cr ← asString (getProp "reward"%string campaign);
  st ← asString (field "status"%string);
  d ← match getProp "enrolledAt"%string o with
      | Some (DateObject d) => Some d
      | _ => None
      end;
  Some {| Enrollment.id := i;
          Enrollment.campaign := Campaign.mk ci cm cd cr;
          Enrollment.status := st;
          Enrollment.enrolledAt := d;
          Enrollment.uploadedFile :=
            (n ← asString (getProp "name"%string file);
             sz ← asNumber (getProp "size"%string file);
             Some {| name := n; size := sz |});
          Enrollment.referralUrl := asString (field "referralUrl"%string);
          Enrollment.clicks := asNumber (field "clicks"%string);
          Enrollment.orders := asNumber (field "orders"%string);
          Enrollment.earnings := asNumber (field "earnings"%string);
          Enrollment.stats :=
            (c ← asNumber (getProp "clicks"%string stats);
             r ← asNumber (getProp "orders"%string stats);
             g ← asNumber (getProp "earnings"%string stats);
             Some (Stats.mk c r g));
          Enrollment.rejectionReason := asString (field "rejectionReason"%string) |}.

(** ** The outcomes of saving *)

(** The text that [saveEnrollmentsToStorage] hands to [setItem]. *)
Definition storedText (JSON_stringify : json -> Completion string)
    (enrollments : list Enrollment.t) : Completion string :=
  andThen (serialized enrollments) JSON_stringify.

(** The store takes the text under the enrollment key: access is allowed and
    the quota is not exceeded. *)
Definition accepts (b : Browser) (txt : string) : Prop :=
  storageAccess b = true /\
  (storageUsage (<[ENROLLMENTS_STORAGE_KEY := txt]> (localStorage b)) <= quota b)%nat.

(** The browser after a successful write of the text. *)
Definition written (b : Browser) (txt : string) : Browser :=
  {| localStorage := <[ENROLLMENTS_STORAGE_KEY := txt]> (localStorage b);
     quota := quota b; storageAccess := storageAccess b;
     console := console b |}.

(** The browser after a message of [console.error]. *)
Definition logged (b : Browser) (msg err : string) : Browser :=
  {| localStorage := localStorage b; quota := quota b;
     storageAccess := storageAccess b;
     console := console b ++ [(msg ++ " " ++ err)%string] |}.

(** ** Measures for the parser *)

(** The fuel that reading a value takes: one unit for the value and one for
    each element or member on the way. *)
Fixpoint jsonSize (j : json) : nat :=
  match j with
  | JArr elems => S (list_sum (map (fun x => S (jsonSize x)) elems))
  | JObj props => S (list_sum (map (fun kv => S (jsonSize (snd kv))) props))
  | _ => 1%nat
  end.

Definition sizeOfElements (l : list json) : nat :=
  list_sum (map (fun x => S (jsonSize x)) l).

Definition sizeOfMembers (l : list (string * json)) : nat :=
  list_sum (map (fun kv => S (jsonSize (snd kv))) l).

(** What may follow a number: the end of the text, or a character that is not
    part of a number. *)
Definition numTerminated (rest : list ascii) : Prop :=
  match rest with
  | [] => True
  | c :: _ => JSON.isNumChar c = false
  end.

(** A text that starts with the first character of a value. *)
Definition startsValue (s : list ascii) : Prop :=
  match s with
  | c :: _ =>
      JSON.isWhiteSpace c = false /\ (JSON.code c =? 93) = false
      /\ (JSON.code c =? 125) = false
  | [] => False
  end.

(** * What the spec says, as predicates on the embedding *)

(** The chain of the spec: enrolled → uploaded → processing → under-review →
    approved. *)
Definition pipeline : list EnrollmentStatus :=
  [enrolled; uploaded; processing; under_review; approved].

(** Every status of the list is one of the six. *)
Definition statusesClosed (s : State) : Prop :=
  Forall (fun e => isStatus (Enrollment.status e) = true) (enrollments s).

(** What an operation may do to a record: keep its id, and keep its status
    inside the closed set. *)
Definition keeps (a b : Enrollment.t) : Prop :=
  Enrollment.id b = Enrollment.id a /\
  (isStatus (Enrollment.status a) = true ->
   isStatus (Enrollment.status b) = true).

(** What the spec asks of a record that has just been approved: a non-empty
    referral URL, counters in range, and a [stats] record equal to them. *)
Definition approvedWithStats (e : Enrollment.t) : Prop :=
  Enrollment.status e = approved /\
  (exists url, Enrollment.referralUrl e = Some url /\ url <> EmptyString) /\
  exists c o g : Z,
    Enrollment.clicks e = Some c /\
    Enrollment.orders e = Some o /\
    Enrollment.earnings e = Some g /\
    Enrollment.stats e = Some (Stats.mk c o g) /\
    100 <= c <= 599 /\ 10 <= o <= 59 /\ 50 <= g <= 249.

(** Every draw of the oracle is a double in [0, 1), as [Math.random()]
    promises. *)
Definition unitInterval (rnd : Oracle) : Prop :=
  forall n, Double.isDouble (rnd n) /\ (0 <= rnd n)%Q /\ (rnd n < 1)%Q.

(** The order of the spec, top of the list first: approved > under-review >
    processing > uploaded > enrolled > rejected. *)
Definition displayOrder : list EnrollmentStatus :=
  [approved; under_review; processing; uploaded; enrolled; rejected].

(** [a] may stand above [b] in the displayed list: its status comes earlier in
    [displayOrder], or the statuses are the same and [a] was enrolled no
    earlier than [b]. *)
Definition displayedBefore (a b : Enrollment.t) : Prop :=
  exists (i j : nat) (ta tb : Z),
    displayOrder !! i = Some (Enrollment.status a) /\
    displayOrder !! j = Some (Enrollment.status b) /\
    getTime (Enrollment.enrolledAt a) = Some ta /\
    getTime (Enrollment.enrolledAt b) = Some tb /\
    ((i < j)%nat \/ (i = j /\ tb <= ta)).

(** A record whose status is one of the six and whose date is valid. *)
Definition wellFormed (e : Enrollment.t) : Prop :=
  isStatus (Enrollment.status e) = true /\
  isValidDate (Enrollment.enrolledAt e) = true.

(** The sort keys that the comparator reads. *)
Definition priorityOf (e : Enrollment.t) : Z :=
  default 0 (statusPriority !! Enrollment.status e).

Definition timeOf (e : Enrollment.t) : Z :=
  default 0 (getTime (Enrollment.enrolledAt e)).

(** * Sample data *)

(** A source of random numbers: the doubles written 0.3, 0.0, 0.7, 0.4,
    0.1, ... *)
Definition sampleOracle : Oracle :=
  fun n => Double.round (Z.of_nat ((7 * n + 3) mod 10) # 10).

Definition sampleCampaign : Campaign.t :=
  Campaign.mk "c-1" "Burger House" "20%" "QAR 5 per order".

Definition sampleFile : File :=
  {| file_name := "clip.mp4"; file_size := 1048576 |}.

(** An enrollment of the sample campaign, made at time [t], in status [st]. *)
Definition enrollmentAt (t : Z) (st : EnrollmentStatus) : Enrollment.t :=
  Enrollment.withStatus st (Update.newEnrollment t sampleCampaign).

(** An approved enrollment, as the hook leaves it, and a state that holds
    it. *)
Definition approvedEnrollment : Enrollment.t :=
  Enrollment.withApproval approved "https://snoonu.com/ref/c-1?c=1700000008000"
    120 15 60 (Update.newEnrollment 1700000000000 sampleCampaign).

Definition approvedState : State :=
  {| enrollments := [approvedEnrollment]; toast := None; timers := [];
     now := 1700000009000; draws := 3 |}.

(** The hook before any enrollment. *)
Definition initialState : State :=
  {| enrollments := []; toast := None; timers := [];
     now := 1700000000000; draws := 0 |}.

(** A session: enroll, upload, submit, reject one second later, then let both
    timers of the submission fire.  The pending timers are then the toast
    timers at positions 0, 1, 2 and 5 and the two timers of the submission at
    positions 3 and 4. *)
Definition rejectedSession : list Event :=
  [DoEnroll sampleCampaign;
   DoUpload "enrollment-1700000000000" sampleFile;
   DoSubmit "enrollment-1700000000000";
   Elapse 1000;
   DoReject "enrollment-1700000000000";
   Elapse 9000;
   Fire 3; Fire 3].

(** The state of [rejectedSession] when its timers are about to fire. *)
Definition rejectedBeforeTimers : State :=
  run sampleOracle initialState (take 6 rejectedSession).

(** A session that runs the whole pipeline through its timers. *)
Definition approvedSession : list Event :=
  [DoEnroll sampleCampaign;
   DoUpload "enrollment-1700000000000" sampleFile;
   DoSubmit "enrollment-1700000000000";
   Elapse 4000; Fire 3;
   Elapse 4000; Fire 3].

(** The state of [approvedSession] four seconds after the submission, with the
    first timer fired. *)
Definition underReviewState : State :=
  run sampleOracle initialState (take 5 approvedSession).

(** Four enrollments out of display order. *)
Definition unsortedList : list Enrollment.t :=
  [enrollmentAt 1700000000000 rejected;
   enrollmentAt 1700000001000 processing;
   enrollmentAt 1700000002000 approved;
   enrollmentAt 1700000003000 processing].

(** A client whose every query is answered with an error, and one whose every
    query rejects. *)
Definition erroringClient : Fetch.Client string :=
  fun _ => Normal {| Fetch.data := Null;
                     Fetch.error := NotNull "permission denied for schema" |}.

Definition rejectingClient : Fetch.Client string :=
  fun _ => Threw "TypeError: Failed to fetch".

Definition mountedTab : AnnouncementsTab.State :=
  {| AnnouncementsTab.campaignsList := [sampleCampaign];
     AnnouncementsTab.isLoading := true |}.

(** A browser with an empty store and room for five thousand characters, one
    whose store is full, one whose stored text is not JSON, and a list of two
    enrollments. *)
Definition emptyBrowser : Browser :=
  {| localStorage := ∅; quota := 5000; storageAccess := true; console := [] |}.

Definition fullBrowser : Browser :=
  {| localStorage := {[ "theme"%string := "dark"%string ]}; quota := 9;
     storageAccess := true; console := [] |}.

Definition corruptBrowser : Browser :=
  {| localStorage := {[ ENROLLMENTS_STORAGE_KEY := "[{oops"%string ]};
     quota := 5000; storageAccess := true; console := [] |}.

Definition sampleEnrollments : list Enrollment.t :=
  [approvedEnrollment; enrollmentAt 1700000003000 processing].

(** * The rest of the hook and of the components

    What follows embeds the code around the operations above:
    - [useCollaborators.ts]: [hideToast] and [enrollSampleCampaign];
    - [AnnouncementsTab.tsx]: [isEnrolled] and [handleEnroll];
    - [EnrollmentsTab.tsx]: [currentEnrollment] and the effect that flags
      the cards whose position has changed;
    - [AreaChart.tsx]: [createSmoothPath], the points of the two lines and
      the label indices.

    The handlers of the chart's tooltip and the second half of the position
    effect work on the document (element boxes, styles, animation frames) and
    are left out; so is [seedData], which only replaces two lists whose types
    are declared in [types.ts]. *)

From Stdlib Require Import Lqa.

(** ** [useCollaborators]: the toast, the sample enrollment *)

(** [hideToast]: the toast goes, its timer stays pending. *)
Definition hideToast (s : State) : State := setToast None s.

(** [campaigns.filter(c => !enrollments.some(e => e.campaign.id === c.id))] *)
Definition unenrolledCampaigns (campaigns : list Campaign.t)
    (es : list Enrollment.t) : list Campaign.t :=
  List.filter
    (fun c =>
       negb (existsb
               (fun e => String.eqb (Campaign.id (Enrollment.campaign e))
                                    (Campaign.id c)) es))
    campaigns.

(** [enrollSampleCampaign].  [campaigns] is a constant of [constants.ts],
    which is not part of the sources: it is an input.  The callback is made
    anew by every render whose [enrollments] differ, and filters on the list
    of that render, [rendered]; [enrollInCampaign] and [showToast] update the
    state that is current when the callback runs, [s]. *)
Definition enrollSampleCampaign (campaigns : list Campaign.t)
    (rendered : list Enrollment.t) (s : State) : State :=
  match unenrolledCampaigns campaigns rendered with
  | c :: _ => enrollInCampaign c s
  | [] => showToast "All campaigns already enrolled!" info s
  end.

(** A call of the callback of the render of [s], with no update pending. *)
Definition enrollSampleAfterRender (campaigns : list Campaign.t) (s : State)
    : State :=
  enrollSampleCampaign campaigns (enrollments s) s.

(** [isEnrolled] of [AnnouncementsTab]:
    [enrollments.some(e => e.campaign.id === campaignId)]. *)
Definition isEnrolled (es : list Enrollment.t) (campaignId : string) : bool :=
  existsb (fun e => String.eqb (Campaign.id (Enrollment.campaign e)) campaignId)
          es.

(** [handleEnroll] of [AnnouncementsTab], with the hook's [enrollInCampaign]
    as [onEnroll]. *)
Definition handleEnroll (selectedCampaign : option Campaign.t) (s : State)
    : State :=
  match selectedCampaign with
  | Some c => enrollInCampaign c s
  | None => s
  end.

(** ** What the operations keep of a record *)

(** The fields that identify a record. *)
Definition sameIdentity (a b : Enrollment.t) : Prop :=
  Enrollment.id b = Enrollment.id a /\
  Enrollment.campaign b = Enrollment.campaign a /\
  Enrollment.enrolledAt b = Enrollment.enrolledAt a.

(** Every optional field that is set in [a] is set in [b], and a rejection
    reason is kept or replaced by the text of [rejectEnrollment]. *)
Definition keepsData (a b : Enrollment.t) : Prop :=
  (is_Some (Enrollment.uploadedFile a) -> is_Some (Enrollment.uploadedFile b)) /\
  (is_Some (Enrollment.referralUrl a) -> is_Some (Enrollment.referralUrl b)) /\
  (is_Some (Enrollment.clicks a) -> is_Some (Enrollment.clicks b)) /\
  (is_Some (Enrollment.orders a) -> is_Some (Enrollment.orders b)) /\
  (is_Some (Enrollment.earnings a) -> is_Some (Enrollment.earnings b)) /\
  (is_Some (Enrollment.stats a) -> is_Some (Enrollment.stats b)) /\
  (forall r, Enrollment.rejectionReason a = Some r ->
             Enrollment.rejectionReason b = Some r \/
             Enrollment.rejectionReason b = Some Update.rejectionText).

(** A record that has never been approved: no referral URL, no statistics,
    and the three counters at zero. *)
Definition neverApproved (e : Enrollment.t) : Prop :=
  Enrollment.referralUrl e = None /\ Enrollment.stats e = None /\
  Enrollment.clicks e = Some 0 /\ Enrollment.orders e = Some 0 /\
  Enrollment.earnings e = Some 0.

(** The data that an approval writes: a referral URL, and counters in the
    ranges of the three approving operations, repeated in [stats]. *)
Definition hasApprovalData (e : Enrollment.t) : Prop :=
  exists (url : string) (c o g : Z),
    Enrollment.referralUrl e = Some url /\ url <> EmptyString /\
    Enrollment.clicks e = Some c /\ Enrollment.orders e = Some o /\
    Enrollment.earnings e = Some g /\
    Enrollment.stats e = Some (Stats.mk c o g) /\
    100 <= c <= 599 /\ 10 <= o <= 59 /\ 50 <= g <= 249.

(** The approval data are all absent, on a record that is not approved, or
    all present. *)
Definition approvalConsistent (e : Enrollment.t) : Prop :=
  (neverApproved e /\ Enrollment.status e <> approved) \/ hasApprovalData e.

(** The rejection reason is absent, on a record that is not rejected, or it
    is the fixed text. *)
Definition rejectionConsistent (e : Enrollment.t) : Prop :=
  (Enrollment.rejectionReason e = None /\ Enrollment.status e <> rejected) \/
  Enrollment.rejectionReason e = Some Update.rejectionText.

(** Every record of the list has a valid date. *)
Definition validDates (es : list Enrollment.t) : Prop :=
  Forall (fun e => isValidDate (Enrollment.enrolledAt e) = true) es.

(** ** What loading makes of a stored element *)

(** The conversion of [j] to a string meets an object that has an own
    property [toString]. *)
Fixpoint meetsOwnToString (j : json) : bool :=
  match j with
  | JObj props => hasOwn "toString" props
  | JArr elems => existsb meetsOwnToString elems
  | JNull | JBool _ | JNum _ | JStr _ => false
  end.

(** The elements of a stored array on which the callback of [parsed.map]
    throws: [null], and an element whose [enrolledAt] has no primitive. *)
Definition unreadable (j : json) : bool :=
  match j with
  | JNull => true
  | _ =>
      match getProp "enrolledAt" (ownProperties j) with
      | Some (Data v) => meetsOwnToString v
      | _ => false
      end
  end.

(** Every number of [j] is a safe integer, which [ToString] writes in
    decimal. *)
Fixpoint safeIntegers (j : json) : bool :=
  match j with
  | JNum n => Z.abs n <? 2 ^ 53
  | JArr elems => forallb safeIntegers elems
  | JObj props => forallb (fun kv => safeIntegers (snd kv)) props
  | JNull | JBool _ | JStr _ => true
  end.

(** The object that [loadEnrollmentsFromStorage] builds from an element [j]
    of the stored array: its [enrolledAt] is a [Date] object, the one that
    [new Date] makes from the stored property (an Invalid Date when the
    element has none), and every other property reads as in the element. *)
Definition revived (otherFormats : string -> option Z) (j : json)
    (o : JSObject) : Prop :=
  (exists d,
     newDateOf otherFormats (getProp "enrolledAt" (ownProperties j)) = Normal d /\
     getProp "enrolledAt" o = Some (DateObject d)) /\
  (getProp "enrolledAt" (ownProperties j) = None ->
   getProp "enrolledAt" o = Some (DateObject InvalidDate)) /\
  forall k : string,
    k <> "enrolledAt"%string -> getProp k o = getProp k (ownProperties j).

(** A record whose date is an Invalid Date (the clock reading is outside the
    range of time values), and a list that holds it. *)
Definition undatedEnrollment : Enrollment.t :=
  Update.newEnrollment (maxTime + 1) sampleCampaign.

Definition undatedList : list Enrollment.t :=
  [approvedEnrollment; undatedEnrollment].

(** Three records in status ['enrolled']: an older one, one with an Invalid
    Date, and a newer one. *)
Definition olderEnrollment : Enrollment.t := enrollmentAt 1000 enrolled.

Definition newerEnrollment : Enrollment.t := enrollmentAt 2000 enrolled.

Definition listAroundUndated : list Enrollment.t :=
  [olderEnrollment; undatedEnrollment; newerEnrollment].

(** Two records with a status that is none of the six, the older one
    first. *)
Definition archivedList : list Enrollment.t :=
  [enrollmentAt 1000 "archived"; enrollmentAt 2000 "archived"].

(** Two uploads of the same instant to different campaigns, around an approved
    record. *)
Definition sameInstantList : list Enrollment.t :=
  [Enrollment.withStatus uploaded
     (Update.newEnrollment 1700000000000
        (Campaign.mk "c-2" "Sushi Bar" "15%" "QAR 7 per order"));
   enrollmentAt 1700000001000 approved;
   Enrollment.withStatus uploaded
     (Update.newEnrollment 1700000000000 sampleCampaign)].

(** A stored array whose second element is [null], one whose second element
    has an [enrolledAt] that holds an object with an own [toString], and one
    whose element has no [enrolledAt]. *)
Definition storedWithNull : json :=
  JArr [JObj [("id"%string, JStr "enrollment-1")]; JNull].

Definition storedWithToString : json :=
  JArr [JObj [("id"%string, JStr "enrollment-1")];
        JObj [("id"%string, JStr "enrollment-2");
              ("enrolledAt"%string,
               JArr [JNum 2024; JObj [("toString"%string, JNum 1)]])]].

Definition storedWithoutDate : json :=
  JArr [JObj [("id"%string, JStr "enrollment-1");
              ("status"%string, JStr "enrolled")]].

(** A browser whose store holds the text of a JSON value under the enrollment
    key. *)
Definition browserHolding (j : json) : Browser :=
  {| localStorage :=
       {[ ENROLLMENTS_STORAGE_KEY :=
            string_of_list_ascii (JSON.print j) ]};
     quota := 5000; storageAccess := true; console := [] |}.

(** The hook after an enrollment and an upload: one record in status
    ['uploaded'], two toast timers pending. *)
Definition uploadedState : State :=
  run sampleOracle initialState (take 2 approvedSession).

(** Three campaigns with different ids, as [constants.ts] may hold them. *)
Definition sampleCampaigns : list Campaign.t :=
  [sampleCampaign;
   Campaign.mk "c-2" "Sushi Bar" "15%" "QAR 7 per order";
   Campaign.mk "c-3" "Tea Corner" "10%" "QAR 3 per order"].

(** ** [EnrollmentsTab]: the selected enrollment and the cards that move *)

(** [currentEnrollment]: the record of the current list that has the id of
    the selected one, or [null]. *)
Definition currentEnrollment (selectedEnrollment : option Enrollment.t)
    (es : list Enrollment.t) : option Enrollment.t :=
  match selectedEnrollment with
  | Some sel =>
      List.find (fun e => String.eqb (Enrollment.id e) (Enrollment.id sel))
                (sortedEnrollments es)
  | None => None
  end.

(** [sorted.forEach((enrollment, index) => m.set(enrollment.id, index))],
    with the indices counted from [index]. *)
Fixpoint setPositions (index : nat) (sorted : list Enrollment.t)
    (m : gmap string nat) : gmap string nat :=
  match sorted with
  | [] => m
  | e :: rest => setPositions (S index) rest (<[Enrollment.id e := index]> m)
  end.

(** One turn of the loop that fills [cardsToAnimate] and raises
    [hasPositionChange]. *)
Definition markMoved (prev new : gmap string nat)
    (acc : gmap string (nat * nat) * bool) (e : Enrollment.t)
    : gmap string (nat * nat) * bool :=
  match prev !! Enrollment.id e, new !! Enrollment.id e with
  | Some prevIndex, Some newIndex =>
      if negb (prevIndex =? newIndex)%nat
      then (<[Enrollment.id e := (prevIndex, newIndex)]> (fst acc), true)
      else acc
  | _, _ => acc
  end.

Definition cardsToAnimate (prev new : gmap string nat)
    (sorted : list Enrollment.t) : gmap string (nat * nat) * bool :=
  fold_left (markMoved prev new) sorted (∅, false).

(** What the position effect reads and writes: the ref [prevPositionsRef] and
    the state [animatingCardIds]. *)
Record Cards : Type := {
  prevPositions : gmap string nat;
  animatingCardIds : gset string
}.

(** The effect that runs when [sortedEnrollments] changes, up to the point
    where the animation is handed to the browser: the positions in the
    document, the styles of the cards and the timer that empties
    [animatingCardIds] when the transition is over are left out. *)
Definition positionEffect (sorted : list Enrollment.t) (st : Cards) : Cards :=
  if (base.size (prevPositions st) =? 0)%nat then
    {| prevPositions := setPositions 0 sorted (prevPositions st);
       animatingCardIds := animatingCardIds st |}
  else
    let newPositions := setPositions 0 sorted ∅ in
    let '(cards, hasPositionChange) :=
      cardsToAnimate (prevPositions st) newPositions sorted in
    {| prevPositions := newPositions;
       animatingCardIds :=
         if hasPositionChange && (0 <? base.size cards)%nat then dom cards
         else animatingCardIds st |}.

(** The card with id [i] stands at different positions in the two lists. *)
Definition moved (prevSorted sorted : list Enrollment.t) (i : string) : Prop :=
  exists (p n : nat) (e e' : Enrollment.t),
    prevSorted !! p = Some e /\ Enrollment.id e = i /\
    sorted !! n = Some e' /\ Enrollment.id e' = i /\ p <> n.

(** Two records have the same sort keys. *)
Definition sameKeys (st : EnrollmentStatus) (d : Date) (e : Enrollment.t)
    : bool :=
  String.eqb (Enrollment.status e) st &&
  match Enrollment.enrolledAt e, d with
  | ValidDate t, ValidDate t' => t =? t'
  | InvalidDate, InvalidDate => true
  | _, _ => false
  end.

(** The displayed list of [unsortedList], the displayed list after the
    approved enrollment has been rejected, and the position effect's state
    after the first of the two renders. *)
Definition shownBefore : list Enrollment.t := sortedEnrollments unsortedList.

Definition shownAfter : list Enrollment.t :=
  sortedEnrollments
    (Update.rejectEnrollment "enrollment-1700000002000" unsortedList).

Definition cardsBefore : Cards :=
  {| prevPositions := setPositions 0 shownBefore ∅; animatingCardIds := ∅ |}.

(** ** [AreaChart]: the smooth path *)

Module Path.
Section WithNumbers.
(** The numbers of the run time with their arithmetic, and the text that a
    template literal writes for a number: the path is built in the same way
    whatever they are. *)
Variable Number : Type.
Variables plus minus times : Number -> Number -> Number.
Variable tension : Number.
Variable show : Number -> string.

Record Point : Type := { x : Number; y : Number }.

Inductive Command : Type :=
| MoveTo (p : Point)
| CurveTo (cp1 cp2 p : Point).

(** [points[i]], [None] being [undefined]. *)
Definition item (points : list Point) (i : Z) : option Point :=
  if i <? 0 then None else points !! Z.to_nat i.

(** The body of the loop for index [i]; reading a coordinate of [undefined]
    throws, which is [None]. *)
Definition curveAt (points : list Point) (i : Z) : option Command :=
  let len := Z.of_nat (length points) in
  p0 ← item points (Z.max 0 (i - 1));
  p1 ← item points i;
  p2 ← item points (i + 1);
  p3 ← item points (Z.min (len - 1) (i + 2));
  Some (CurveTo
          {| x := plus (x p1) (times (minus (x p2) (x p0)) tension);
             y := plus (y p1) (times (minus (y p2) (y p0)) tension) |}
          {| x := minus (x p2) (times (minus (x p3) (x p1)) tension);
             y := minus (y p2) (times (minus (y p3) (y p1)) tension) |}
          p2).

(** [count] turns of the loop, from index [i]. *)
Fixpoint curvesFrom (count : nat) (points : list Point) (i : Z)
    : option (list Command) :=
  match count with
  | O => Some []
  | S count' =>
      c ← curveAt points i;
      cs ← curvesFrom count' points (i + 1);
      Some (c :: cs)
  end.

(** The commands of the path: none for fewer than two points, otherwise a
    move to the first point and one curve for every [i] with
    [0 <= i < points.length - 1]. *)
Definition pathCommands (points : list Point) : option (list Command) :=
  if (length points <? 2)%nat then Some []
  else
    p ← item points 0;
    cs ← curvesFrom (length points - 1) points 0;
    Some (MoveTo p :: cs).

(** The text of a command, as the template literals write it. *)
Definition writeCommand (c : Command) : string :=
  match c with
  | MoveTo p => "M " ++ show (x p) ++ " " ++ show (y p)
  | CurveTo cp1 cp2 p =>
      " C " ++ show (x cp1) ++ " " ++ show (y cp1) ++ ", "
      ++ show (x cp2) ++ " " ++ show (y cp2) ++ ", "
      ++ show (x p) ++ " " ++ show (y p)
  end.

Definition createSmoothPath (points : list Point) : option string :=
  cmds ← pathCommands points;
  Some (String.concat EmptyString (map writeCommand cmds)).
End WithNumbers.
End Path.

(** ** [AreaChart]: the points and the labels *)

Module AreaChart.
(** Modelled from the spec: [DailyDataPoint] is declared in [types.ts], which
    is missing; the chart reads a [date] and the two counts of a day. *)
Record DailyDataPoint : Type := { date : string; clicks : Z; orders : Z }.

Inductive DataKey : Type := Clicks | Orders.

(** [d[dataKey]] *)
Definition valueOf (dataKey : DataKey) (d : DailyDataPoint) : Z :=
  match dataKey with
  | Clicks => clicks d
  | Orders => orders d
  end.

Record Props : Type := {
  data : list DailyDataPoint;
  dataKey : DataKey;
  showSecondary : bool
}.

Definition values (p : Props) : list Z := map (valueOf (dataKey p)) (data p).

Definition secondaryValues (p : Props) : list Z := map orders (data p).

Definition allValues (p : Props) : list Z :=
  if showSecondary p then values p ++ secondaryValues p else values p.

(** [Math.max(...allValues, 1)] *)
Definition max (p : Props) : Z := fold_right Z.max 1 (allValues p).

Definition min : Z := 0.

(** [max - min || 1] *)
Definition range (p : Props) : Z :=
  if max p - min =? 0 then 1 else max p - min.

Definition paddingTop : Q := 15.
Definition paddingRight : Q := 5.
Definition paddingBottom : Q := 25.
Definition paddingLeft : Q := 25.
Definition chartWidth : Q := 200.
Definition chartHeight : Q := 80.

(** A point of the chart.  The coordinates are exact rationals: the rounding
    of the floating-point operations is not modelled. *)
Record ChartPoint : Type := { x : Q; y : Q; value : Z }.

(** The callback of [values.map((value, index) => ...)], for [length]
    values. *)
Definition toPoint (length : nat) (range : Z) (index : nat) (value : Z)
    : ChartPoint :=
  {| x := paddingLeft
          + (inject_Z (Z.of_nat index)
             / inject_Z (Z.max (Z.of_nat length - 1) 1))
            * (chartWidth - paddingLeft - paddingRight);
     y := paddingTop
          + (1 - inject_Z (value - min) / inject_Z range)
            * (chartHeight - paddingTop - paddingBottom);
     value := value |}.

Fixpoint mapIndexed {A B} (f : nat -> A -> B) (index : nat) (l : list A)
    : list B :=
  match l with
  | [] => []
  | a :: l' => f index a :: mapIndexed f (S index) l'
  end.

Definition points (p : Props) : list ChartPoint :=
  mapIndexed (toPoint (length (values p)) (range p)) 0 (values p).

Definition secondaryPoints (p : Props) : list ChartPoint :=
  mapIndexed (toPoint (length (secondaryValues p)) (range p)) 0
             (secondaryValues p).

Definition labelCount : Z := 6.

(** [labelIndices] for [n] data points: every index when there are at most
    six, otherwise six indices spread over the data.  The quotient of
    [Math.floor(i * (n - 1) / 5)] is the integer quotient, which is what the
    floating-point division followed by [Math.floor] gives for integers of
    this size. *)
Definition labelIndices (n : nat) : list Z :=
  if Z.of_nat n <=? labelCount then map Z.of_nat (seq 0 n)
  else
    map (fun i => Z.of_nat i * (Z.of_nat n - 1) / (labelCount - 1))
        (seq 0 (Z.to_nat labelCount)).

(** A point lies in the plot area of the chart. *)
Definition insidePlot (pt : ChartPoint) : Prop :=
  (paddingLeft <= x pt)%Q /\ (x pt <= chartWidth - paddingRight)%Q /\
  (paddingTop <= y pt)%Q /\ (y pt <= chartHeight - paddingBottom)%Q.

(** A week of data: clicks and orders of seven days. *)
Definition sampleWeek : Props :=
  {| data := [ {| date := "Mon"; clicks := 12; orders := 3 |};
               {| date := "Tue"; clicks := 30; orders := 7 |};
               {| date := "Wed"; clicks := 0; orders := 0 |};
               {| date := "Thu"; clicks := 45; orders := 9 |};
               {| date := "Fri"; clicks := 28; orders := 4 |};
               {| date := "Sat"; clicks := 51; orders := 12 |};
               {| date := "Sun"; clicks := 19; orders := 2 |} ];
     dataKey := Clicks;
     showSecondary := true |}.
End AreaChart.

(** * Theorems *)

(** ** Lists and random updaters *)

Lemma lookup_map {A B} (f : A -> B) (l : list A) (k : nat) :
  map f l !! k = f <$> (l !! k).
Proof.
  revert k; induction l as [|a l IH]; intros [|k]; simpl; auto.
Qed.

(** The element at position [k] of a random map is the image of the element at
    position [k], at the cursor reached there. *)
Lemma mapRand_lookup {A B} (f : A -> Rand B) (l : list A) (n k : nat) (a : A) :
  l !! k = Some a ->
  exists m, fst (mapRand f l n) !! k = Some (fst (f a m)).
Proof.
  revert n k; induction l as [|x l IH]; intros n k Hk; [destruct k; discriminate|].
  simpl. unfold bind.
  destruct (f x n) as [b n1] eqn:Ef.
  destruct (mapRand f l n1) as [bs n2] eqn:Em.
  destruct k as [|k]; simpl in *.
  - inversion Hk; subst. exists n. now rewrite Ef.
  - destruct (IH n1 k Hk) as [m Hm]. exists m. now rewrite Em in Hm.
Qed.

Lemma mapRand_Forall2 {A B} (R : A -> B -> Prop) (f : A -> Rand B) :
  (forall a m, R a (fst (f a m))) ->
  forall l n, Forall2 R l (fst (mapRand f l n)).
Proof.
  intros Hf; induction l as [|x l IH]; intros n; simpl.
  - constructor.
  - unfold bind. specialize (Hf x n).
    destruct (f x n) as [b n1]. specialize (IH n1).
    destruct (mapRand f l n1) as [bs n2]. simpl in *. constructor; auto.
Qed.

Lemma map_Forall2 {A B} (R : A -> B -> Prop) (f : A -> B) :
  (forall a, R a (f a)) -> forall l, Forall2 R l (map f l).
Proof. intros Hf; induction l; simpl; constructor; auto. Qed.

(** ** Statuses *)

Lemma isStatus_spec (s : EnrollmentStatus) :
  isStatus s = true <-> In s allStatuses.
Proof.
  unfold isStatus. rewrite existsb_exists. split.
  - intros (x & Hx & Heq). apply String.eqb_eq in Heq. now subst.
  - intros H. exists s. split; [assumption | apply String.eqb_refl].
Qed.

Lemma isTerminalState_spec (s : EnrollmentStatus) :
  isTerminalState s = true <-> s = approved \/ s = rejected.
Proof.
  unfold isTerminalState. rewrite orb_true_iff, !String.eqb_eq. tauto.
Qed.

Lemma nextEnrollmentState_isStatus (s n : EnrollmentStatus) :
  nextEnrollmentState s = Some n -> isStatus n = true.
Proof.
  unfold nextEnrollmentState.
  repeat (match goal with |- context [if ?c then _ else _] => destruct c end);
    intros H; inversion H; reflexivity.
Qed.

(** ** What each operation does to the element at a position *)

Section Pointwise.
Import Enrollment.
Variable rnd : Oracle.
Variables (l : list Enrollment.t) (k : nat) (e : Enrollment.t).
Hypothesis Hk : l !! k = Some e.

Lemma uploadFile_at i f :
  Update.uploadFile i f l !! k =
  Some (if String.eqb (id e) i
        then withUpload {| name := file_name f; size := file_size f |} uploaded e
        else e).
Proof using Hk. unfold Update.uploadFile. now rewrite lookup_map, Hk. Qed.

Lemma submitForReview_at i :
  Update.submitForReview i l !! k =
  Some (if String.eqb (id e) i then withStatus processing e else e).
Proof using Hk. unfold Update.submitForReview. now rewrite lookup_map, Hk. Qed.

Lemma rejectEnrollment_at i :
  Update.rejectEnrollment i l !! k =
  Some (if String.eqb (id e) i
        then withRejection rejected Update.rejectionText e else e).
Proof using Hk. unfold Update.rejectEnrollment. now rewrite lookup_map, Hk. Qed.

Lemma toUnderReview_at i :
  Update.toUnderReview i l !! k =
  Some (if String.eqb (id e) i && String.eqb (status e) processing
        then withStatus under_review e else e).
Proof using Hk. unfold Update.toUnderReview. now rewrite lookup_map, Hk. Qed.

(** The second timer rewrites the element only under its guard. *)
Lemma toApproved_at now i n :
  exists m,
    fst (Update.toApproved rnd now i l n) !! k =
    Some (if negb (String.eqb (id e) i)
             || negb (String.eqb (status e) under_review)
          then e
          else withApproval approved (Update.referralUrlFor now e)
                 (fst (randomInt rnd 400 100 m))
                 (fst (randomInt rnd 40 10 (S m)))
                 (fst (randomInt rnd 150 50 (S (S m)))) e).
Proof using Hk.
  unfold Update.toApproved.
  match goal with |- context [mapRand ?f l n] =>
    destruct (mapRand_lookup f l n k e Hk) as [m Hm] end.
  exists m. rewrite Hm. f_equal.
  destruct (negb (String.eqb (id e) i)
            || negb (String.eqb (status e) under_review)); reflexivity.
Qed.

Lemma advanceToApproved_at now i n :
  exists m,
    fst (Update.advanceToApproved rnd now i l n) !! k =
    Some (if negb (String.eqb (id e) i) then e
          else withApproval approved (Update.referralUrlFor now e)
                 (fst (randomInt rnd 500 100 m))
                 (fst (randomInt rnd 50 10 (S m)))
                 (fst (randomInt rnd 200 50 (S (S m)))) e).
Proof using Hk.
  unfold Update.advanceToApproved.
  match goal with |- context [mapRand ?f l n] =>
    destruct (mapRand_lookup f l n k e Hk) as [m Hm] end.
  exists m. rewrite Hm. f_equal.
  destruct (negb (String.eqb (id e) i)); reflexivity.
Qed.

Lemma advanceEnrollment_at now i n :
  exists m,
    fst (Update.advanceEnrollment rnd now i l n) !! k =
    Some (if negb (String.eqb (id e) i) || isTerminalState (status e) then e
          else match nextEnrollmentState (status e) with
               | None => e
               | Some nextStatus =>
                   if String.eqb nextStatus EmptyString then e
                   else if String.eqb nextStatus approved
                   then withApproval nextStatus (Update.referralUrlFor now e)
                          (fst (randomInt rnd 400 100 m))
                          (fst (randomInt rnd 40 10 (S m)))
                          (fst (randomInt rnd 150 50 (S (S m))))
                          (withStatus nextStatus e)
                   else withStatus nextStatus e
               end).
Proof using Hk.
  unfold Update.advanceEnrollment.
  match goal with |- context [mapRand ?f l n] =>
    destruct (mapRand_lookup f l n k e Hk) as [m Hm] end.
  exists m. rewrite Hm. f_equal.
  destruct (negb (String.eqb (id e) i) || isTerminalState (status e));
    [reflexivity|].
  destruct (nextEnrollmentState (status e)) as [nx|]; [|reflexivity].
  destruct (String.eqb nx EmptyString); [reflexivity|].
  destruct (String.eqb nx approved); reflexivity.
Qed.
End Pointwise.

(** ** The enrollment list after each operation of the hook *)

Lemma enrollments_setEnrollmentsRand f s :
  enrollments (setEnrollmentsRand f s) = fst (f (enrollments s) (draws s)).
Proof. unfold setEnrollmentsRand. now destruct (f (enrollments s) (draws s)). Qed.

Lemma enrollments_advanceEnrollment rnd i s :
  enrollments (advanceEnrollment rnd i s) =
  fst (Update.advanceEnrollment rnd (now s) i (enrollments s) (draws s)).
Proof. apply enrollments_setEnrollmentsRand. Qed.

Lemma enrollments_advanceToApproved rnd i s :
  enrollments (advanceToApproved rnd i s) =
  fst (Update.advanceToApproved rnd (now s) i (enrollments s) (draws s)).
Proof.
  unfold advanceToApproved, showToast, setTimeout, setToast; simpl.
  apply enrollments_setEnrollmentsRand.
Qed.

Lemma enrollments_runCallback rnd cb s :
  enrollments (runCallback rnd cb s) =
  match cb with
  | ClearToast => enrollments s
  | ToUnderReview i => Update.toUnderReview i (enrollments s)
  | ToApproved i =>
      fst (Update.toApproved rnd (now s) i (enrollments s) (draws s))
  end.
Proof.
  destruct cb; simpl; try reflexivity. apply enrollments_setEnrollmentsRand.
Qed.

(** A firing timer either does nothing to the list or runs its callback on
    it. *)
Lemma enrollments_fire rnd j s :
  enrollments (fire rnd j s) = enrollments s \/
  exists cb, enrollments (fire rnd j s) = enrollments (runCallback rnd cb s).
Proof.
  unfold fire. destruct (nth_error (timers s) j) as [t|]; [|now left].
  destruct (due t <=? now s); [|now left].
  right. exists (callback t). rewrite !enrollments_runCallback.
  destruct (callback t); reflexivity.
Qed.

(** ** The sample sessions *)

(** Enrolling, uploading, submitting and letting both timers fire ends with an
    approved enrollment whose counters come from the first three draws 0.3,
    0.0 and 0.7 of the sample oracle. *)
Example approvedSession_result :
  map (fun e => (Enrollment.status e, Enrollment.clicks e, Enrollment.orders e,
                 Enrollment.earnings e, Enrollment.referralUrl e))
      (enrollments (run sampleOracle initialState approvedSession))
  = [(approved, Some 220, Some 10, Some 155,
      Some "https://snoonu.com/ref/c-1?c=1700000008000"%string)].
Proof. reflexivity. Qed.

(** A timer does not fire before it is due. *)
Example timer_not_due :
  enrollments (fire sampleOracle 3
                 (run sampleOracle initialState (take 3 approvedSession)))
  = enrollments (run sampleOracle initialState (take 3 approvedSession)).
Proof. reflexivity. Qed.

(** ** C1: terminal states *)

(** C1, as stated, fails: [uploadFile] has no guard on the current status, so
    uploading for an approved enrollment moves it from the terminal status
    ['approved'] to ['uploaded']. *)
Lemma upload_leaves_terminal_state :
  map Enrollment.id (enrollments approvedState) = ["enrollment-1700000000000"%string] /\
  map Enrollment.status (enrollments approvedState) = [approved] /\
  isTerminalState approved = true /\
  map Enrollment.status
      (enrollments (uploadFile "enrollment-1700000000000" sampleFile approvedState))
  = [uploaded] /\
  uploaded <> approved.
Proof. repeat split; try reflexivity. discriminate. Qed.

(** C1 (amended).  For an enrollment whose status is ['approved'] or
    ['rejected']: [advanceEnrollment] and every firing timer (the two delayed
    callbacks of [submitForReview] among them) leave the whole record
    unchanged; [rejectEnrollment] leaves a rejected status rejected and
    [advanceToApproved] leaves an approved status approved; and an operation
    called with another enrollment's id leaves the record unchanged. *)
Theorem terminal_states_guarded (rnd : Oracle) (s : State) (k : nat)
    (e : Enrollment.t) :
  enrollments s !! k = Some e ->
  isTerminalState (Enrollment.status e) = true ->
  (forall i, enrollments (advanceEnrollment rnd i s) !! k = Some e) /\
  (forall i, enrollments (runCallback rnd (ToUnderReview i) s) !! k = Some e) /\
  (forall i, enrollments (runCallback rnd (ToApproved i) s) !! k = Some e) /\
  (forall j, enrollments (fire rnd j s) !! k = Some e) /\
  (Enrollment.status e = rejected -> forall i,
     Enrollment.status <$> (enrollments (rejectEnrollment i s) !! k)
     = Some rejected) /\
  (Enrollment.status e = approved -> forall i,
     Enrollment.status <$> (enrollments (advanceToApproved rnd i s) !! k)
     = Some approved) /\
  (forall i f, i <> Enrollment.id e ->
     enrollments (uploadFile i f s) !! k = Some e /\
     enrollments (submitForReview i s) !! k = Some e /\
     enrollments (advanceToApproved rnd i s) !! k = Some e /\
     enrollments (rejectEnrollment i s) !! k = Some e).
Proof.
  intros Hk Ht.
  assert (Hnp : String.eqb (Enrollment.status e) processing = false).
  { apply isTerminalState_spec in Ht as [-> | ->]; reflexivity. }
  assert (Hnu : String.eqb (Enrollment.status e) under_review = false).
  { apply isTerminalState_spec in Ht as [-> | ->]; reflexivity. }
  assert (H1 : forall i, enrollments (runCallback rnd (ToUnderReview i) s) !! k
                         = Some e).
  { intros i. rewrite enrollments_runCallback, (toUnderReview_at _ _ _ Hk).
    now rewrite Hnp, andb_false_r. }
  assert (H2 : forall i, enrollments (runCallback rnd (ToApproved i) s) !! k
                         = Some e).
  { intros i. rewrite enrollments_runCallback.
    destruct (toApproved_at rnd _ _ _ Hk (now s) i (draws s)) as [m ->].
    now rewrite Hnu, orb_true_r. }
  repeat split.
  - intros i. rewrite enrollments_advanceEnrollment.
    destruct (advanceEnrollment_at rnd _ _ _ Hk (now s) i (draws s)) as [m ->].
    now rewrite Ht, orb_true_r.
  - exact H1.
  - exact H2.
  - intros j. destruct (enrollments_fire rnd j s) as [-> | [cb ->]]; [exact Hk|].
    destruct cb; [exact Hk | apply H1 | apply H2].
  - intros Hr i. unfold rejectEnrollment; simpl.
    rewrite (rejectEnrollment_at _ _ _ Hk).
    destruct (String.eqb (Enrollment.id e) i); simpl; congruence.
  - intros Ha i. rewrite enrollments_advanceToApproved.
    destruct (advanceToApproved_at rnd _ _ _ Hk (now s) i (draws s)) as [m ->].
    destruct (negb (String.eqb (Enrollment.id e) i)); simpl; congruence.
  - unfold uploadFile; simpl. rewrite (uploadFile_at _ _ _ Hk).
    destruct (String.eqb_spec (Enrollment.id e) i); congruence.
  - unfold submitForReview; simpl. rewrite (submitForReview_at _ _ _ Hk).
    destruct (String.eqb_spec (Enrollment.id e) i); congruence.
  - rewrite enrollments_advanceToApproved.
    destruct (advanceToApproved_at rnd _ _ _ Hk (now s) i (draws s)) as [m ->].
    destruct (String.eqb_spec (Enrollment.id e) i); simpl; congruence.
  - unfold rejectEnrollment; simpl. rewrite (rejectEnrollment_at _ _ _ Hk).
    destruct (String.eqb_spec (Enrollment.id e) i); congruence.
Qed.

Lemma terminal_states_guarded_witness :
  (enrollments approvedState !! 0%nat = Some approvedEnrollment /\
   isTerminalState (Enrollment.status approvedEnrollment) = true) /\
  (forall i, enrollments (advanceEnrollment sampleOracle i approvedState) !! 0%nat
             = Some approvedEnrollment) /\
  (forall j, enrollments (fire sampleOracle j approvedState) !! 0%nat
             = Some approvedEnrollment).
Proof.
  split; [split; reflexivity|].
  pose proof (terminal_states_guarded sampleOracle approvedState 0
                approvedEnrollment eq_refl eq_refl) as H.
  split; [apply H | apply H].
Defined.

(** ** C2: the linear pipeline *)

(** C2.  [advanceEnrollment] called with the id of an enrollment whose status
    is at position [j] of the chain, [j < 4], moves that status to position
    [j + 1]; an enrollment in a terminal status is left unchanged. *)
Theorem advance_moves_one_step (rnd : Oracle) (s : State) (k : nat)
    (e : Enrollment.t) :
  enrollments s !! k = Some e ->
  (forall (j : nat) (next : EnrollmentStatus),
     pipeline !! j = Some (Enrollment.status e) ->
     pipeline !! S j = Some next ->
     Enrollment.status <$>
       (enrollments (advanceEnrollment rnd (Enrollment.id e) s) !! k)
     = Some next) /\
  (isTerminalState (Enrollment.status e) = true ->
   forall i, enrollments (advanceEnrollment rnd i s) !! k = Some e).
Proof.
  intros Hk. split.
  - intros j next Hj Hn.
    rewrite enrollments_advanceEnrollment.
    destruct (advanceEnrollment_at rnd _ _ _ Hk (now s) (Enrollment.id e)
                (draws s)) as [m ->].
    rewrite String.eqb_refl. simpl negb. rewrite orb_false_l.
    destruct j as [|[|[|[|j]]]]; simpl in Hj, Hn; try discriminate;
      injection Hj as Hs; injection Hn as <-; rewrite <- Hs; reflexivity.
  - intros Ht i. rewrite enrollments_advanceEnrollment.
    destruct (advanceEnrollment_at rnd _ _ _ Hk (now s) i (draws s)) as [m ->].
    now rewrite Ht, orb_true_r.
Qed.

Lemma advance_moves_one_step_witness :
  enrollments (enrollInCampaign sampleCampaign initialState) !! 0%nat
    = Some (Update.newEnrollment 1700000000000 sampleCampaign) /\
  Enrollment.status <$>
    (enrollments
       (advanceEnrollment sampleOracle "enrollment-1700000000000"
          (enrollInCampaign sampleCampaign initialState)) !! 0%nat)
  = Some uploaded.
Proof.
  split; [reflexivity|].
  exact (proj1 (advance_moves_one_step sampleOracle
                  (enrollInCampaign sampleCampaign initialState) 0
                  (Update.newEnrollment 1700000000000 sampleCampaign) eq_refl)
               0%nat uploaded eq_refl eq_refl).
Defined.

(** ** C6 and C7: what every step preserves *)

Lemma keeps_refl a : keeps a a.
Proof. split; auto. Qed.

Lemma keeps_withStatus s a :
  isStatus s = true -> keeps a (Enrollment.withStatus s a).
Proof. split; auto. Qed.

Create HintDb hook.
#[local] Hint Resolve keeps_refl keeps_withStatus : hook.

Lemma uploadFile_keeps i f l : Forall2 keeps l (Update.uploadFile i f l).
Proof.
  apply map_Forall2. intros a.
  destruct (String.eqb (Enrollment.id a) i); [split; auto | auto with hook].
Qed.

Lemma submitForReview_keeps i l : Forall2 keeps l (Update.submitForReview i l).
Proof.
  apply map_Forall2. intros a.
  destruct (String.eqb (Enrollment.id a) i); auto with hook.
Qed.

Lemma rejectEnrollment_keeps i l : Forall2 keeps l (Update.rejectEnrollment i l).
Proof.
  apply map_Forall2. intros a.
  destruct (String.eqb (Enrollment.id a) i); [split; auto | auto with hook].
Qed.

Lemma toUnderReview_keeps i l : Forall2 keeps l (Update.toUnderReview i l).
Proof.
  apply map_Forall2. intros a.
  destruct (String.eqb (Enrollment.id a) i
            && String.eqb (Enrollment.status a) processing); auto with hook.
Qed.

Lemma toApproved_keeps rnd t i l n :
  Forall2 keeps l (fst (Update.toApproved rnd t i l n)).
Proof.
  apply mapRand_Forall2. intros a m.
  destruct (negb (String.eqb (Enrollment.id a) i)
            || negb (String.eqb (Enrollment.status a) under_review));
    [apply keeps_refl | split; auto].
Qed.

Lemma advanceToApproved_keeps rnd t i l n :
  Forall2 keeps l (fst (Update.advanceToApproved rnd t i l n)).
Proof.
  apply mapRand_Forall2. intros a m.
  destruct (negb (String.eqb (Enrollment.id a) i));
    [apply keeps_refl | split; auto].
Qed.

Lemma advanceEnrollment_keeps rnd t i l n :
  Forall2 keeps l (fst (Update.advanceEnrollment rnd t i l n)).
Proof.
  apply mapRand_Forall2. intros a m.
  destruct (negb (String.eqb (Enrollment.id a) i)
            || isTerminalState (Enrollment.status a)); [apply keeps_refl|].
  destruct (nextEnrollmentState (Enrollment.status a)) as [nx|] eqn:En;
    [|apply keeps_refl].
  apply nextEnrollmentState_isStatus in En.
  destruct (String.eqb nx EmptyString); [apply keeps_refl|].
  destruct (String.eqb nx approved); split; auto.
Qed.

Lemma Forall2_keeps_refl l : Forall2 keeps l l.
Proof. induction l; constructor; auto using keeps_refl. Qed.

(** Every step keeps the records it finds, in place, and appends at most the
    record of a new enrollment. *)
Lemma step_keeps rnd s ev :
  exists kept added,
    enrollments (step rnd s ev) = kept ++ added /\
    Forall2 keeps (enrollments s) kept /\
    Forall (fun e => Enrollment.status e = enrolled) added.
Proof.
  assert (Hsame : forall l',
    Forall2 keeps (enrollments s) l' ->
    exists kept added,
      l' = kept ++ added /\ Forall2 keeps (enrollments s) kept /\
      Forall (fun e => Enrollment.status e = enrolled) added).
  { intros l' H. exists l', []. rewrite app_nil_r. auto. }
  destruct ev; cbn [step].
  - exists (enrollments s), [Update.newEnrollment (now s) c].
    repeat split; auto using Forall2_keeps_refl.
  - apply Hsame, uploadFile_keeps.
  - apply Hsame, submitForReview_keeps.
  - apply Hsame. rewrite enrollments_advanceEnrollment.
    apply advanceEnrollment_keeps.
  - apply Hsame. rewrite enrollments_advanceToApproved.
    apply advanceToApproved_keeps.
  - apply Hsame, rejectEnrollment_keeps.
  - apply Hsame, Forall2_keeps_refl.
  - apply Hsame.
    destruct (enrollments_fire rnd k s) as [-> | [cb ->]];
      [apply Forall2_keeps_refl|].
    rewrite enrollments_runCallback. destruct cb;
      [apply Forall2_keeps_refl | apply toUnderReview_keeps
      | apply toApproved_keeps].
Qed.

Lemma keeps_ids l l' :
  Forall2 keeps l l' -> map Enrollment.id l' = map Enrollment.id l.
Proof.
  induction 1 as [|a b l l' [Hid _] _ IH]; simpl; [reflexivity|].
  now rewrite Hid, IH.
Qed.

Lemma keeps_closed l l' :
  Forall2 keeps l l' ->
  Forall (fun e => isStatus (Enrollment.status e) = true) l ->
  Forall (fun e => isStatus (Enrollment.status e) = true) l'.
Proof.
  induction 1 as [|a b l l' [_ Hst] _ IH]; intros Hl; [constructor|].
  inversion Hl; subst. constructor; auto.
Qed.

Lemma step_closed rnd s ev :
  statusesClosed s -> statusesClosed (step rnd s ev).
Proof.
  unfold statusesClosed. intros Hs.
  destruct (step_keeps rnd s ev) as (kept & added & -> & Hk & Ha).
  apply Forall_app. split.
  - eapply keeps_closed; eauto.
  - eapply Forall_impl; [exact Ha|]. simpl. intros e ->. reflexivity.
Qed.

Lemma step_ids rnd s ev :
  exists added,
    map Enrollment.id (enrollments (step rnd s ev)) =
    map Enrollment.id (enrollments s) ++ added.
Proof.
  destruct (step_keeps rnd s ev) as (kept & added & -> & Hk & _).
  exists (map Enrollment.id added).
  now rewrite map_app, (keeps_ids _ _ Hk).
Qed.

(** C6.  Closed status set: from a state whose statuses all belong to
    {enrolled, uploaded, processing, under-review, approved, rejected}, every
    sequence of operations, clock advances and timer firings leads to a state
    whose statuses all belong to that set. *)
Theorem statuses_stay_closed (rnd : Oracle) (evs : list Event) (s : State) :
  statusesClosed s -> statusesClosed (run rnd s evs).
Proof.
  unfold run. revert s. induction evs as [|ev evs IH]; intros s Hs; simpl.
  - exact Hs.
  - apply IH, step_closed, Hs.
Qed.

Lemma statuses_stay_closed_witness :
  statusesClosed approvedState /\
  statusesClosed (run sampleOracle approvedState rejectedSession).
Proof.
  assert (H : statusesClosed approvedState).
  { repeat constructor. }
  split; [exact H|].
  exact (statuses_stay_closed sampleOracle rejectedSession approvedState H).
Defined.

(** C7.  Enrollment creation: [enrollInCampaign] appends exactly one record,
    with status ['enrolled'], the given campaign and zero clicks, orders and
    earnings, after the previous records, which it leaves as they were; and no
    sequence of operations and timer firings removes a record: the ids of the
    earlier list stay, in order, at the front of the later one. *)
Theorem enrollment_creation :
  (forall (c : Campaign.t) (s : State),
     exists e : Enrollment.t,
       enrollments (enrollInCampaign c s) = enrollments s ++ [e] /\
       Enrollment.status e = enrolled /\
       Enrollment.campaign e = c /\
       Enrollment.clicks e = Some 0 /\
       Enrollment.orders e = Some 0 /\
       Enrollment.earnings e = Some 0) /\
  (forall (rnd : Oracle) (evs : list Event) (s : State),
     exists added : list string,
       map Enrollment.id (enrollments (run rnd s evs)) =
       map Enrollment.id (enrollments s) ++ added).
Proof.
  split.
  - intros c s. exists (Update.newEnrollment (now s) c). repeat split.
  - intros rnd evs. unfold run.
    induction evs as [|ev evs IH]; intros s; simpl.
    + exists []. now rewrite app_nil_r.
    + destruct (IH (step rnd s ev)) as [a2 H2].
      destruct (step_ids rnd s ev) as [a1 H1].
      exists (a1 ++ a2). now rewrite H2, H1, app_assoc.
Qed.

(** ** C8: the guards of the delayed callbacks *)

(** C8.  [submitForReview] schedules, after its toast timer, the under-review
    callback at 4000 ms and the approval callback at 8000 ms.  When one of them
    fires, a record is rewritten only if it has the submitted id and is still
    in the expected source state (['processing'] for the first,
    ['under-review'] for the second); a record that is in neither state, for
    instance one rejected in the meantime, is left unchanged by every firing
    timer. *)
Theorem stale_timers_guarded (rnd : Oracle) (s : State) (k : nat)
    (e : Enrollment.t) (i : string) :
  enrollments s !! k = Some e ->
  timers (submitForReview i s) =
    timers s ++ [ {| due := now s + 3000; callback := ClearToast |};
                  {| due := now s + 4000; callback := ToUnderReview i |};
                  {| due := now s + 8000; callback := ToApproved i |} ] /\
  (Enrollment.status e <> processing \/ Enrollment.id e <> i ->
   enrollments (runCallback rnd (ToUnderReview i) s) !! k = Some e) /\
  (Enrollment.status e <> under_review \/ Enrollment.id e <> i ->
   enrollments (runCallback rnd (ToApproved i) s) !! k = Some e) /\
  (Enrollment.status e <> processing ->
   Enrollment.status e <> under_review ->
   forall j, enrollments (fire rnd j s) !! k = Some e).
Proof.
  intros Hk.
  assert (H1 : forall i', Enrollment.status e <> processing \/ Enrollment.id e <> i' ->
     enrollments (runCallback rnd (ToUnderReview i') s) !! k = Some e).
  { intros i' H. rewrite enrollments_runCallback, (toUnderReview_at _ _ _ Hk).
    destruct (String.eqb_spec (Enrollment.id e) i');
      destruct (String.eqb_spec (Enrollment.status e) processing);
      simpl; try reflexivity. destruct H; contradiction. }
  assert (H2 : forall i', Enrollment.status e <> under_review \/ Enrollment.id e <> i' ->
     enrollments (runCallback rnd (ToApproved i') s) !! k = Some e).
  { intros i' H. rewrite enrollments_runCallback.
    destruct (toApproved_at rnd _ _ _ Hk (now s) i' (draws s)) as [m ->].
    destruct (String.eqb_spec (Enrollment.id e) i');
      destruct (String.eqb_spec (Enrollment.status e) under_review);
      simpl; try reflexivity. destruct H; contradiction. }
  split; [|split; [|split]].
  - unfold submitForReview, showToast, setTimeout, setToast, setEnrollments.
    simpl. now rewrite <- !app_assoc.
  - apply H1.
  - apply H2.
  - intros Hp Hu j.
    destruct (enrollments_fire rnd j s) as [-> | [cb ->]]; [exact Hk|].
    destruct cb; [exact Hk | apply H1; auto | apply H2; auto].
Qed.

Lemma stale_timers_guarded_witness :
  (exists e,
     enrollments rejectedBeforeTimers !! 0%nat = Some e /\
     Enrollment.status e = rejected /\
     enrollments (fire sampleOracle 3 rejectedBeforeTimers) !! 0%nat = Some e /\
     enrollments (fire sampleOracle 4 rejectedBeforeTimers) !! 0%nat = Some e) /\
  map Enrollment.status
      (enrollments (run sampleOracle initialState rejectedSession))
  = [rejected].
Proof.
  split; [|reflexivity].
  eexists. split; [reflexivity|]. split; [reflexivity|].
  match goal with |- ?x !! _ = Some ?e /\ _ =>
    pose proof (stale_timers_guarded sampleOracle rejectedBeforeTimers 0 e
                  "enrollment-1700000000000" eq_refl) as (_ & _ & _ & H)
  end.
  split; apply H; discriminate.
Defined.

(** ** C10: the statistics of an approved enrollment *)

(** *** Rounding to a double *)

Module DoubleFacts.
Import Double.
Local Open Scope Q_scope.

Lemma pow2_pos k : 0 < pow2 k.
Proof. apply Qpower_0_lt. reflexivity. Qed.

Lemma pow2_add a b : pow2 (a + b) == pow2 a * pow2 b.
Proof. apply Qpower_plus. discriminate. Qed.

Lemma pow2_le a b : (a <= b)%Z -> pow2 a <= pow2 b.
Proof. intros H. apply Qpower_le_compat_l; [exact H | discriminate]. Qed.

Lemma pow2_lt a b : (a < b)%Z -> pow2 a < pow2 b.
Proof. intros H. apply Qpower_lt_compat_l; [exact H | reflexivity]. Qed.

Lemma pow2_lt_inv a b : pow2 a < pow2 b -> (a < b)%Z.
Proof. intros H. apply (Qpower_lt_compat_l_inv 2); [exact H | reflexivity]. Qed.

Lemma pow2_Z k : (0 <= k)%Z -> pow2 k == inject_Z (2 ^ k).
Proof. intros H. unfold pow2. now rewrite Zpower_Qpower. Qed.

Lemma pow2_cancel a : pow2 a * pow2 (- a) == 1.
Proof. rewrite <- pow2_add, Z.add_opp_diag_r. reflexivity. Qed.

(** [q * 2^(-e) <= 2^(k - e)] follows from [q <= 2^k], and the like. *)
Lemma scale_le q k e : q <= pow2 k -> q * pow2 (- e) <= pow2 (k - e).
Proof.
  intros H. unfold Z.sub. rewrite pow2_add.
  apply Qmult_le_compat_r; [exact H | apply Qlt_le_weak, pow2_pos].
Qed.

Lemma scale_ge q k e : pow2 k <= q -> pow2 (k - e) <= q * pow2 (- e).
Proof.
  intros H. unfold Z.sub. rewrite pow2_add.
  apply Qmult_le_compat_r; [exact H | apply Qlt_le_weak, pow2_pos].
Qed.

Lemma binade_spec q : 0 < q -> pow2 (binade q) <= q /\ q < pow2 (binade q + 1).
Proof.
  intros Hq. destruct q as [n d]. unfold binade. cbn [Qnum Qden].
  assert (Hn : (0 < n)%Z).
  { unfold Qlt in Hq. simpl in Hq. lia. }
  set (a := Z.log2 n). set (b := Z.log2 (Z.pos d)).
  destruct (Z.log2_spec n Hn) as [Ha1 Ha2]. fold a in Ha1, Ha2.
  destruct (Z.log2_spec (Z.pos d) ltac:(lia)) as [Hb1 Hb2]. fold b in Hb1, Hb2.
  assert (Ha0 : (0 <= a)%Z) by apply Z.log2_nonneg.
  assert (Hb0 : (0 <= b)%Z) by apply Z.log2_nonneg.
  assert (Hup : n # d < pow2 (a - b + 1)).
  { replace (a - b + 1)%Z with (Z.succ a + - b)%Z by lia.
    rewrite pow2_add.
    apply Qmult_lt_r with (z := pow2 b); [apply pow2_pos|].
    rewrite <- Qmult_assoc, (Qmult_comm (pow2 (- b))), pow2_cancel, Qmult_1_r.
    rewrite !pow2_Z by lia.
    unfold Qlt, Qmult, inject_Z. cbn [Qnum Qden]. nia. }
  assert (Hlow : pow2 (a - b - 1) <= n # d).
  { replace (a - b - 1)%Z with (a + - Z.succ b)%Z by lia.
    rewrite pow2_add.
    apply Qmult_le_r with (z := pow2 (Z.succ b)); [apply pow2_pos|].
    rewrite <- Qmult_assoc, (Qmult_comm (pow2 (- Z.succ b))), pow2_cancel,
      Qmult_1_r.
    rewrite !pow2_Z by lia.
    unfold Qle, Qmult, inject_Z. cbn [Qnum Qden]. nia. }
  destruct (Qle_bool (pow2 (a - b)) (n # d)) eqn:E.
  - apply Qle_bool_iff in E. split; [exact E | exact Hup].
  - split; [exact Hlow|].
    replace (a - b - 1 + 1)%Z with (a - b)%Z by lia.
    apply Qnot_le_lt. intros H. apply Qle_bool_iff in H. congruence.
Qed.

Lemma binade_mono q1 q2 : 0 < q1 -> q1 <= q2 -> (binade q1 <= binade q2)%Z.
Proof.
  intros H1 H12.
  assert (H2 : 0 < q2) by (eapply Qlt_le_trans; eauto).
  destruct (binade_spec q1 H1) as [L1 _].
  destruct (binade_spec q2 H2) as [_ U2].
  assert (H : pow2 (binade q1) < pow2 (binade q2 + 1)).
  { eapply Qle_lt_trans; [exact L1|]. eapply Qle_lt_trans; eauto. }
  apply pow2_lt_inv in H. lia.
Qed.

Lemma floor_cases x : inject_Z (Qfloor x) <= x /\ x < inject_Z (Qfloor x + 1).
Proof. split; [apply Qfloor_le | apply Qlt_floor]. Qed.

Lemma nearestEven_cases x :
  (nearestEven x = Qfloor x /\ x - inject_Z (Qfloor x) <= 1 # 2) \/
  (nearestEven x = (Qfloor x + 1)%Z /\ 1 # 2 <= x - inject_Z (Qfloor x)).
Proof.
  unfold nearestEven.
  destruct (Qcompare_spec (x - inject_Z (Qfloor x)) (1 # 2)) as [E|E|E].
  - destruct (Z.even (Qfloor x)); [left | right];
      (split; [reflexivity | rewrite E; apply Qle_refl]).
  - left. split; [reflexivity | now apply Qlt_le_weak].
  - right. split; [reflexivity | now apply Qlt_le_weak].
Qed.

Lemma nearestEven_ge x (N : Z) : inject_Z N <= x -> (N <= nearestEven x)%Z.
Proof.
  intros H.
  assert (Hf : (N <= Qfloor x)%Z).
  { rewrite <- (Qfloor_Z N). now apply Qfloor_resp_le. }
  destruct (nearestEven_cases x) as [[-> _] | [-> _]]; lia.
Qed.

Lemma nearestEven_le x (N : Z) : x <= inject_Z N -> (nearestEven x <= N)%Z.
Proof.
  intros H. destruct (floor_cases x) as [Hlo Hhi].
  assert (Hf : (Qfloor x <= N)%Z).
  { rewrite <- (Qfloor_Z N). now apply Qfloor_resp_le. }
  destruct (nearestEven_cases x) as [[-> _] | [-> Hd]]; [exact Hf|].
  assert (Hlt : inject_Z (Qfloor x) < inject_Z N) by lra.
  rewrite <- Zlt_Qlt in Hlt. lia.
Qed.

Lemma nearestEven_mono x y : x <= y -> (nearestEven x <= nearestEven y)%Z.
Proof.
  intros Hxy.
  assert (Hf : (Qfloor x <= Qfloor y)%Z) by now apply Qfloor_resp_le.
  destruct (Z.eq_dec (Qfloor x) (Qfloor y)) as [E|E].
  - unfold nearestEven. rewrite <- E.
    destruct (Qcompare_spec (x - inject_Z (Qfloor x)) (1 # 2)) as [Ex|Ex|Ex];
      destruct (Qcompare_spec (y - inject_Z (Qfloor x)) (1 # 2)) as [Ey|Ey|Ey];
      try lia; try (destruct (Z.even (Qfloor x)); lia); exfalso; lra.
  - destruct (nearestEven_cases x) as [[-> _] | [-> _]];
      destruct (nearestEven_cases y) as [[-> _] | [-> _]]; lia.
Qed.

Lemma lastBit_mono q1 q2 : 0 < q1 -> q1 <= q2 -> (lastBit q1 <= lastBit q2)%Z.
Proof.
  intros H1 H12. unfold lastBit.
  pose proof (binade_mono q1 q2 H1 H12). lia.
Qed.

Lemma roundPositive_nonneg q : 0 < q -> 0 <= roundPositive q.
Proof.
  intros Hq. unfold roundPositive.
  apply Qmult_le_0_compat; [|apply Qlt_le_weak, pow2_pos].
  change 0 with (inject_Z 0). rewrite <- Zle_Qle.
  apply nearestEven_ge. change (inject_Z 0) with 0.
  apply Qmult_le_0_compat; [now apply Qlt_le_weak | apply Qlt_le_weak, pow2_pos].
Qed.

Lemma roundPositive_mono q1 q2 :
  0 < q1 -> q1 <= q2 -> roundPositive q1 <= roundPositive q2.
Proof.
  intros H1 H12.
  assert (H2 : 0 < q2) by (eapply Qlt_le_trans; eauto).
  pose proof (lastBit_mono q1 q2 H1 H12) as He.
  unfold roundPositive.
  destruct (Z.eq_dec (lastBit q1) (lastBit q2)) as [E|E].
  - rewrite E. apply Qmult_le_compat_r; [|apply Qlt_le_weak, pow2_pos].
    rewrite <- Zle_Qle. apply nearestEven_mono.
    apply Qmult_le_compat_r; [exact H12 | apply Qlt_le_weak, pow2_pos].
  - (* the two numbers lie in different binades: a power of two separates
       their roundings *)
    assert (Hlt : (lastBit q1 < lastBit q2)%Z) by lia.
    set (e1 := lastBit q1) in *. set (e2 := lastBit q2) in *.
    assert (Hb2 : e2 = (binade q2 - 52)%Z) by (unfold e2, lastBit in *; lia).
    assert (Hb1 : (binade q1 - 52 <= e1)%Z) by (unfold e1, lastBit; lia).
    destruct (binade_spec q1 H1) as [_ U1].
    destruct (binade_spec q2 H2) as [L2 _].
    apply Qle_trans with (pow2 (binade q2)).
    + assert (Hx : q1 * pow2 (- e1) <= inject_Z (2 ^ (binade q2 - e1))).
      { rewrite <- pow2_Z by lia. apply scale_le.
        apply Qle_trans with (pow2 (binade q1 + 1));
          [now apply Qlt_le_weak | apply pow2_le; lia]. }
      apply nearestEven_le in Hx. rewrite Zle_Qle in Hx.
      rewrite <- pow2_Z in Hx by lia.
      apply Qle_trans with (pow2 (binade q2 - e1) * pow2 e1).
      * apply Qmult_le_compat_r; [exact Hx | apply Qlt_le_weak, pow2_pos].
      * rewrite <- pow2_add. apply pow2_le. lia.
    + assert (Hx : inject_Z (2 ^ 52) <= q2 * pow2 (- e2)).
      { rewrite <- pow2_Z by lia.
        replace 52%Z with (binade q2 - e2)%Z by lia. now apply scale_ge. }
      apply nearestEven_ge in Hx. rewrite Zle_Qle in Hx.
      rewrite <- pow2_Z in Hx by lia.
      apply Qle_trans with (pow2 52 * pow2 e2).
      * rewrite <- pow2_add. apply pow2_le. lia.
      * apply Qmult_le_compat_r; [exact Hx | apply Qlt_le_weak, pow2_pos].
Qed.

Lemma round_zero q : q == 0 -> round q = 0.
Proof.
  intros H. unfold round.
  destruct (Qcompare_spec q 0) as [E|E|E]; [reflexivity | lra | lra].
Qed.

Lemma round_positive q : 0 < q -> round q = roundPositive q.
Proof.
  intros H. unfold round.
  destruct (Qcompare_spec q 0) as [E|E|E]; [lra | lra | reflexivity].
Qed.

(** Rounding is monotone on the numbers that are not negative. *)
Lemma round_mono q1 q2 : 0 <= q1 -> q1 <= q2 -> round q1 <= round q2.
Proof.
  intros H1 H12.
  destruct (Qlt_le_dec 0 q1) as [Hp|Hz].
  - rewrite !round_positive by lra. now apply roundPositive_mono.
  - rewrite (round_zero q1) by lra.
    destruct (Qlt_le_dec 0 q2) as [Hp2|Hz2].
    + rewrite round_positive by exact Hp2. now apply roundPositive_nonneg.
    + rewrite (round_zero q2) by lra. apply Qle_refl.
Qed.

(** The largest double below 1 is [1 - 2^-53]. *)
Lemma below_one r : isDouble r -> 0 <= r -> r < 1 -> r <= 1 - pow2 (-53).
Proof.
  intros Hd H0 H1.
  destruct (Qlt_le_dec 0 r) as [Hp|Hz].
  2:{ assert (0 < pow2 (-53)) by apply pow2_pos.
      assert (pow2 (-53) < pow2 0) by (apply pow2_lt; lia).
      change (pow2 0) with 1 in *. lra. }
  destruct (binade_spec r Hp) as [L U].
  assert (Hb : (binade r < 0)%Z).
  { apply pow2_lt_inv. change (pow2 0) with 1. lra. }
  destruct (Z.eq_dec (binade r) (-1)%Z) as [E|E].
  - unfold isDouble in Hd. rewrite round_positive in Hd by exact Hp.
    unfold roundPositive, lastBit in Hd. rewrite E in Hd.
    change (Z.max (-1074) (-1 - 52)) with (-53)%Z in Hd.
    set (m := nearestEven (r * pow2 (- -53))) in *.
    assert (Hm : inject_Z m < inject_Z (2 ^ 53)).
    { rewrite <- pow2_Z by lia.
      apply Qmult_lt_r with (z := pow2 (-53)); [apply pow2_pos|].
      rewrite Hd. change (pow2 53 * pow2 (-53)) with (pow2 53 * pow2 (- (53))).
      rewrite pow2_cancel. exact H1. }
    rewrite <- Zlt_Qlt in Hm.
    assert (Hm' : inject_Z m <= inject_Z (2 ^ 53 - 1)) by (rewrite <- Zle_Qle; lia).
    rewrite <- Hd.
    apply Qle_trans with (inject_Z (2 ^ 53 - 1) * pow2 (-53)).
    + apply Qmult_le_compat_r; [exact Hm' | apply Qlt_le_weak, pow2_pos].
    + apply Qle_lteq. right. reflexivity.
  - assert (Hle : r <= pow2 (-1)).
    { apply Qle_trans with (pow2 (binade r + 1));
        [now apply Qlt_le_weak | apply pow2_le; lia]. }
    assert (Hc : pow2 (-1) <= 1 - pow2 (-53)) by (vm_compute; discriminate).
    lra.
Qed.
End DoubleFacts.

(** [Math.floor(r * range) + base] lies in [base, base + range - 1] when [r]
    is a double with [0 <= r < 1], for a range that the largest double below
    1 does not reach: [r * range] is rounded, and rounding is monotone, so the
    product stays at or below the rounded [(1 - 2^-53) * range]. *)
Lemma randomInt_range (rnd : Oracle) (range base : Z) (n : nat) :
  unitInterval rnd -> 0 < range ->
  (Double.mul (1 - Double.pow2 (-53)) (inject_Z range) < inject_Z range)%Q ->
  base <= fst (randomInt rnd range base n) <= base + range - 1.
Proof.
  intros Hu Hr Htop. destruct (Hu n) as (Hd & H0 & H1).
  unfold randomInt, bind, Math_random, ret; cbn [fst].
  unfold Double.mul in *.
  assert (Hq : (0 < inject_Z range)%Q).
  { change 0%Q with (inject_Z 0). now rewrite <- Zlt_Qlt. }
  assert (Hprod : (0 <= rnd n * inject_Z range)%Q).
  { apply Qmult_le_0_compat; [exact H0 | now apply Qlt_le_weak]. }
  assert (Hlo : 0 <= Qfloor (Double.round (rnd n * inject_Z range))).
  { change 0 with (Qfloor (inject_Z 0)) at 1. apply Qfloor_resp_le.
    change (inject_Z 0) with (Double.round 0).
    apply DoubleFacts.round_mono; [apply Qle_refl | exact Hprod]. }
  assert (Hhi : Qfloor (Double.round (rnd n * inject_Z range)) < range).
  { rewrite Zlt_Qlt.
    eapply Qle_lt_trans; [apply Qfloor_le|].
    eapply Qle_lt_trans; [|exact Htop].
    apply DoubleFacts.round_mono; [exact Hprod|].
    apply Qmult_le_compat_r; [|now apply Qlt_le_weak].
    now apply DoubleFacts.below_one. }
  lia.
Qed.

(** The counters of the two approvals are in range. *)
Lemma small_counters (rnd : Oracle) (m : nat) :
  unitInterval rnd ->
  100 <= fst (randomInt rnd 400 100 m) <= 499 /\
  10 <= fst (randomInt rnd 40 10 (S m)) <= 49 /\
  50 <= fst (randomInt rnd 150 50 (S (S m))) <= 199.
Proof.
  intros Hu.
  pose proof (randomInt_range rnd 400 100 m Hu eq_refl
                ltac:(vm_compute; reflexivity)).
  pose proof (randomInt_range rnd 40 10 (S m) Hu eq_refl
                ltac:(vm_compute; reflexivity)).
  pose proof (randomInt_range rnd 150 50 (S (S m)) Hu eq_refl
                ltac:(vm_compute; reflexivity)).
  lia.
Qed.

Lemma large_counters (rnd : Oracle) (m : nat) :
  unitInterval rnd ->
  100 <= fst (randomInt rnd 500 100 m) <= 599 /\
  10 <= fst (randomInt rnd 50 10 (S m)) <= 59 /\
  50 <= fst (randomInt rnd 200 50 (S (S m))) <= 249.
Proof.
  intros Hu.
  pose proof (randomInt_range rnd 500 100 m Hu eq_refl
                ltac:(vm_compute; reflexivity)).
  pose proof (randomInt_range rnd 50 10 (S m) Hu eq_refl
                ltac:(vm_compute; reflexivity)).
  pose proof (randomInt_range rnd 200 50 (S (S m)) Hu eq_refl
                ltac:(vm_compute; reflexivity)).
  lia.
Qed.

(** The rounding shows: 0.3 is the double just below 3/10, its exact product
    with 500 lies below 150, and the product as a double is 150. *)
Example product_is_rounded :
  ~ Double.isDouble (3 # 10) /\
  Qfloor (Double.round (3 # 10) * 500) = 149 /\
  fst (randomInt (fun _ => Double.round (3 # 10)) 500 100 0%nat) = 250.
Proof. split; [|split]; vm_compute; (discriminate || reflexivity). Qed.

Lemma referralUrlFor_nonempty now e : Update.referralUrlFor now e <> EmptyString.
Proof. unfold Update.referralUrlFor. simpl. discriminate. Qed.

(** A record rewritten by [withApproval] with in-range counters meets the
    spec's description of an approved record. *)
Lemma withApproval_ok now e0 e c o g :
  100 <= c <= 599 -> 10 <= o <= 59 -> 50 <= g <= 249 ->
  approvedWithStats
    (Enrollment.withApproval approved (Update.referralUrlFor now e0) c o g e).
Proof.
  intros Hc Ho Hg. split; [reflexivity|]. split.
  - eexists; split; [reflexivity | apply referralUrlFor_nonempty].
  - exists c, o, g. repeat split; (reflexivity || lia).
Qed.

(** C10.  With every draw of the random source a double in [0, 1), and each
    product with a range rounded to a double as the engine does: when the approval
    timer or [advanceEnrollment] meets an under-review record with the given
    id, and when [advanceToApproved] meets any record with the given id, the
    record becomes approved with a non-empty [referralUrl], integer counters
    with 100 <= clicks <= 599, 10 <= orders <= 59, 50 <= earnings <= 249, and a
    [stats] record equal to the three counters.  These are the only cases in
    which the three operations rewrite a record as approved: otherwise the
    record is unchanged, or (for [advanceEnrollment]) its new status is not
    ['approved']. *)
Theorem approved_statistics (rnd : Oracle) (s : State) (k : nat)
    (e : Enrollment.t) :
  unitInterval rnd ->
  enrollments s !! k = Some e ->
  (Enrollment.status e = under_review ->
   exists e', enrollments (runCallback rnd (ToApproved (Enrollment.id e)) s) !! k
              = Some e' /\ approvedWithStats e') /\
  (Enrollment.status e = under_review ->
   exists e', enrollments (advanceEnrollment rnd (Enrollment.id e) s) !! k
              = Some e' /\ approvedWithStats e') /\
  (exists e', enrollments (advanceToApproved rnd (Enrollment.id e) s) !! k
              = Some e' /\ approvedWithStats e') /\
  (forall i, exists e',
     enrollments (runCallback rnd (ToApproved i) s) !! k = Some e' /\
     (e' = e \/ approvedWithStats e')) /\
  (forall i, exists e',
     enrollments (advanceEnrollment rnd i s) !! k = Some e' /\
     (e' = e \/ Enrollment.status e' <> approved \/ approvedWithStats e')) /\
  (forall i, exists e',
     enrollments (advanceToApproved rnd i s) !! k = Some e' /\
     (e' = e \/ approvedWithStats e')).
Proof.
  intros Hu Hk.
  assert (Hsmall : forall m,
    approvedWithStats
      (Enrollment.withApproval approved (Update.referralUrlFor (now s) e)
         (fst (randomInt rnd 400 100 m)) (fst (randomInt rnd 40 10 (S m)))
         (fst (randomInt rnd 150 50 (S (S m)))) e)).
  { intros m. apply withApproval_ok.
    - pose proof (small_counters rnd m Hu); lia.
    - pose proof (small_counters rnd m Hu); lia.
    - pose proof (small_counters rnd m Hu); lia. }
  assert (Hsmall' : forall m st,
    approvedWithStats
      (Enrollment.withApproval approved (Update.referralUrlFor (now s) e)
         (fst (randomInt rnd 400 100 m)) (fst (randomInt rnd 40 10 (S m)))
         (fst (randomInt rnd 150 50 (S (S m))))
         (Enrollment.withStatus st e))).
  { intros m st. apply withApproval_ok.
    - pose proof (small_counters rnd m Hu); lia.
    - pose proof (small_counters rnd m Hu); lia.
    - pose proof (small_counters rnd m Hu); lia. }
  assert (Hbig : forall m,
    approvedWithStats
      (Enrollment.withApproval approved (Update.referralUrlFor (now s) e)
         (fst (randomInt rnd 500 100 m)) (fst (randomInt rnd 50 10 (S m)))
         (fst (randomInt rnd 200 50 (S (S m)))) e)).
  { intros m. apply withApproval_ok.
    - pose proof (large_counters rnd m Hu); lia.
    - pose proof (large_counters rnd m Hu); lia.
    - pose proof (large_counters rnd m Hu); lia. }
  split; [|split; [|split; [|split; [|split]]]].
  - intros Hs. rewrite enrollments_runCallback.
    destruct (toApproved_at rnd _ _ _ Hk (now s) (Enrollment.id e) (draws s))
      as [m ->].
    rewrite String.eqb_refl, Hs. simpl. eexists; split; [reflexivity|apply Hsmall].
  - intros Hs. rewrite enrollments_advanceEnrollment.
    destruct (advanceEnrollment_at rnd _ _ _ Hk (now s) (Enrollment.id e)
                (draws s)) as [m ->].
    rewrite String.eqb_refl, Hs. simpl.
    eexists; split; [reflexivity|apply Hsmall'].
  - rewrite enrollments_advanceToApproved.
    destruct (advanceToApproved_at rnd _ _ _ Hk (now s) (Enrollment.id e)
                (draws s)) as [m ->].
    rewrite String.eqb_refl. simpl. eexists; split; [reflexivity|apply Hbig].
  - intros i. rewrite enrollments_runCallback.
    destruct (toApproved_at rnd _ _ _ Hk (now s) i (draws s)) as [m ->].
    eexists; split; [reflexivity|].
    destruct (negb (String.eqb (Enrollment.id e) i)
              || negb (String.eqb (Enrollment.status e) under_review));
      [now left | right; apply Hsmall].
  - intros i. rewrite enrollments_advanceEnrollment.
    destruct (advanceEnrollment_at rnd _ _ _ Hk (now s) i (draws s)) as [m ->].
    eexists; split; [reflexivity|].
    destruct (negb (String.eqb (Enrollment.id e) i)
              || isTerminalState (Enrollment.status e)); [now left|].
    destruct (nextEnrollmentState (Enrollment.status e)) as [nx|]; [|now left].
    destruct (String.eqb nx EmptyString); [now left|].
    destruct (String.eqb_spec nx approved) as [-> | Hne].
    + right; right. apply Hsmall'.
    + right; left. exact Hne.
  - intros i. rewrite enrollments_advanceToApproved.
    destruct (advanceToApproved_at rnd _ _ _ Hk (now s) i (draws s)) as [m ->].
    eexists; split; [reflexivity|].
    destruct (negb (String.eqb (Enrollment.id e) i));
      [now left | right; apply Hbig].
Qed.

Lemma sampleOracle_unitInterval : unitInterval sampleOracle.
Proof.
  intros n. unfold sampleOracle.
  pose proof (Nat.mod_upper_bound (7 * n + 3) 10 ltac:(discriminate)) as Hk.
  set (k := ((7 * n + 3) mod 10)%nat) in *. clearbody k.
  do 10 (destruct k as [|k]; [vm_compute; intuition discriminate|]).
  lia.
Qed.

Lemma approved_statistics_witness :
  unitInterval sampleOracle /\
  (exists e, enrollments underReviewState !! 0%nat = Some e /\
             Enrollment.status e = under_review) /\
  exists e',
    enrollments (runCallback sampleOracle (ToApproved "enrollment-1700000000000")
                   underReviewState) !! 0%nat = Some e' /\
    approvedWithStats e'.
Proof.
  split; [exact sampleOracle_unitInterval|].
  split; [eexists; split; reflexivity|].
  match goal with |- context [underReviewState] =>
    match eval vm_compute in (enrollments underReviewState !! 0%nat) with
    | Some ?e =>
        exact (proj1 (approved_statistics sampleOracle underReviewState 0 e
                        sampleOracle_unitInterval eq_refl) eq_refl)
    end
  end.
Defined.

(** ** C9: the display order *)

Section SortFacts.
Context {A : Type}.
Variable comparefn : A -> A -> option Z.
(** The records on which the comparator is a total preorder. *)
Variable ok : A -> Prop.

Let le (x y : A) : Prop := sortCompare comparefn x y <= 0.

Hypothesis le_total : forall x y, ok x -> ok y -> le x y \/ le y x.
Hypothesis le_trans :
  forall x y z, ok x -> ok y -> ok z -> le x y -> le y z -> le x z.

Lemma insertSorted_perm x l :
  Permutation (x :: l) (insertSorted comparefn x l).
Proof using Type.
  induction l as [|y l IH]; simpl; [reflexivity|].
  destruct (sortCompare comparefn x y <=? 0); [reflexivity|].
  rewrite perm_swap. now constructor.
Qed.

Lemma Array_sort_perm l : Permutation l (Array_sort comparefn l).
Proof using Type.
  induction l as [|x l IH]; simpl; [constructor|].
  rewrite <- insertSorted_perm. now constructor.
Qed.

Lemma insertSorted_sorted x l :
  ok x -> Forall ok l -> StronglySorted le l ->
  StronglySorted le (insertSorted comparefn x l).
Proof using le_total le_trans.
  intros Hx Hl Hs. induction Hs as [|y l Hs IH Hy]; simpl.
  - repeat constructor.
  - inversion Hl as [|? ? Hoy Hol]; subst.
    destruct (Z.leb_spec (sortCompare comparefn x y) 0) as [Hle|Hgt].
    + constructor; [constructor; assumption|].
      constructor; [exact Hle|].
      rewrite Forall_forall in Hy, Hol |- *.
      intros z Hz. eapply (le_trans x y z); auto.
    + constructor; [auto|].
      assert (Hyx : le y x).
      { destruct (le_total x y Hx Hoy) as [H|H]; [unfold le in H; lia|exact H]. }
      rewrite <- (insertSorted_perm x l). constructor; assumption.
Qed.

Lemma Array_sort_sorted l :
  Forall ok l -> StronglySorted le (Array_sort comparefn l).
Proof using le_total le_trans.
  induction l as [|x l IH]; intros Hl; simpl; [constructor|].
  inversion Hl; subst. apply insertSorted_sorted; auto.
  rewrite <- (Array_sort_perm l). assumption.
Qed.
End SortFacts.

Lemma wellFormed_priority e :
  wellFormed e ->
  exists i : nat,
    displayOrder !! i = Some (Enrollment.status e) /\
    statusPriority !! Enrollment.status e = Some (6 - Z.of_nat i) /\
    (i < 6)%nat.
Proof.
  intros [Hs _]. apply isStatus_spec in Hs. simpl in Hs.
  destruct Hs as [H|[H|[H|[H|[H|[H|[]]]]]]]; rewrite <- H;
    [exists 4%nat | exists 3%nat | exists 2%nat | exists 1%nat | exists 0%nat
    | exists 5%nat];
    (split; [reflexivity | split; [reflexivity | lia]]).
Qed.

Lemma wellFormed_time e :
  wellFormed e -> exists t, getTime (Enrollment.enrolledAt e) = Some t.
Proof.
  intros [_ Hd]. destruct (Enrollment.enrolledAt e); [eauto | discriminate].
Qed.

(** On well-formed records the comparator is the difference of the
    priorities, and of the times when the priorities are equal. *)
Lemma sortCompare_wellFormed a b :
  wellFormed a -> wellFormed b ->
  sortCompare compareEnrollments a b =
  if priorityOf b - priorityOf a =? 0 then timeOf b - timeOf a
  else priorityOf b - priorityOf a.
Proof.
  intros Ha Hb.
  destruct (wellFormed_priority a Ha) as (i & _ & Hpa & _).
  destruct (wellFormed_priority b Hb) as (j & _ & Hpb & _).
  destruct (wellFormed_time a Ha) as (ta & Hta).
  destruct (wellFormed_time b Hb) as (tb & Htb).
  unfold sortCompare, compareEnrollments, priorityOf, timeOf.
  rewrite Hpa, Hpb, Hta, Htb. simpl.
  destruct (6 - Z.of_nat j - (6 - Z.of_nat i) =? 0); reflexivity.
Qed.

Lemma compare_total a b :
  wellFormed a -> wellFormed b ->
  sortCompare compareEnrollments a b <= 0 \/
  sortCompare compareEnrollments b a <= 0.
Proof.
  intros Ha Hb.
  rewrite (sortCompare_wellFormed a b Ha Hb), (sortCompare_wellFormed b a Hb Ha).
  destruct (Z.eqb_spec (priorityOf b - priorityOf a) 0);
    destruct (Z.eqb_spec (priorityOf a - priorityOf b) 0); lia.
Qed.

Lemma compare_trans a b c :
  wellFormed a -> wellFormed b -> wellFormed c ->
  sortCompare compareEnrollments a b <= 0 ->
  sortCompare compareEnrollments b c <= 0 ->
  sortCompare compareEnrollments a c <= 0.
Proof.
  intros Ha Hb Hc.
  rewrite (sortCompare_wellFormed a b Ha Hb), (sortCompare_wellFormed b c Hb Hc),
          (sortCompare_wellFormed a c Ha Hc).
  destruct (Z.eqb_spec (priorityOf b - priorityOf a) 0);
    destruct (Z.eqb_spec (priorityOf c - priorityOf b) 0);
    destruct (Z.eqb_spec (priorityOf c - priorityOf a) 0); lia.
Qed.

Lemma compare_displayedBefore a b :
  wellFormed a -> wellFormed b ->
  sortCompare compareEnrollments a b <= 0 -> displayedBefore a b.
Proof.
  intros Ha Hb. rewrite (sortCompare_wellFormed a b Ha Hb).
  destruct (wellFormed_priority a Ha) as (i & Hi & Hpa & Hi6).
  destruct (wellFormed_priority b Hb) as (j & Hj & Hpb & Hj6).
  destruct (wellFormed_time a Ha) as (ta & Hta).
  destruct (wellFormed_time b Hb) as (tb & Htb).
  unfold priorityOf, timeOf. rewrite Hpa, Hpb, Hta, Htb. simpl.
  intros H. exists i, j, ta, tb. repeat split; auto.
  destruct (Z.eqb_spec (6 - Z.of_nat j - (6 - Z.of_nat i)) 0); lia.
Qed.

Lemma StronglySorted_weaken {A} (R R' : A -> A -> Prop) (ok : A -> Prop) l :
  (forall x y, ok x -> ok y -> R x y -> R' x y) ->
  Forall ok l -> StronglySorted R l -> StronglySorted R' l.
Proof.
  intros HR Hl Hs. induction Hs as [|x l Hs IH Hx]; [constructor|].
  inversion Hl as [|? ? Hox Hol]; subst. constructor; [auto|].
  rewrite Forall_forall in Hx, Hol |- *. intros y Hy. apply HR; auto.
Qed.

(** With a status that is none of the six, the priority is [undefined], the
    comparator answers [NaN] for every pair, and the sort, which takes [NaN]
    for equal, keeps the order of the input: the older record stays above the
    newer one. *)
Example unknown_status_keeps_input_order :
  (forall a b, In a archivedList -> In b archivedList ->
               compareEnrollments a b = None) /\
  sortedEnrollments archivedList = archivedList.
Proof.
  split; [|reflexivity].
  intros a b [<-|[<-|[]]] [<-|[<-|[]]]; reflexivity.
Qed.

(** C9, as stated, fails on a list that holds a record with an Invalid Date
    (as a load from a damaged store leaves one): between two records of one
    status the comparator answers [NaN] as soon as one date is invalid, and
    [NaN] counts as equal.  In the list of an older record, a record without
    a date and a newer record, all ['enrolled'], every element compares as
    equal to its neighbour, in either order of the arguments, although the
    older record compares as below the newer one.  The comparator is not
    consistent on this list, so that the order is the engine's: a sort that
    compares neighbours finds nothing to move (the insertion sort here; V8,
    which first looks for the run of elements that are not below their
    predecessor, finds the whole list to be one) and returns the list as it
    is, where the older record stands above the newer one. *)
Lemma invalid_date_breaks_display_order :
  compareEnrollments olderEnrollment undatedEnrollment = None /\
  compareEnrollments undatedEnrollment olderEnrollment = None /\
  compareEnrollments undatedEnrollment newerEnrollment = None /\
  compareEnrollments newerEnrollment undatedEnrollment = None /\
  compareEnrollments olderEnrollment newerEnrollment = Some 1000 /\
  sortedEnrollments listAroundUndated
  = [olderEnrollment; undatedEnrollment; newerEnrollment] /\
  Enrollment.status olderEnrollment = Enrollment.status newerEnrollment /\
  getTime (Enrollment.enrolledAt olderEnrollment) = Some 1000 /\
  getTime (Enrollment.enrolledAt newerEnrollment) = Some 2000 /\
  ~ displayedBefore olderEnrollment newerEnrollment /\
  ~ StronglySorted displayedBefore (sortedEnrollments listAroundUndated).
Proof.
  assert (Hnot : ~ displayedBefore olderEnrollment newerEnrollment).
  { intros (i & j & ta & tb & Hi & Hj & Hta & Htb & Hord).
    cbn in Hta, Htb. injection Hta as <-. injection Htb as <-.
    assert (Ei : i = 4%nat).
    { destruct i as [|[|[|[|[|[|i]]]]]]; vm_compute in Hi;
        try discriminate Hi; reflexivity. }
    assert (Ej : j = 4%nat).
    { destruct j as [|[|[|[|[|[|j]]]]]]; vm_compute in Hj;
        try discriminate Hj; reflexivity. }
    destruct Hord as [H|[_ H]]; lia. }
  repeat (split; [reflexivity|]).
  split; [exact Hnot|].
  intros Hs. change (sortedEnrollments listAroundUndated)
    with [olderEnrollment; undatedEnrollment; newerEnrollment] in Hs.
  inversion Hs as [|? ? _ Hall]; subst.
  inversion Hall as [|? ? _ Hrest]; subst.
  inversion Hrest as [|? ? Hon _]; subst. exact (Hnot Hon).
Qed.

(** C9, amended.  Display ordering: the sorted list is a permutation of the
    input (no record added, removed or modified); and when every record has
    one of the six statuses and a valid date, every record stands above all
    the records after it: its status comes earlier in approved >
    under-review > processing > uploaded > enrolled > rejected, or the
    statuses are the same and it was enrolled no earlier. *)
Theorem display_order (l : list Enrollment.t) :
  Permutation l (sortedEnrollments l) /\
  (Forall wellFormed l -> StronglySorted displayedBefore (sortedEnrollments l)).
Proof.
  split; [apply Array_sort_perm|].
  intros Hl. unfold sortedEnrollments.
  apply (StronglySorted_weaken
           (fun x y => sortCompare compareEnrollments x y <= 0)
           displayedBefore wellFormed).
  - apply compare_displayedBefore.
  - rewrite <- (Array_sort_perm compareEnrollments l). exact Hl.
  - apply (Array_sort_sorted compareEnrollments wellFormed);
      [apply compare_total | apply compare_trans | exact Hl].
Qed.

Lemma display_order_witness :
  Forall wellFormed unsortedList /\
  StronglySorted displayedBefore (sortedEnrollments unsortedList) /\
  map (fun e => (Enrollment.status e, timeOf e)) (sortedEnrollments unsortedList)
  = [(approved, 1700000002000); (processing, 1700000003000);
     (processing, 1700000001000); (rejected, 1700000000000)].
Proof.
  assert (H : Forall wellFormed unsortedList).
  { repeat constructor. }
  split; [exact H|].
  split; [exact (proj2 (display_order unsortedList) H) | reflexivity].
Defined.

(** ** C4: failures of the announcement queries *)

(** C4, as stated, fails: a fetcher whose query reports an error returns
    [null], which is not the empty list. *)
Lemma fetch_error_gives_null :
  Fetch.failed string (NotNull erroringClient) Fetch.allQuery /\
  Fetch.fetchAllAnnouncements string (NotNull erroringClient) = Normal Null /\
  Fetch.fetchAllAnnouncements string (NotNull erroringClient)
    <> Normal (NotNull (Fetch.Rows string [])).
Proof.
  split; [simpl; discriminate|]. split; [reflexivity|]. discriminate.
Qed.

Lemma fetchWith_failed Row supabase q :
  Fetch.failed Row supabase q -> Fetch.fetchWith Row supabase q = Normal Null.
Proof.
  unfold Fetch.failed, Fetch.fetchWith.
  destruct (Fetch.await Row supabase q) as [r|err]; simpl; [|reflexivity].
  destruct (Fetch.error Row r); [intros H; now elim H | reflexivity].
Qed.

(** C4 (amended).  When its query fails (the client is [null], awaiting
    rejects, or the response carries an error), each of the five fetchers
    returns [null] and throws nothing.  When [testSupabaseConnection] or
    [fetchCampaigns] rejects, or [fetchCampaigns] resolves to an empty array,
    [loadCampaigns] ends normally with an empty campaign list and loading
    switched off, and the view renders "No campaigns found". *)
Theorem fetch_failure_degrades (Row : Type) (supabase : Nullable (Fetch.Client Row))
    (merchantName id : string)
    (test : Completion bool) (fetch : Completion (list Campaign.t))
    (s : AnnouncementsTab.State) :
  (Fetch.failed Row supabase Fetch.allQuery ->
   Fetch.fetchAllAnnouncements Row supabase = Normal Null) /\
  (Fetch.failed Row supabase Fetch.orderedQuery ->
   Fetch.fetchAnnouncementsOrdered Row supabase = Normal Null) /\
  (Fetch.failed Row supabase Fetch.basicQuery ->
   Fetch.fetchAnnouncementsBasic Row supabase = Normal Null) /\
  (Fetch.failed Row supabase (Fetch.byMerchantQuery merchantName) ->
   Fetch.fetchAnnouncementsByMerchant Row supabase merchantName = Normal Null) /\
  (Fetch.failed Row supabase (Fetch.byIdQuery id) ->
   Fetch.fetchAnnouncementById Row supabase id = Normal Null) /\
  ((exists err, test = Threw err) \/ (exists err, fetch = Threw err)
   \/ fetch = Normal [] ->
   exists s',
     AnnouncementsTab.loadCampaigns test fetch s = Normal s' /\
     AnnouncementsTab.campaignsList s' = [] /\
     AnnouncementsTab.isLoading s' = false /\
     AnnouncementsTab.render s' = AnnouncementsTab.NoCampaignsFound).
Proof.
  repeat split; try apply fetchWith_failed.
  intros H. unfold AnnouncementsTab.loadCampaigns.
  destruct test as [b|e1]; simpl.
  - destruct fetch as [cs|e2]; simpl.
    + destruct H as [[? H]|[[? H]|H]]; try discriminate.
      inversion H; subst. simpl. eexists; repeat split.
    + eexists; repeat split.
  - eexists; repeat split.
Qed.

Lemma fetch_failure_degrades_witness :
  (Fetch.failed string (NotNull rejectingClient) (Fetch.byIdQuery "42") /\
   Fetch.fetchAnnouncementById string (NotNull rejectingClient) "42"
   = Normal Null) /\
  exists s',
    AnnouncementsTab.loadCampaigns (Normal true) (Threw "network down") mountedTab
    = Normal s' /\
    AnnouncementsTab.campaignsList s' = [] /\
    AnnouncementsTab.isLoading s' = false /\
    AnnouncementsTab.render s' = AnnouncementsTab.NoCampaignsFound.
Proof.
  pose proof (fetch_failure_degrades string (NotNull rejectingClient)
                "Burger House" "42" (Normal true) (Threw "network down")
                mountedTab) as (_ & _ & _ & _ & H5 & H6).
  split.
  - split; [exact I | apply H5; exact I].
  - apply H6. right; left. eexists; reflexivity.
Defined.

(** ** Dates survive the ISO string *)

Module ISOFacts.
Import ISO.

Lemma digitChar_cases d :
  0 <= d < 10 ->
  d = 0 \/ d = 1 \/ d = 2 \/ d = 3 \/ d = 4 \/ d = 5 \/ d = 6 \/ d = 7
  \/ d = 8 \/ d = 9.
Proof. lia. Qed.

Lemma digitValue_digitChar d : 0 <= d < 10 -> digitValue (digitChar d) = Some d.
Proof.
  intros H. apply digitChar_cases in H.
  repeat (destruct H as [-> | H]; [reflexivity|]). subst; reflexivity.
Qed.

(** A digit is neither of the two signs. *)
Lemma digitChar_not_sign d :
  0 <= d < 10 ->
  Ascii.eqb (digitChar d) "+" = false /\ Ascii.eqb (digitChar d) "-" = false.
Proof.
  intros H. apply digitChar_cases in H.
  repeat (destruct H as [-> | H]; [split; reflexivity|]).
  subst; split; reflexivity.
Qed.

Lemma readDigits_fixedDigits width :
  forall n acc rest,
    0 <= n < 10 ^ Z.of_nat width ->
    readDigits width acc (fixedDigits width n ++ rest)
    = Some (acc * 10 ^ Z.of_nat width + n, rest).
Proof.
  induction width as [|w IH]; intros n acc rest Hn.
  - simpl in *. do 2 f_equal. lia.
  - rewrite Nat2Z.inj_succ, Z.pow_succ_r in * by lia.
    assert (Hp : 0 < 10 ^ Z.of_nat w) by (apply Z.pow_pos_nonneg; lia).
    cbn [fixedDigits readDigits app].
    rewrite digitValue_digitChar.
    2:{ split; [apply Z.div_pos; lia | apply Z.div_lt_upper_bound; lia]. }
    cbn [mbind option_bind].
    rewrite IH by (apply Z.mod_pos_bound; lia).
    do 2 f_equal. pose proof (Z.div_mod n (10 ^ Z.of_nat w)). nia.
Qed.

Lemma expect_cons c rest : expect c (c :: rest) = Some rest.
Proof. unfold expect. now rewrite Ascii.eqb_refl. Qed.

Lemma readYear_yearChars y rest :
  -1000000 < y < 1000000 ->
  readYear (yearChars y ++ rest) = Some (y, rest).
Proof.
  intros Hy. unfold yearChars.
  destruct (Z.leb_spec 0 y); destruct (Z.leb_spec y 9999); simpl andb; cbv iota.
  - assert (Hc : 0 <= y / 10 ^ Z.of_nat 3 < 10).
    { split; [apply Z.div_pos; lia | apply Z.div_lt_upper_bound; simpl; lia]. }
    destruct (digitChar_not_sign _ Hc) as [Hplus Hminus].
    pose proof (readDigits_fixedDigits 4 y 0 rest) as Hr.
    change (fixedDigits 4 y)
      with (digitChar (y / 10 ^ Z.of_nat 3)
              :: fixedDigits 3 (y mod 10 ^ Z.of_nat 3)) in *.
    cbn [app readYear] in *.
    rewrite Hplus, Hminus. rewrite Hr by (simpl; lia). do 2 f_equal.
  - destruct (Z.ltb_spec y 0); [lia|]. cbn [app readYear]. simpl Ascii.eqb.
    cbv iota. rewrite readDigits_fixedDigits by (simpl; lia).
    do 2 f_equal. lia.
  - destruct (Z.ltb_spec y 0); [|lia]. cbn [app readYear]. simpl Ascii.eqb.
    cbv iota. rewrite readDigits_fixedDigits by (simpl; lia).
    cbn [mbind option_bind]. rewrite Z.mul_0_l, Z.add_0_l.
    destruct (Z.eqb_spec (Z.abs y) 0); [lia|]. do 2 f_equal. lia.
  - lia.
Qed.

Lemma dayFromYear_step y :
  dayFromYear (y + 1) = dayFromYear y + 365 + inLeapYear y.
Proof.
  unfold dayFromYear, inLeapYear.
  destruct (Z.eqb_spec (y mod 4) 0); destruct (Z.eqb_spec (y mod 100) 0);
    destruct (Z.eqb_spec (y mod 400) 0); simpl;
    Z.div_mod_to_equations; lia.
Qed.

(** YearFromTime of ECMA-262: the year found is the largest one that starts on
    or before the day. *)
Lemma yearFromDay_spec day :
  dayFromYear (yearFromDay day) <= day < dayFromYear (yearFromDay day + 1).
Proof.
  unfold yearFromDay.
  set (y0 := 1970 + 400 * day / 146097).
  assert (H1 : dayFromYear (y0 - 1) <= day).
  { unfold dayFromYear, y0. Z.div_mod_to_equations. lia. }
  assert (H2 : day < dayFromYear (y0 + 2)).
  { unfold dayFromYear, y0. Z.div_mod_to_equations. lia. }
  destruct (Z.leb_spec (dayFromYear (y0 + 1)) day).
  - replace (y0 + 1 + 1) with (y0 + 2) by lia. lia.
  - destruct (Z.ltb_spec day (dayFromYear y0)).
    + replace (y0 - 1 + 1) with y0 by lia. lia.
    + lia.
Qed.

Lemma inLeapYear_range y : inLeapYear y = 0 \/ inLeapYear y = 1.
Proof. unfold inLeapYear. destruct (_ && _); auto. Qed.

Lemma yearFromDay_bound day :
  -100000000 <= day <= 100000000 -> -1000000 < yearFromDay day < 1000000.
Proof.
  intros Hd. pose proof (yearFromDay_spec day) as Hs.
  revert Hs. generalize (yearFromDay day). intros y. unfold dayFromYear.
  intros Hs. Z.div_mod_to_equations. lia.
Qed.

Ltac evalMonthStart :=
  cbv beta iota zeta;
  repeat match goal with
         | |- context [monthStart ?l ?m] =>
             let v := eval vm_compute in (monthStart l m) in
             change (monthStart l m) with v
         end.

(** The calendar fields of a day are in range and give the day back. *)
Lemma civilFromDays_spec day :
  let '(y, m, d) := civilFromDays day in
  1 <= m <= 12 /\ 1 <= d <= daysInMonth y m /\ daysFromCivil y m d = day.
Proof.
  unfold civilFromDays, daysFromCivil, daysInMonth.
  pose proof (yearFromDay_spec day) as Hs.
  rewrite dayFromYear_step in Hs.
  generalize dependent (yearFromDay day). intros y Hs.
  remember (day - dayFromYear y) as doy eqn:Edoy.
  assert (Hdoy : 0 <= doy < 365 + inLeapYear y) by lia.
  destruct (inLeapYear_range y) as [E | E]; rewrite E in *;
    unfold monthFromDayOfYear;
    repeat (match goal with
            | |- context [?a <? ?b] => destruct (Z.ltb_spec a b)
            end; [evalMonthStart; lia|]);
    evalMonthStart; lia.
Qed.

Lemma daysInMonth_le y m : daysInMonth y m <= 31.
Proof.
  unfold daysInMonth, monthStart.
  destruct (inLeapYear_range y) as [-> | ->];
    repeat (match goal with
            | |- context [?a <=? ?b] => destruct (Z.leb_spec a b)
            | |- context [?a =? ?b] => destruct (Z.eqb_spec a b)
            end; try lia).
Qed.

Lemma timeOfDay_fields ms :
  0 <= ms < msPerDay ->
  0 <= ms / 3600000 < 100 /\ ms / 3600000 <= 23 /\
  0 <= ms / 60000 mod 60 < 100 /\ ms / 60000 mod 60 <= 59 /\
  0 <= ms / 1000 mod 60 < 100 /\ ms / 1000 mod 60 <= 59 /\
  0 <= ms mod 1000 < 1000 /\
  ms / 3600000 * 3600000 + ms / 60000 mod 60 * 60000
    + ms / 1000 mod 60 * 1000 + ms mod 1000 = ms.
Proof. unfold msPerDay. intros H. Z.div_mod_to_equations. lia. Qed.

(** Reading one field of the string and the separator after it. *)
Ltac readField :=
  rewrite readDigits_fixedDigits by (simpl; lia); cbn [mbind option_bind];
  rewrite expect_cons; cbn [mbind option_bind].

(** The string written for a time value in range reads back as that time
    value. *)
Lemma parseChars_isoChars t :
  Z.abs t <= maxTime -> parseChars (isoChars t) = Some t.
Proof.
  intros Ht. unfold isoChars.
  assert (Hday : -100000000 <= t / msPerDay <= 100000000).
  { unfold maxTime, msPerDay in *. Z.div_mod_to_equations. lia. }
  assert (Hms : 0 <= t mod msPerDay < msPerDay)
    by (apply Z.mod_pos_bound; reflexivity).
  pose proof (civilFromDays_spec (t / msPerDay)) as Hc.
  pose proof (yearFromDay_bound _ Hday) as Hy.
  destruct (civilFromDays (t / msPerDay)) as [[y m] d] eqn:Ec.
  assert (Hyy : y = yearFromDay (t / msPerDay)).
  { unfold civilFromDays in Ec. now inversion Ec. }
  rewrite <- Hyy in Hy. clear Hyy Ec.
  destruct Hc as (Hm & Hd & Hback).
  destruct (timeOfDay_fields _ Hms)
    as (Hh & Hh' & Hmi & Hmi' & Hs & Hs' & Hml & Hsum).
  pose proof (daysInMonth_le y m) as Hdim.
  unfold parseChars.
  rewrite readYear_yearChars by exact Hy. cbn [mbind option_bind].
  rewrite expect_cons. cbn [mbind option_bind].
  do 6 readField.
  rewrite !Z.mul_0_l, !Z.add_0_l.
  assert (Hv : fieldsValid y m d (t mod msPerDay / 3600000)
                 (t mod msPerDay / 60000 mod 60) (t mod msPerDay / 1000 mod 60)
                 (t mod msPerDay mod 1000) = true).
  { unfold fieldsValid.
    repeat (apply andb_true_intro; split); try (apply Z.leb_le; lia).
    apply orb_true_intro; left.
    repeat (apply andb_true_intro; split); apply Z.leb_le; lia. }
  rewrite Hv. f_equal. rewrite Hback.
  pose proof (Z.div_mod t msPerDay). unfold msPerDay in *. lia.
Qed.
End ISOFacts.

Example toISOString_epoch :
  toISOString (ValidDate 0) = Normal "1970-01-01T00:00:00.000Z"%string.
Proof. reflexivity. Qed.

Example toISOString_sample :
  toISOString (ValidDate 1700000000123) = Normal "2023-11-14T22:13:20.123Z"%string.
Proof. reflexivity. Qed.

Example toISOString_before_epoch :
  toISOString (ValidDate (-1)) = Normal "1969-12-31T23:59:59.999Z"%string.
Proof. reflexivity. Qed.

Example toISOString_latest :
  toISOString (ValidDate maxTime) = Normal "+275760-09-13T00:00:00.000Z"%string.
Proof. reflexivity. Qed.

Example toISOString_earliest :
  toISOString (ValidDate (- maxTime)) = Normal "-271821-04-20T00:00:00.000Z"%string.
Proof. reflexivity. Qed.

Example toISOString_out_of_range :
  toISOString (ValidDate (maxTime + 1)) = Threw "RangeError: Invalid time value".
Proof. reflexivity. Qed.

Example Date_parse_leap_day :
  Date_parse (fun _ => None) "2024-02-29T12:00:00.000Z" = Some 1709208000000.
Proof. reflexivity. Qed.

Example Date_parse_no_such_day :
  Date_parse (fun _ => None) "2023-02-29T12:00:00.000Z" = None.
Proof. reflexivity. Qed.

(** [new Date(d.toISOString())] is [d] again, for a valid date. *)
Lemma newDateOf_toISOString otherFormats d :
  isValidDate d = true ->
  exists iso,
    toISOString d = Normal iso /\
    newDateOf otherFormats (Some (Data (JStr iso))) = Normal d.
Proof.
  destruct d as [t|]; [|discriminate]. simpl. intros Ht.
  rewrite Ht. eexists; split; [reflexivity|].
  unfold Date_parse. rewrite list_ascii_of_string_of_list_ascii.
  apply Z.leb_le in Ht.
  rewrite (ISOFacts.parseChars_isoChars t Ht). unfold newDate.
  apply Z.leb_le in Ht. now rewrite Ht.
Qed.

(** ** The JSON text of a value reads back as the value *)

Module JSONFacts.
Import JSON.

(** *** Strings *)

Lemma parseString_escaped (s rest : list ascii) :
  parseString (flat_map escapeChar s ++ "034"%char :: rest) = Some (s, rest).
Proof.
  induction s as [|c s IH]; [reflexivity|].
  cbn [flat_map]. rewrite <- app_assoc.
  destruct c as [[] [] [] [] [] [] [] []];
    match goal with |- context [escapeChar ?c] =>
      let v := eval vm_compute in (escapeChar c) in
      change (escapeChar c) with v
    end;
    simpl; rewrite IH; reflexivity.
Qed.

Lemma quote_app (s rest : list ascii) :
  quote s ++ rest = "034"%char :: flat_map escapeChar s ++ "034"%char :: rest.
Proof. unfold quote. cbn [app]. now rewrite <- app_assoc. Qed.

(** *** Numbers *)

Lemma uint_chars_numeric (d : Decimal.uint) :
  Forall (fun c => isNumChar c = true)
         (list_ascii_of_string (NilEmpty.string_of_uint d)).
Proof. induction d; simpl; constructor; auto. Qed.

Lemma printZ_numeric (n : Z) : Forall (fun c => isNumChar c = true) (printZ n).
Proof.
  unfold printZ, showZ. destruct (Z.to_int n) as [d|d]; simpl.
  - destruct d; try apply uint_chars_numeric. repeat constructor.
  - constructor; [reflexivity|].
    destruct d; try apply uint_chars_numeric. repeat constructor.
Qed.

Lemma printZ_nonempty (n : Z) : exists c tl, printZ n = c :: tl.
Proof.
  unfold printZ, showZ. destruct (Z.to_int n) as [d|d]; simpl.
  - destruct d; simpl; eauto.
  - eauto.
Qed.

Lemma spanNum_app (tok rest : list ascii) :
  Forall (fun c => isNumChar c = true) tok -> numTerminated rest ->
  spanNum (tok ++ rest) = (tok, rest).
Proof.
  intros Ht Hr. induction Ht as [|c tok Hc _ IH]; cbn [app spanNum].
  - destruct rest as [|c r]; [reflexivity|]. cbn [spanNum numTerminated] in *.
    now rewrite Hr.
  - now rewrite Hc, IH.
Qed.

Lemma to_int_not_nil (n : Z) :
  Z.to_int n <> Decimal.Pos Decimal.Nil /\ Z.to_int n <> Decimal.Neg Decimal.Nil.
Proof.
  destruct n as [|p|p]; simpl; split; try discriminate;
    intros H; inversion H as [H']; now apply Unsigned.to_uint_nonnil in H'.
Qed.

Lemma parseNumber_printZ (n : Z) (rest : list ascii) :
  numTerminated rest -> parseNumber (printZ n ++ rest) = Some (n, rest).
Proof.
  intros Hr. unfold parseNumber.
  rewrite (spanNum_app _ _ (printZ_numeric n) Hr).
  unfold printZ, showZ. rewrite string_of_list_ascii_of_string.
  destruct (to_int_not_nil n) as [H1 H2].
  rewrite (NilZero.isi _ H1 H2). cbn [mbind option_bind].
  rewrite DecimalZ.of_to. unfold list_ascii_eqb. now rewrite String.eqb_refl.
Qed.

(** *** Values *)

Lemma isNumChar_code c :
  isNumChar c = true -> code c = 45 \/ 48 <= code c <= 57.
Proof.
  unfold isNumChar. intros H. apply orb_true_iff in H as [H|H].
  - left. now apply Z.eqb_eq.
  - right. apply andb_true_iff in H as [H1 H2].
    apply Z.leb_le in H1, H2. lia.
Qed.

Lemma printZ_head (n : Z) :
  exists c tl, printZ n = c :: tl /\ isNumChar c = true.
Proof.
  destruct (printZ_nonempty n) as (c & tl & E). exists c, tl. split; [exact E|].
  pose proof (printZ_numeric n) as H. rewrite E in H. now inversion H.
Qed.

Lemma print_starts (j : json) (rest : list ascii) : startsValue (print j ++ rest).
Proof.
  destruct j; cbn [print].
  - repeat split.
  - destruct b; repeat split.
  - destruct (printZ_head n) as (c & tl & -> & Hc). cbn [app startsValue].
    apply isNumChar_code in Hc. unfold isWhiteSpace.
    repeat split;
      repeat match goal with
             | |- context [?a =? ?b] => destruct (Z.eqb_spec a b); try lia
             end; reflexivity.
  - rewrite quote_app. repeat split.
  - repeat split.
  - repeat split.
Qed.

Lemma skipWs_starts (s : list ascii) : startsValue s -> skipWs s = s.
Proof.
  destruct s as [|c s]; [reflexivity|]. intros (H & _). cbn [skipWs].
  now rewrite H.
Qed.

Lemma parseValue_unfold f s :
  parseValue (S f) s =
  match skipWs s with
  | [] => None
  | c :: r =>
      if code c =? 110 then
        r' ← expectWord ["u"; "l"; "l"]%char r; Some (JNull, r')
      else if code c =? 116 then
        r' ← expectWord ["r"; "u"; "e"]%char r; Some (JBool true, r')
      else if code c =? 102 then
        r' ← expectWord ["a"; "l"; "s"; "e"]%char r; Some (JBool false, r')
      else if code c =? 34 then
        '(str, r') ← parseString r;
        Some (JStr (string_of_list_ascii str), r')
      else if code c =? 91 then
        match skipWs r with
        | [] => None
        | c2 :: r2 =>
            if code c2 =? 93 then Some (JArr [], r2)
            else '(elems, r') ← parseElements f r; Some (JArr elems, r')
        end
      else if code c =? 123 then
        match skipWs r with
        | [] => None
        | c2 :: r2 =>
            if code c2 =? 125 then Some (JObj [], r2)
            else '(props, r') ← parseMembers f r; Some (JObj props, r')
        end
      else
        '(n, r') ← parseNumber (c :: r); Some (JNum n, r')
  end.
Proof. reflexivity. Qed.

Lemma parseElements_unfold f s :
  parseElements (S f) s =
  '(v, r) ← parseValue f s;
  match skipWs r with
  | [] => None
  | c :: r1 =>
      if code c =? 44 then
        '(vs, r2) ← parseElements f r1; Some (v :: vs, r2)
      else if code c =? 93 then Some ([v], r1)
      else None
  end.
Proof. reflexivity. Qed.

Lemma parseMembers_unfold f s :
  parseMembers (S f) s =
  match skipWs s with
  | [] => None
  | c :: r =>
      if code c =? 34 then
        '(k, r1) ← parseString r;
        match skipWs r1 with
        | [] => None
        | c1 :: r2 =>
            if code c1 =? 58 then
              '(v, r3) ← parseValue f r2;
              match skipWs r3 with
              | [] => None
              | c3 :: r4 =>
                  if code c3 =? 44 then
                    '(ms, r5) ← parseMembers f r4;
                    Some ((string_of_list_ascii k, v) :: ms, r5)
                  else if code c3 =? 125
                  then Some ([(string_of_list_ascii k, v)], r4)
                  else None
              end
            else None
        end
      else None
  end.
Proof. reflexivity. Qed.

Section Descent.
Variable n : nat.
Hypothesis values :
  forall j, (jsonSize j <= n)%nat ->
  forall fuel rest, (jsonSize j <= fuel)%nat -> numTerminated rest ->
  parseValue fuel (print j ++ rest) = Some (j, rest).

Lemma parseElements_print (l : list json) :
  forall x fuel rest,
    (sizeOfElements (x :: l) <= n)%nat ->
    (sizeOfElements (x :: l) <= fuel)%nat ->
    parseElements fuel (commaSep (map print (x :: l)) ++ "]"%char :: rest)
    = Some (x :: l, rest).
Proof using values.
  induction l as [|y l IH]; intros x fuel rest Hn Hf;
    (destruct fuel as [|f]; [unfold sizeOfElements in Hf; simpl in Hf; lia|]);
    rewrite parseElements_unfold; unfold sizeOfElements in *;
    cbn [map list_sum fold_right] in Hn, Hf.
  - cbn [map commaSep].
    rewrite values by (lia || reflexivity). reflexivity.
  - change (commaSep (map print (x :: y :: l)))
      with (print x ++ ","%char :: commaSep (map print (y :: l))).
    rewrite <- app_assoc, <- app_comm_cons.
    rewrite values by (lia || reflexivity).
    cbn [mbind option_bind]. cbn [skipWs].
    change (isWhiteSpace ",") with false. cbv iota.
    change (code "," =? 44) with true. cbv iota.
    rewrite IH by (cbn [map list_sum fold_right]; lia). reflexivity.
Qed.

Lemma parseMembers_print (l : list (string * json)) :
  forall kv fuel rest,
    (sizeOfMembers (kv :: l) <= n)%nat ->
    (sizeOfMembers (kv :: l) <= fuel)%nat ->
    parseMembers fuel
      (commaSep (map (fun kv => quote (list_ascii_of_string (fst kv))
                                ++ ":"%char :: print (snd kv)) (kv :: l))
       ++ "}"%char :: rest)
    = Some (kv :: l, rest).
Proof using values.
  induction l as [|kv' l IH]; intros [k v] fuel rest Hn Hf;
    (destruct fuel as [|f]; [unfold sizeOfMembers in Hf; simpl in Hf; lia|]);
    rewrite parseMembers_unfold; unfold sizeOfMembers in *;
    cbn [map list_sum fold_right fst snd] in Hn, Hf.
  - cbn [map commaSep fst snd].
    rewrite <- app_assoc, quote_app, <- app_comm_cons.
    cbn [skipWs]. change (isWhiteSpace "034") with false. cbv iota.
    change (code "034" =? 34) with true. cbv iota.
    rewrite parseString_escaped. cbn [mbind option_bind].
    cbn [skipWs]. change (isWhiteSpace ":") with false. cbv iota.
    change (code ":" =? 58) with true. cbv iota.
    rewrite values by (lia || reflexivity).
    cbn [mbind option_bind]. rewrite string_of_list_ascii_of_string.
    reflexivity.
  - change (commaSep (map (fun kv => quote (list_ascii_of_string (fst kv))
                                ++ ":"%char :: print (snd kv)) ((k, v) :: kv' :: l)))
      with ((quote (list_ascii_of_string k) ++ ":"%char :: print v) ++ ","%char ::
            commaSep (map (fun kv => quote (list_ascii_of_string (fst kv))
                                ++ ":"%char :: print (snd kv)) (kv' :: l))).
    rewrite <- !app_assoc, quote_app, <- !app_comm_cons.
    cbn [skipWs]. change (isWhiteSpace "034") with false. cbv iota.
    change (code "034" =? 34) with true. cbv iota.
    rewrite parseString_escaped. cbn [mbind option_bind].
    cbn [skipWs]. change (isWhiteSpace ":") with false. cbv iota.
    change (code ":" =? 58) with true. cbv iota.
    rewrite values by (lia || reflexivity).
    cbn [mbind option_bind]. cbn [skipWs].
    change (isWhiteSpace ",") with false. cbv iota.
    change (code "," =? 44) with true. cbv iota.
    rewrite IH by (cbn [map list_sum fold_right]; lia).
    cbn [mbind option_bind]. rewrite string_of_list_ascii_of_string.
    reflexivity.
Qed.
End Descent.

(** Reading what [print] wrote gives the value back, with any fuel from the
    size of the value on. *)
Lemma parseValue_print (n : nat) :
  forall j, (jsonSize j <= n)%nat ->
  forall fuel rest, (jsonSize j <= fuel)%nat -> numTerminated rest ->
  parseValue fuel (print j ++ rest) = Some (j, rest).
Proof.
  induction n as [|n IHn]; intros j Hn fuel rest Hf Hr.
  - destruct j; simpl in Hn; lia.
  - destruct fuel as [|f]; [destruct j; simpl in Hf; lia|].
    rewrite parseValue_unfold.
    rewrite skipWs_starts by apply print_starts.
    destruct j as [| b | z | s | elems | props].
    + reflexivity.
    + destruct b; reflexivity.
    + cbn [print].
      destruct (printZ_head z) as (c & tl & E & Hc).
      pose proof (parseNumber_printZ z rest Hr) as Hp.
      rewrite E in *. cbn [app] in *.
      apply isNumChar_code in Hc.
      repeat match goal with
             | |- context [?a =? ?b] => destruct (Z.eqb_spec a b); try lia
             end.
      now rewrite Hp.
    + cbn [print]. rewrite quote_app.
      change (code "034" =? 110) with false. cbv iota.
      change (code "034" =? 116) with false. cbv iota.
      change (code "034" =? 102) with false. cbv iota.
      change (code "034" =? 34) with true. cbv iota.
      rewrite parseString_escaped. cbn [mbind option_bind].
      now rewrite string_of_list_ascii_of_string.
    + cbn [print jsonSize] in *. rewrite <- app_comm_cons, <- app_assoc.
      change (code "[" =? 110) with false. cbv iota.
      change (code "[" =? 116) with false. cbv iota.
      change (code "[" =? 102) with false. cbv iota.
      change (code "[" =? 34) with false. cbv iota.
      change (code "[" =? 91) with true. cbv iota.
      destruct elems as [|x l]; [reflexivity|].
      assert (Hs : startsValue (commaSep (map print (x :: l)) ++ ["]"%char] ++ rest)).
      { cbn [map commaSep]. destruct (map print l).
        - apply print_starts.
        - rewrite <- app_assoc. apply print_starts. }
      rewrite (skipWs_starts _ Hs).
      destruct (commaSep (map print (x :: l)) ++ ["]"%char] ++ rest)
        as [|c2 r2] eqn:E; [elim Hs|].
      destruct Hs as (_ & -> & _). rewrite <- E.
      change (["]"%char] ++ rest) with ("]"%char :: rest).
      rewrite (parseElements_print n IHn l x f rest);
        [reflexivity | unfold sizeOfElements; lia | unfold sizeOfElements; lia].
    + cbn [print jsonSize] in *. rewrite <- app_comm_cons, <- app_assoc.
      change (code "{" =? 110) with false. cbv iota.
      change (code "{" =? 116) with false. cbv iota.
      change (code "{" =? 102) with false. cbv iota.
      change (code "{" =? 34) with false. cbv iota.
      change (code "{" =? 91) with false. cbv iota.
      change (code "{" =? 123) with true. cbv iota.
      destruct props as [|kv l]; [reflexivity|].
      assert (Hs : startsValue
                (commaSep (map (fun kv => quote (list_ascii_of_string (fst kv))
                                          ++ ":"%char :: print (snd kv)) (kv :: l))
                 ++ ["}"%char] ++ rest)).
      { cbn [map commaSep]. destruct (map _ l).
        - rewrite <- app_assoc, quote_app. repeat split.
        - rewrite <- !app_assoc, quote_app. repeat split. }
      rewrite (skipWs_starts _ Hs).
      match goal with |- match ?t with _ => _ end = _ =>
        destruct t as [|c2 r2] eqn:E; [elim Hs|] end.
      destruct Hs as (_ & _ & ->). rewrite <- E.
      change (["}"%char] ++ rest) with ("}"%char :: rest).
      rewrite (parseMembers_print n IHn l kv f rest);
        [reflexivity | unfold sizeOfMembers; lia | unfold sizeOfMembers; lia].
Qed.

(** The text of a value is at least as long as the fuel it takes. *)
Lemma commaSep_length (l : list (list ascii)) :
  (list_sum (map (fun x => S (length x)) l) <= S (length (commaSep l)))%nat.
Proof.
  induction l as [|x l IH]; [simpl; lia|].
  destruct l as [|y l]; [simpl; lia|].
  change (commaSep (x :: y :: l)) with (x ++ ","%char :: commaSep (y :: l)).
  rewrite length_app. cbn [map list_sum fold_right length] in *. lia.
Qed.

Lemma jsonSize_length (n : nat) :
  forall j, (jsonSize j <= n)%nat -> (jsonSize j <= length (print j))%nat.
Proof.
  induction n as [|n IHn]; intros j Hn.
  - destruct j; simpl in Hn; lia.
  - destruct j as [| b | z | s | elems | props].
    + simpl; lia.
    + destruct b; simpl; lia.
    + destruct (printZ_head z) as (c & tl & E & _). cbn [print jsonSize].
      rewrite E. simpl; lia.
    + cbn [print jsonSize]. unfold quote. simpl; lia.
    + cbn [print jsonSize] in *. cbn [length]. rewrite length_app. cbn [length].
      pose proof (commaSep_length (map print elems)) as Hc.
      assert (Hl : (list_sum (map (fun x => S (jsonSize x)) elems)
                    <= list_sum (map (fun x => S (length x)) (map print elems)))%nat).
      { assert (Hall : Forall (fun x => (jsonSize x <= n)%nat) elems).
        { clear -Hn. unfold list_sum in Hn.
          induction elems as [|x l IH]; [constructor|].
          cbn [map fold_right] in Hn.
          constructor; [lia | apply IH; lia]. }
        clear -Hall IHn. unfold list_sum.
        induction Hall as [|x l Hx _ IH]; [simpl; lia|].
        cbn [map fold_right]. specialize (IHn x Hx). lia. }
      lia.
    + cbn [print jsonSize] in *. cbn [length]. rewrite length_app. cbn [length].
      pose proof (commaSep_length
                    (map (fun kv => quote (list_ascii_of_string (fst kv))
                                    ++ ":"%char :: print (snd kv)) props)) as Hc.
      assert (Hl : (list_sum (map (fun kv => S (jsonSize (snd kv))) props)
                    <= list_sum (map (fun x => S (length x))
                         (map (fun kv => quote (list_ascii_of_string (fst kv))
                                    ++ ":"%char :: print (snd kv)) props)))%nat).
      { assert (Hall : Forall (fun kv => (jsonSize (snd kv) <= n)%nat) props).
        { clear -Hn. unfold list_sum in Hn.
          induction props as [|x l IH]; [constructor|].
          cbn [map fold_right] in Hn.
          constructor; [lia | apply IH; lia]. }
        clear -Hall IHn. unfold list_sum.
        induction Hall as [|x l Hx _ IH]; [simpl; lia|].
        cbn [map fold_right]. specialize (IHn (snd x) Hx).
        rewrite length_app. cbn [length]. lia. }
      lia.
Qed.

(** [JSON.parse(JSON.stringify(j))] is [j], for every value of [json]. *)
Lemma parse_stringify (j : json) :
  exists txt,
    stringify j = Normal txt /\ txt <> EmptyString /\ parse txt = Normal j.
Proof.
  eexists. split; [reflexivity|]. split.
  - pose proof (print_starts j []) as H. rewrite app_nil_r in H.
    destruct (print j); [elim H | discriminate].
  - unfold parse. rewrite list_ascii_of_string_of_list_ascii.
    pose proof (parseValue_print (jsonSize j) j (Nat.le_refl _)
                  (S (length (print j))) [] ) as H.
    rewrite app_nil_r in H. rewrite H; [reflexivity | | exact I].
    pose proof (jsonSize_length (jsonSize j) j (Nat.le_refl _)). lia.
Qed.
End JSONFacts.

Example stringify_sample :
  JSON.stringify (JArr [JNum (-12); JNull; JBool true; JArr []; JObj []])
  = Normal "[-12,null,true,[],{}]"%string.
Proof. reflexivity. Qed.

Example print_escapes :
  JSON.print (JStr (String "x" (String "\" (String (JSON.char 10) "y"))))
  = ["034"; "x"; "\"; "\"; "\"; "n"; "y"; "034"]%char.
Proof. reflexivity. Qed.

Example parse_with_white_space :
  JSON.parse "[ 1, -20 , [ ], { } ,false]"
  = Normal (JArr [JNum 1; JNum (-20); JArr []; JObj []; JBool false]).
Proof. reflexivity. Qed.

Example parse_rejects_trailing_comma :
  JSON.parse "[1,]" = Threw "SyntaxError: Unexpected token in JSON".
Proof. reflexivity. Qed.

(** ** The persistence adapter *)

(** Reviving the serialized form of a record gives the object of the record. *)
Lemma revive_serialize otherFormats (e : Enrollment.t) :
  isValidDate (Enrollment.enrolledAt e) = true ->
  exists o,
    serializeEnrollment e = Normal o /\
    reviveEnrollment otherFormats (jsonOfObject o) = Normal (toObject e).
Proof.
  intros Hv.
  destruct (newDateOf_toISOString otherFormats _ Hv) as (iso & Hiso & Hback).
  unfold serializeEnrollment. rewrite Hiso. cbn [andThen].
  eexists; split; [reflexivity|].
  destruct e as [i c st d uf ru cl od ea sts rr]. cbn [Enrollment.enrolledAt] in *.
  unfold reviveEnrollment, toObject.
  destruct cl, od, ea, uf, ru, sts, rr;
    cbn -[newDateOf]; rewrite Hback; reflexivity.
Qed.

Lemma fromObject_toObject e : fromObject (toObject e) = Some e.
Proof.
  destruct e as [i [ci cm cd cr] st d uf ru cl od ea sts rr].
  destruct cl, od, ea, uf as [[n sz]|], ru, sts as [[c r g]|], rr; reflexivity.
Qed.

Lemma revive_serialized otherFormats (es : list Enrollment.t) :
  Forall (fun e => isValidDate (Enrollment.enrolledAt e) = true) es ->
  exists objs,
    serialized es = Normal (JArr (map jsonOfObject objs)) /\
    mapCompletion (reviveEnrollment otherFormats) (map jsonOfObject objs)
    = Normal (map toObject es).
Proof.
  intros Hes.
  assert (H : exists objs,
    mapCompletion serializeEnrollment es = Normal objs /\
    mapCompletion (reviveEnrollment otherFormats) (map jsonOfObject objs)
    = Normal (map toObject es)).
  { induction Hes as [|e es He _ (objs & Hs & Hr)].
    - exists []. split; reflexivity.
    - destruct (revive_serialize otherFormats e He) as (o & Ho & Hro).
      exists (o :: objs). cbn [mapCompletion map].
      rewrite Ho, Hro, Hs, Hr. split; reflexivity. }
  destruct H as (objs & Hs & Hr). exists objs. unfold serialized.
  rewrite Hs. split; [reflexivity | exact Hr].
Qed.

(** What [saveEnrollmentsToStorage] does, by the outcome of its three steps. *)
Lemma save_outcome JSON_stringify (es : list Enrollment.t) (b : Browser) :
  saveEnrollmentsToStorage JSON_stringify es b =
  match storedText JSON_stringify es with
  | Threw err => (Normal tt, logged b saveFailed err)
  | Normal txt =>
      if negb (storageAccess b)
      then (Normal tt,
            logged b saveFailed "SecurityError: access to storage is denied")
      else if (quota b <? storageUsage
                 (<[ENROLLMENTS_STORAGE_KEY := txt]> (localStorage b)))%nat
      then (Normal tt,
            logged b saveFailed "QuotaExceededError: the quota has been exceeded")
      else (Normal tt, written b txt)
  end.
Proof.
  unfold saveEnrollmentsToStorage, storedText, tryCatchJS, bindJS, lift.
  destruct (serialized es) as [arr|err]; cbn [andThen]; [|reflexivity].
  destruct (JSON_stringify arr) as [txt|err]; [|reflexivity].
  unfold setItem, written.
  destruct (storageAccess b) eqn:Ha; cbn [negb]; [|reflexivity].
  destruct (quota b <? _)%nat; reflexivity.
Qed.

(** What [loadEnrollmentsFromStorage] does, by the outcome of its steps. *)
Lemma load_outcome JSON_parse otherFormats (b : Browser) :
  loadEnrollmentsFromStorage JSON_parse otherFormats b =
  if negb (storageAccess b)
  then (Normal [],
        logged b loadFailed "SecurityError: access to storage is denied")
  else
    match localStorage b !! ENROLLMENTS_STORAGE_KEY with
    | None => (Normal [], b)
    | Some txt =>
        if String.eqb txt EmptyString then (Normal [], b)
        else
          match JSON_parse txt with
          | Threw err => (Normal [], logged b loadFailed err)
          | Normal (JArr elems) =>
              match mapCompletion (reviveEnrollment otherFormats) elems with
              | Normal l => (Normal l, b)
              | Threw err => (Normal [], logged b loadFailed err)
              end
          | Normal _ =>
              (Normal [],
               logged b loadFailed "TypeError: parsed.map is not a function")
          end
    end.
Proof.
  unfold loadEnrollmentsFromStorage, tryCatchJS, bindJS, getItem.
  destruct (storageAccess b); cbn [negb]; [|reflexivity].
  destruct (localStorage b !! ENROLLMENTS_STORAGE_KEY) as [txt|]; [|reflexivity].
  destruct (String.eqb txt EmptyString); [reflexivity|].
  unfold lift. destruct (JSON_parse txt) as [j|err]; [|reflexivity].
  destruct j; try reflexivity.
Qed.

(** ** C5: failures of the store *)

(** C5.  [loadEnrollmentsFromStorage] never throws and never writes to the
    store; it returns the empty list when the key is absent and when the
    stored text fails to parse (the failure being logged).
    [saveEnrollmentsToStorage] never throws; when the store refuses the write
    (access denied or quota exceeded) the store is left as it was and the
    failure is logged. *)
Theorem storage_failures_degrade
    (JSON_stringify : json -> Completion string)
    (JSON_parse : string -> Completion json)
    (otherFormats : string -> option Z)
    (b : Browser) (es : list Enrollment.t) :
  (exists l b',
     loadEnrollmentsFromStorage JSON_parse otherFormats b = (Normal l, b') /\
     localStorage b' = localStorage b) /\
  (localStorage b !! ENROLLMENTS_STORAGE_KEY = None ->
   exists b',
     loadEnrollmentsFromStorage JSON_parse otherFormats b = (Normal [], b') /\
     localStorage b' = localStorage b /\
     (storageAccess b = true -> b' = b)) /\
  (forall txt err,
     localStorage b !! ENROLLMENTS_STORAGE_KEY = Some txt ->
     JSON_parse txt = Threw err ->
     exists b',
       loadEnrollmentsFromStorage JSON_parse otherFormats b = (Normal [], b') /\
       localStorage b' = localStorage b /\
       (storageAccess b = true -> txt <> EmptyString ->
        b' = logged b loadFailed err)) /\
  (exists b', saveEnrollmentsToStorage JSON_stringify es b = (Normal tt, b')) /\
  (forall txt,
     storedText JSON_stringify es = Normal txt ->
     ~ accepts b txt ->
     exists err,
       saveEnrollmentsToStorage JSON_stringify es b
       = (Normal tt, logged b saveFailed err)).
Proof.
  split; [|split; [|split; [|split]]].
  - rewrite load_outcome.
    destruct (storageAccess b); cbn [negb]; [|eexists _, _; split; reflexivity].
    destruct (localStorage b !! ENROLLMENTS_STORAGE_KEY) as [txt|];
      [|eexists _, _; split; reflexivity].
    destruct (String.eqb txt EmptyString); [eexists _, _; split; reflexivity|].
    destruct (JSON_parse txt) as [j|err]; [|eexists _, _; split; reflexivity].
    destruct j; try (eexists _, _; split; reflexivity).
    destruct (mapCompletion (reviveEnrollment otherFormats) elems);
      eexists _, _; split; reflexivity.
  - intros Hk. rewrite load_outcome, Hk.
    destruct (storageAccess b); cbn [negb].
    + exists b. repeat split.
    + eexists. repeat split. discriminate.
  - intros txt err Hk Hp. rewrite load_outcome, Hk.
    destruct (storageAccess b); cbn [negb].
    + destruct (String.eqb_spec txt EmptyString) as [-> | Hne].
      * exists b. repeat split. intros _ H; now elim H.
      * rewrite Hp. eexists; repeat split.
    + eexists. repeat split. discriminate.
  - rewrite save_outcome.
    destruct (storedText JSON_stringify es); [|eexists; reflexivity].
    destruct (negb (storageAccess b)); [eexists; reflexivity|].
    destruct (quota b <? _)%nat; eexists; reflexivity.
  - intros txt Ht Hn. rewrite save_outcome, Ht.
    destruct (storageAccess b) eqn:Ha; cbn [negb]; [|eexists; reflexivity].
    destruct (Nat.ltb_spec (quota b)
                (storageUsage (<[ENROLLMENTS_STORAGE_KEY := txt]> (localStorage b))));
      [eexists; reflexivity|].
    elim Hn. split; assumption.
Qed.

Lemma storage_failures_degrade_witness :
  (localStorage emptyBrowser !! ENROLLMENTS_STORAGE_KEY = None /\
   loadEnrollmentsFromStorage JSON.parse (fun _ => None) emptyBrowser
   = (Normal [], emptyBrowser)) /\
  (exists b',
     loadEnrollmentsFromStorage JSON.parse (fun _ => None) corruptBrowser
     = (Normal [], b') /\
     localStorage b' = localStorage corruptBrowser /\
     console b' = [(loadFailed ++ " SyntaxError: Unexpected token in JSON")%string]) /\
  (exists err,
     saveEnrollmentsToStorage JSON.stringify sampleEnrollments fullBrowser
     = (Normal tt, logged fullBrowser saveFailed err)).
Proof.
  split; [|split].
  - split; [reflexivity|].
    destruct (storage_failures_degrade JSON.stringify JSON.parse (fun _ => None)
                emptyBrowser []) as (_ & H & _).
    destruct (H eq_refl) as (b' & Hl & _ & Hb). rewrite Hl, (Hb eq_refl).
    reflexivity.
  - destruct (storage_failures_degrade JSON.stringify JSON.parse (fun _ => None)
                corruptBrowser []) as (_ & _ & H & _).
    destruct (H "[{oops"%string "SyntaxError: Unexpected token in JSON"%string
                eq_refl eq_refl) as (b' & Hl & Hs & Hc).
    exists b'. split; [exact Hl|]. split; [exact Hs|].
    rewrite Hc by (reflexivity || discriminate). reflexivity.
  - destruct (storage_failures_degrade JSON.stringify JSON.parse (fun _ => None)
                fullBrowser sampleEnrollments) as (_ & _ & _ & _ & H).
    destruct (storedText JSON.stringify sampleEnrollments) as [txt|] eqn:E;
      [|discriminate E].
    apply (H txt eq_refl). intros [_ Hq].
    vm_compute in E. injection E as <-.
    apply Nat.leb_le in Hq. vm_compute in Hq. discriminate Hq.
Defined.

(** ** C3: the persistence round trip *)

(** Saving changes no key of the store but the enrollment key. *)
Lemma save_touches_one_key JSON_stringify (es : list Enrollment.t) (b : Browser)
    (k : string) :
  k <> ENROLLMENTS_STORAGE_KEY ->
  localStorage (snd (saveEnrollmentsToStorage JSON_stringify es b)) !! k
  = localStorage b !! k.
Proof.
  intros Hk. rewrite save_outcome.
  destruct (storedText JSON_stringify es); [|reflexivity].
  destruct (negb (storageAccess b)); [reflexivity|].
  destruct (quota b <? _)%nat; [reflexivity|].
  cbn [snd written localStorage]. now rewrite lookup_insert_ne.
Qed.

(** The round trip for any implementation of JSON that reads back the text it
    writes for the serialized array. *)
Lemma roundtrip_with_codec JSON_stringify JSON_parse otherFormats
    (b : Browser) (es : list Enrollment.t) :
  Forall (fun e => isValidDate (Enrollment.enrolledAt e) = true) es ->
  exists arr,
    serialized es = Normal arr /\
    forall txt,
      JSON_stringify arr = Normal txt -> txt <> EmptyString ->
      JSON_parse txt = Normal arr ->
      accepts b txt ->
      saveEnrollmentsToStorage JSON_stringify es b = (Normal tt, written b txt) /\
      loadEnrollmentsFromStorage JSON_parse otherFormats (written b txt)
      = (Normal (map toObject es), written b txt).
Proof.
  intros Hes.
  destruct (revive_serialized otherFormats es Hes) as (objs & Hs & Hr).
  eexists; split; [exact Hs|].
  intros txt Ht Hne Hp [Ha Hq]. split.
  - rewrite save_outcome. unfold storedText. rewrite Hs. cbn [andThen].
    rewrite Ht, Ha. cbn [negb].
    destruct (Nat.ltb_spec (quota b)
                (storageUsage (<[ENROLLMENTS_STORAGE_KEY := txt]> (localStorage b))));
      [lia | reflexivity].
  - rewrite load_outcome. cbn [written storageAccess localStorage].
    rewrite Ha, lookup_insert_eq. cbn [negb].
    destruct (String.eqb_spec txt EmptyString); [contradiction|].
    rewrite Hp, Hr. reflexivity.
Qed.

(** C3.  Persistence round trip: for a list of enrollments whose dates are
    valid, [saveEnrollmentsToStorage] hands the store one text; when the store
    takes it, the store holds it under ['snoonu-collaborators-enrollments'] and
    [loadEnrollmentsFromStorage] then returns, without touching the store or
    the console, the objects of the original records: every [enrolledAt] is the
    original date and every other field is unchanged, so that the loaded
    objects read back as the original list.  Whatever the list and the store,
    saving changes no other key. *)
Theorem persistence_roundtrip (otherFormats : string -> option Z)
    (b : Browser) (es : list Enrollment.t) :
  Forall (fun e => isValidDate (Enrollment.enrolledAt e) = true) es ->
  (exists txt,
     storedText JSON.stringify es = Normal txt /\
     (accepts b txt ->
      saveEnrollmentsToStorage JSON.stringify es b = (Normal tt, written b txt) /\
      localStorage (written b txt) !! "snoonu-collaborators-enrollments"%string
      = Some txt /\
      loadEnrollmentsFromStorage JSON.parse otherFormats (written b txt)
      = (Normal (map toObject es), written b txt))) /\
  map fromObject (map toObject es) = map Some es /\
  (forall k, k <> "snoonu-collaborators-enrollments"%string ->
     localStorage (snd (saveEnrollmentsToStorage JSON.stringify es b)) !! k
     = localStorage b !! k).
Proof.
  intros Hes. split; [|split].
  - destruct (roundtrip_with_codec JSON.stringify JSON.parse otherFormats b es Hes)
      as (arr & Hs & H).
    destruct (JSONFacts.parse_stringify arr) as (txt & Ht & Hne & Hp).
    exists txt. split.
    + unfold storedText. rewrite Hs. exact Ht.
    + intros Hacc. destruct (H txt Ht Hne Hp Hacc) as [H1 H2].
      split; [exact H1|]. split; [|exact H2].
      cbn [written localStorage]. apply lookup_insert_eq.
  - rewrite map_map. clear Hes. induction es as [|e es IH]; [reflexivity|].
    cbn [map]. now rewrite fromObject_toObject, IH.
  - intros k Hk. now apply save_touches_one_key.
Qed.

Lemma persistence_roundtrip_witness :
  Forall (fun e => isValidDate (Enrollment.enrolledAt e) = true)
         sampleEnrollments /\
  exists txt,
    storedText JSON.stringify sampleEnrollments = Normal txt /\
    accepts emptyBrowser txt /\
    loadEnrollmentsFromStorage JSON.parse (fun _ => None)
      (snd (saveEnrollmentsToStorage JSON.stringify sampleEnrollments emptyBrowser))
    = (Normal (map toObject sampleEnrollments), written emptyBrowser txt).
Proof.
  assert (Hv : Forall (fun e => isValidDate (Enrollment.enrolledAt e) = true)
                      sampleEnrollments) by (repeat constructor).
  split; [exact Hv|].
  destruct (persistence_roundtrip (fun _ => None) emptyBrowser sampleEnrollments Hv)
    as ((txt & Ht & H) & _ & _).
  exists txt. split; [exact Ht|].
  assert (Hacc : accepts emptyBrowser txt).
  { vm_compute in Ht. injection Ht as <-.
    split; [reflexivity | apply Nat.leb_le; vm_compute; reflexivity]. }
  split; [exact Hacc|].
  destruct (H Hacc) as (H1 & _ & H2). rewrite H1. exact H2.
Defined.

(** * Further properties of the code *)

(** ** Relations between a record and its later versions *)

Section Preserved.
Variable R : Enrollment.t -> Enrollment.t -> Prop.
Hypothesis R_refl : forall a, R a a.
Hypothesis R_trans : forall a b c, R a b -> R b c -> R a c.
Hypothesis R_status : forall s a, R a (Enrollment.withStatus s a).
Hypothesis R_upload : forall f a, R a (Enrollment.withUpload f uploaded a).
Hypothesis R_rejection :
  forall a, R a (Enrollment.withRejection rejected Update.rejectionText a).
Hypothesis R_approval :
  forall s u c o g a, R a (Enrollment.withApproval s u c o g a).

Lemma Forall2_same l : Forall2 R l l.
Proof using R_refl. induction l; constructor; auto. Qed.

Lemma Forall2_chain l1 l2 l3 :
  Forall2 R l1 l2 -> Forall2 R l2 l3 -> Forall2 R l1 l3.
Proof using R_trans.
  intros H. revert l3. induction H as [|a b l1 l2 Hab _ IH]; intros l3 H3;
    inversion H3; subst; constructor; eauto.
Qed.

(** Every step keeps the records it finds, in place and related to what they
    were, and appends at most the record of a new enrollment. *)
Lemma step_preserves rnd s ev :
  exists kept added,
    enrollments (step rnd s ev) = kept ++ added /\
    Forall2 R (enrollments s) kept /\
    (added = [] \/ exists c, added = [Update.newEnrollment (now s) c]).
Proof using R_refl R_trans R_status R_upload R_rejection R_approval.
  assert (Hsame : forall l',
    Forall2 R (enrollments s) l' ->
    exists kept added,
      l' = kept ++ added /\ Forall2 R (enrollments s) kept /\
      (added = [] \/ exists c, added = [Update.newEnrollment (now s) c])).
  { intros l' H. exists l', []. rewrite app_nil_r. auto. }
  assert (Hunder : forall i,
    Forall2 R (enrollments s) (Update.toUnderReview i (enrollments s))).
  { intros i. apply map_Forall2. intros a.
    destruct (String.eqb (Enrollment.id a) i
              && String.eqb (Enrollment.status a) processing); auto. }
  assert (Happ : forall i,
    Forall2 R (enrollments s)
      (fst (Update.toApproved rnd (now s) i (enrollments s) (draws s)))).
  { intros i. apply mapRand_Forall2. intros a m.
    destruct (negb (String.eqb (Enrollment.id a) i)
              || negb (String.eqb (Enrollment.status a) under_review)); auto.
    apply R_approval. }
  destruct ev; cbn [step].
  - exists (enrollments s), [Update.newEnrollment (now s) c].
    split; [reflexivity|]. split; [apply Forall2_same | right; now exists c].
  - apply Hsame, map_Forall2. intros a.
    destruct (String.eqb (Enrollment.id a) enrollmentId); auto.
  - apply Hsame, map_Forall2. intros a.
    destruct (String.eqb (Enrollment.id a) enrollmentId); auto.
  - apply Hsame. rewrite enrollments_advanceEnrollment.
    apply mapRand_Forall2. intros a m.
    destruct (negb (String.eqb (Enrollment.id a) enrollmentId)
              || isTerminalState (Enrollment.status a)); [apply R_refl|].
    destruct (nextEnrollmentState (Enrollment.status a)) as [nx|];
      [|apply R_refl].
    destruct (String.eqb nx EmptyString); [apply R_refl|].
    destruct (String.eqb nx approved); [|apply R_status].
    eapply R_trans; [apply R_status | apply R_approval].
  - apply Hsame. rewrite enrollments_advanceToApproved.
    apply mapRand_Forall2. intros a m.
    destruct (negb (String.eqb (Enrollment.id a) enrollmentId)); auto.
    apply R_approval.
  - apply Hsame, map_Forall2. intros a.
    destruct (String.eqb (Enrollment.id a) enrollmentId); auto.
  - apply Hsame, Forall2_same.
  - apply Hsame.
    destruct (enrollments_fire rnd k s) as [-> | [cb ->]];
      [apply Forall2_same|].
    rewrite enrollments_runCallback.
    destruct cb; [apply Forall2_same | apply Hunder | apply Happ].
Qed.

Lemma run_preserves rnd evs s :
  exists kept added,
    enrollments (run rnd s evs) = kept ++ added /\
    Forall2 R (enrollments s) kept.
Proof using R_refl R_trans R_status R_upload R_rejection R_approval.
  unfold run. revert s. induction evs as [|ev evs IH]; intros s; simpl.
  - exists (enrollments s), []. rewrite app_nil_r. split; [reflexivity|].
    apply Forall2_same.
  - destruct (step_preserves rnd s ev) as (k1 & a1 & E1 & H1 & _).
    destruct (IH (step rnd s ev)) as (k2 & a2 & E2 & H2).
    rewrite E1 in H2. apply Forall2_app_inv_l in H2.
    destruct H2 as (k2a & k2b & Ha & Hb & ->).
    exists k2a, (k2b ++ a2). split; [now rewrite E2, app_assoc|].
    exact (Forall2_chain _ _ _ H1 Ha).
Qed.

(** The record at a position is still there after any run, related to what
    it was. *)
Lemma run_preserves_at rnd evs s k e :
  enrollments s !! k = Some e ->
  exists e', enrollments (run rnd s evs) !! k = Some e' /\ R e e'.
Proof using R_refl R_trans R_status R_upload R_rejection R_approval.
  intros Hk. destruct (run_preserves rnd evs s) as (kept & added & -> & H).
  destruct (Forall2_lookup_l _ _ _ _ _ H Hk) as (e' & He' & HR).
  exists e'. split; [|exact HR].
  rewrite lookup_app_l; [exact He'|]. now apply lookup_lt_Some in He'.
Qed.
End Preserved.

(** ** The identity of a record *)

Lemma sameIdentity_trans a b c :
  sameIdentity a b -> sameIdentity b c -> sameIdentity a c.
Proof.
  intros (H1 & H2 & H3) (H4 & H5 & H6).
  repeat split; congruence.
Qed.

(** X1.  No operation of the hook and no timer removes, moves or re-identifies
    a record: after any sequence of operations, clock advances and timer
    firings, the record at a position of the list is still at that position,
    with the same [id], the same [campaign] and the same [enrolledAt]. *)
Theorem record_identity_kept (rnd : Oracle) (evs : list Event) (s : State)
    (k : nat) (e : Enrollment.t) :
  enrollments s !! k = Some e ->
  exists e', enrollments (run rnd s evs) !! k = Some e' /\ sameIdentity e e'.
Proof.
  apply (run_preserves_at sameIdentity).
  - intros a. repeat split.
  - apply sameIdentity_trans.
  - intros st a. repeat split.
  - intros f a. repeat split.
  - intros a. repeat split.
  - intros st u c o g a. repeat split.
Qed.

Lemma record_identity_kept_witness :
  enrollments approvedState !! 0%nat = Some approvedEnrollment /\
  exists e',
    enrollments (run sampleOracle approvedState rejectedSession) !! 0%nat
    = Some e' /\
    sameIdentity approvedEnrollment e'.
Proof.
  split; [reflexivity|].
  exact (record_identity_kept sampleOracle rejectedSession approvedState 0
           approvedEnrollment eq_refl).
Defined.

(** ** Data written once stay *)

Lemma keepsData_refl a : keepsData a a.
Proof. repeat split; auto. Qed.

Lemma keepsData_trans a b c : keepsData a b -> keepsData b c -> keepsData a c.
Proof.
  intros (H1 & H2 & H3 & H4 & H5 & H6 & H7) (K1 & K2 & K3 & K4 & K5 & K6 & K7).
  repeat split; auto.
  intros r Hr. destruct (H7 r Hr) as [Hb|Hb].
  - apply (K7 r Hb).
  - destruct (K7 _ Hb) as [Hc|Hc]; right; exact Hc.
Qed.

(** X2.  No operation clears a field: an uploaded file, a referral URL, a
    counter or a statistics record that is set is still set after any sequence
    of operations and timer firings (its value may have been overwritten), and
    a rejection reason stays as it is or becomes the text of
    [rejectEnrollment], also when the record is approved afterwards. *)
Theorem optional_fields_never_cleared (rnd : Oracle) (evs : list Event)
    (s : State) (k : nat) (e : Enrollment.t) :
  enrollments s !! k = Some e ->
  exists e', enrollments (run rnd s evs) !! k = Some e' /\ keepsData e e'.
Proof.
  apply (run_preserves_at keepsData).
  - apply keepsData_refl.
  - apply keepsData_trans.
  - intros st a. repeat split; auto.
  - intros f a. repeat split; auto.
  - intros a. repeat split; auto.
  - intros st u c o g a. repeat split; auto.
Qed.

(** A rejected record that is approved afterwards is approved and still
    carries its rejection reason. *)
Lemma optional_fields_never_cleared_witness :
  exists e e',
    enrollments (run sampleOracle initialState (take 5 rejectedSession)) !! 0%nat
    = Some e /\
    Enrollment.rejectionReason e = Some Update.rejectionText /\
    enrollments
      (run sampleOracle
         (run sampleOracle initialState (take 5 rejectedSession))
         [DoApprove "enrollment-1700000000000"]) !! 0%nat = Some e' /\
    Enrollment.status e' = approved /\
    Enrollment.rejectionReason e' = Some Update.rejectionText /\
    keepsData e e'.
Proof.
  match eval vm_compute in
    (enrollments (run sampleOracle initialState (take 5 rejectedSession)) !! 0%nat)
  with
  | Some ?e =>
      destruct (optional_fields_never_cleared sampleOracle
                  [DoApprove "enrollment-1700000000000"]
                  (run sampleOracle initialState (take 5 rejectedSession))
                  0 e eq_refl) as (e' & He' & Hk);
      exists e, e'
  end.
  split; [reflexivity|]. split; [reflexivity|].
  split; [exact He'|].
  vm_compute in He'. injection He' as <-.
  split; [reflexivity|]. split; [reflexivity | exact Hk].
Defined.

(** ** Properties of the records that every operation preserves *)

Lemma mapRand_Forall {A} (P : A -> Prop) (f : A -> Rand A) :
  (forall a m, P a -> P (fst (f a m))) ->
  forall l n, Forall P l -> Forall P (fst (mapRand f l n)).
Proof.
  intros Hf; induction l as [|x l IH]; intros n Hl; simpl.
  - constructor.
  - inversion Hl as [|? ? Hx Hl']; subst. unfold bind.
    specialize (Hf x n Hx).
    destruct (f x n) as [b n1]. specialize (IH n1 Hl').
    destruct (mapRand f l n1) as [bs n2]. simpl in *. constructor; auto.
Qed.

Lemma map_Forall {A} (P : A -> Prop) (f : A -> A) :
  (forall a, P a -> P (f a)) -> forall l, Forall P l -> Forall P (map f l).
Proof. intros Hf; induction 1; simpl; constructor; auto. Qed.

(** The successor of a status is never ['rejected']. *)
Lemma nextEnrollmentState_cases (s n : EnrollmentStatus) :
  nextEnrollmentState s = Some n ->
  n = uploaded \/ n = processing \/ n = under_review \/ n = approved.
Proof.
  unfold nextEnrollmentState.
  repeat (match goal with |- context [if ?c then _ else _] => destruct c end);
    intros H; inversion H; auto.
Qed.

Section Invariant.
Variable rnd : Oracle.
(** What is known of the three counters that an approval draws. *)
Variable okCounters : Z -> Z -> Z -> Prop.
Hypothesis small_draws : forall m,
  okCounters (fst (randomInt rnd 400 100 m)) (fst (randomInt rnd 40 10 (S m)))
             (fst (randomInt rnd 150 50 (S (S m)))).
Hypothesis large_draws : forall m,
  okCounters (fst (randomInt rnd 500 100 m)) (fst (randomInt rnd 50 10 (S m)))
             (fst (randomInt rnd 200 50 (S (S m)))).
Variable P : Enrollment.t -> Prop.
Hypothesis P_new : forall t c, P (Update.newEnrollment t c).
Hypothesis P_upload :
  forall f e, P e -> P (Enrollment.withUpload f uploaded e).
Hypothesis P_status :
  forall st e, P e -> st <> approved -> st <> rejected ->
               P (Enrollment.withStatus st e).
Hypothesis P_rejection :
  forall e, P e -> P (Enrollment.withRejection rejected Update.rejectionText e).
Hypothesis P_approval :
  forall t e0 c o g e,
    P e -> okCounters c o g ->
    P (Enrollment.withApproval approved (Update.referralUrlFor t e0) c o g e).

Lemma toUnderReview_invariant i l :
  Forall P l -> Forall P (Update.toUnderReview i l).
Proof using P_status.
  apply map_Forall. intros a Ha.
  destruct (String.eqb (Enrollment.id a) i
            && String.eqb (Enrollment.status a) processing); [|exact Ha].
  apply P_status; [exact Ha | discriminate | discriminate].
Qed.

Lemma toApproved_invariant t i l n :
  Forall P l -> Forall P (fst (Update.toApproved rnd t i l n)).
Proof using P_approval small_draws.
  apply mapRand_Forall. intros a m Ha.
  destruct (negb (String.eqb (Enrollment.id a) i)
            || negb (String.eqb (Enrollment.status a) under_review));
    [exact Ha|].
  apply P_approval; [exact Ha | apply small_draws].
Qed.

Lemma advanceToApproved_invariant t i l n :
  Forall P l -> Forall P (fst (Update.advanceToApproved rnd t i l n)).
Proof using P_approval large_draws.
  apply mapRand_Forall. intros a m Ha.
  destruct (negb (String.eqb (Enrollment.id a) i)); [exact Ha|].
  apply P_approval; [exact Ha | apply large_draws].
Qed.

Lemma advanceEnrollment_invariant t i l n :
  Forall P l -> Forall P (fst (Update.advanceEnrollment rnd t i l n)).
Proof using P_approval P_status small_draws.
  apply mapRand_Forall. intros a m Ha.
  destruct (negb (String.eqb (Enrollment.id a) i)
            || isTerminalState (Enrollment.status a)); [exact Ha|].
  destruct (nextEnrollmentState (Enrollment.status a)) as [nx|] eqn:En;
    [|exact Ha].
  destruct (String.eqb nx EmptyString); [exact Ha|].
  destruct (String.eqb_spec nx approved) as [-> | Hna].
  - exact (P_approval t a _ _ _ a Ha (small_draws m)).
  - apply P_status; [exact Ha | exact Hna |].
    destruct (nextEnrollmentState_cases _ _ En) as [-> | [-> | [-> | ->]]];
      discriminate.
Qed.

Lemma step_invariant s ev :
  Forall P (enrollments s) -> Forall P (enrollments (step rnd s ev)).
Proof using P_new P_upload P_status P_rejection P_approval small_draws large_draws.
  intros Hs. destruct ev; cbn [step].
  - apply Forall_app. split; [exact Hs | repeat constructor; apply P_new].
  - apply map_Forall; [|exact Hs]. intros a Ha.
    destruct (String.eqb (Enrollment.id a) enrollmentId); auto.
  - apply map_Forall; [|exact Hs]. intros a Ha.
    destruct (String.eqb (Enrollment.id a) enrollmentId); [|exact Ha].
    apply P_status; [exact Ha | discriminate | discriminate].
  - rewrite enrollments_advanceEnrollment.
    now apply advanceEnrollment_invariant.
  - rewrite enrollments_advanceToApproved.
    now apply advanceToApproved_invariant.
  - apply map_Forall; [|exact Hs]. intros a Ha.
    destruct (String.eqb (Enrollment.id a) enrollmentId); auto.
  - exact Hs.
  - destruct (enrollments_fire rnd k s) as [-> | [cb ->]]; [exact Hs|].
    rewrite enrollments_runCallback.
    destruct cb; [exact Hs | now apply toUnderReview_invariant
                 | now apply toApproved_invariant].
Qed.

Lemma run_invariant evs s :
  Forall P (enrollments s) -> Forall P (enrollments (run rnd s evs)).
Proof using P_new P_upload P_status P_rejection P_approval small_draws large_draws.
  unfold run. revert s. induction evs as [|ev evs IH]; intros s Hs; simpl;
    [exact Hs|].
  apply IH, step_invariant, Hs.
Qed.
End Invariant.

(** ** The approval data of a record *)

(** X3.  With every draw of the random source a double in [0, 1), and each
    product with a range rounded to a double: from a state in which
    every record either has never been approved (no referral URL, no
    statistics, counters at zero, a status other than ['approved']) or carries
    complete approval data (a non-empty referral URL, counters with 100 <=
    clicks <= 599, 10 <= orders <= 59, 50 <= earnings <= 249, and [stats] equal
    to the counters), every sequence of operations and timer firings leads to
    such a state.  In particular an approved record always has its referral URL
    and statistics, and the data of an approval outlive a later upload,
    submission or rejection. *)
Theorem approval_data_consistent (rnd : Oracle) (evs : list Event) (s : State) :
  unitInterval rnd ->
  Forall approvalConsistent (enrollments s) ->
  Forall approvalConsistent (enrollments (run rnd s evs)).
Proof.
  intros Hu.
  apply (run_invariant rnd
           (fun c o g => 100 <= c <= 599 /\ 10 <= o <= 59 /\ 50 <= g <= 249)).
  - intros m. pose proof (small_counters rnd m Hu). lia.
  - intros m. pose proof (large_counters rnd m Hu). lia.
  - intros t c. left. repeat split. discriminate.
  - intros f e [[Hn _]|Hd]; [left | right].
    + split; [exact Hn | discriminate].
    + exact Hd.
  - intros st e [[Hn _]|Hd] Ha _; [left | right].
    + split; [exact Hn | exact Ha].
    + exact Hd.
  - intros e [[Hn _]|Hd]; [left | right].
    + split; [exact Hn | discriminate].
    + exact Hd.
  - intros t e0 c o g e _ (Hc & Ho & Hg). right.
    exists (Update.referralUrlFor t e0), c, o, g.
    repeat split; try reflexivity; try lia.
    apply referralUrlFor_nonempty.
Qed.

Lemma approval_data_consistent_witness :
  unitInterval sampleOracle /\
  Forall approvalConsistent (enrollments initialState) /\
  Forall approvalConsistent
    (enrollments (run sampleOracle initialState approvedSession)).
Proof.
  assert (H : Forall approvalConsistent (enrollments initialState))
    by constructor.
  split; [exact sampleOracle_unitInterval|]. split; [exact H|].
  exact (approval_data_consistent sampleOracle approvedSession initialState
           sampleOracle_unitInterval H).
Defined.

(** ** The rejection reason of a record *)

(** X4.  From a state in which every record either has no rejection reason and
    is not rejected, or has the text of [rejectEnrollment] as its reason, every
    sequence of operations and timer firings leads to such a state: a rejected
    record always carries the reason, and the only reason ever written is that
    text. *)
Theorem rejection_reason_consistent (rnd : Oracle) (evs : list Event)
    (s : State) :
  Forall rejectionConsistent (enrollments s) ->
  Forall rejectionConsistent (enrollments (run rnd s evs)).
Proof.
  apply (run_invariant rnd (fun _ _ _ => True)); try (intros; exact I).
  - intros t c. left. split; [reflexivity | discriminate].
  - intros f e [[Hn _]|Hd]; [left | right].
    + split; [exact Hn | discriminate].
    + exact Hd.
  - intros st e [[Hn _]|Hd] _ Hr; [left | right].
    + split; [exact Hn | exact Hr].
    + exact Hd.
  - intros e _. right. reflexivity.
  - intros t e0 c o g e [[Hn _]|Hd] _; [left | right].
    + split; [exact Hn | discriminate].
    + exact Hd.
Qed.

Lemma rejection_reason_consistent_witness :
  Forall rejectionConsistent (enrollments initialState) /\
  Forall rejectionConsistent
    (enrollments (run sampleOracle initialState rejectedSession)) /\
  map Enrollment.rejectionReason
    (enrollments (run sampleOracle initialState rejectedSession))
  = [Some Update.rejectionText].
Proof.
  assert (H : Forall rejectionConsistent (enrollments initialState))
    by constructor.
  split; [exact H|]. split; [|reflexivity].
  exact (rejection_reason_consistent sampleOracle rejectedSession initialState H).
Defined.

(** ** The clock and the dates of the records *)

Lemma now_setEnrollmentsRand f s : now (setEnrollmentsRand f s) = now s.
Proof. unfold setEnrollmentsRand. now destruct (f (enrollments s) (draws s)). Qed.

Lemma now_runCallback rnd cb s : now (runCallback rnd cb s) = now s.
Proof. destruct cb; simpl; try reflexivity. apply now_setEnrollmentsRand. Qed.

(** Only the passing of time moves the clock, and only forward. *)
Lemma now_step rnd s ev :
  now (step rnd s ev) =
  now s + match ev with Elapse ms => Z.max 0 ms | _ => 0 end.
Proof.
  destruct ev; cbn [step]; try (simpl; lia).
  - unfold advanceEnrollment. rewrite now_setEnrollmentsRand. lia.
  - unfold advanceToApproved, showToast, setTimeout, setToast. simpl.
    rewrite now_setEnrollmentsRand. lia.
  - unfold fire. destruct (nth_error (timers s) k) as [t|]; [|lia].
    destruct (due t <=? now s); [|lia].
    rewrite now_runCallback. simpl. lia.
Qed.

Lemma now_run_le rnd evs s : now s <= now (run rnd s evs).
Proof.
  unfold run. revert s. induction evs as [|ev evs IH]; intros s; simpl; [lia|].
  specialize (IH (step rnd s ev)). rewrite now_step in IH.
  destruct ev; lia.
Qed.

Lemma sameIdentity_validDates l l' :
  Forall2 sameIdentity l l' -> validDates l -> validDates l'.
Proof.
  unfold validDates.
  induction 1 as [|a b l l' (_ & _ & Hd) _ IH]; intros Hl; [constructor|].
  inversion Hl; subst. constructor; [now rewrite Hd | auto].
Qed.

Lemma step_validDates rnd s ev :
  Z.abs (now s) <= maxTime ->
  validDates (enrollments s) -> validDates (enrollments (step rnd s ev)).
Proof.
  intros Hn Hs.
  destruct (step_preserves sameIdentity) with (rnd := rnd) (s := s) (ev := ev)
    as (kept & added & -> & Hk & Ha).
  - intros a. repeat split.
  - apply sameIdentity_trans.
  - intros st a. repeat split.
  - intros f a. repeat split.
  - intros a. repeat split.
  - intros st u c o g a. repeat split.
  - apply Forall_app. split; [eapply sameIdentity_validDates; eauto|].
    destruct Ha as [-> | [c ->]]; [constructor|].
    repeat constructor. simpl. unfold newDate.
    destruct (Z.leb_spec (Z.abs (now s)) maxTime) as [H|H]; [|lia].
    simpl. now apply Z.leb_le.
Qed.

(** X5.  Valid dates are kept.  From a state in which every record has a
    valid date (the empty list is one; a list loaded from a damaged store,
    which may hold an Invalid Date, need not be), and while the clock stays
    within the range of time values: after any sequence of operations, clock
    advances and timer firings, all dates are valid and there is a text that
    [saveEnrollmentsToStorage] stores the list as. *)
Theorem dates_stay_valid (rnd : Oracle) (evs : list Event) (s : State) :
  validDates (enrollments s) ->
  - maxTime <= now s ->
  now (run rnd s evs) <= maxTime ->
  validDates (enrollments (run rnd s evs)) /\
  exists txt,
    storedText JSON.stringify (enrollments (run rnd s evs)) = Normal txt.
Proof.
  intros Hs Hlo Hhi.
  assert (Hv : validDates (enrollments (run rnd s evs))).
  { unfold run in *. revert s Hs Hlo Hhi.
    induction evs as [|ev evs IH]; intros s Hs Hlo Hhi; simpl in *; [exact Hs|].
    pose proof (now_run_le rnd evs (step rnd s ev)) as Hmono.
    unfold run in Hmono. pose proof (now_step rnd s ev) as Hstep.
    apply IH; [|destruct ev; lia | exact Hhi].
    apply step_validDates; [|exact Hs]. destruct ev; lia. }
  split; [exact Hv|].
  destruct (revive_serialized (fun _ => None) _ Hv) as (objs & Hser & _).
  unfold storedText. rewrite Hser. eexists. reflexivity.
Qed.

Lemma dates_stay_valid_witness :
  validDates (enrollments initialState) /\
  validDates (enrollments (run sampleOracle initialState approvedSession)) /\
  exists txt,
    storedText JSON.stringify
      (enrollments (run sampleOracle initialState approvedSession))
    = Normal txt.
Proof.
  assert (H : validDates (enrollments initialState)) by constructor.
  split; [exact H|].
  apply (dates_stay_valid sampleOracle approvedSession initialState H).
  - vm_compute. discriminate.
  - vm_compute. discriminate.
Defined.

(** ** Saving a list that holds an Invalid Date *)

Lemma toISOString_invalid d :
  isValidDate d = false -> toISOString d = Threw "RangeError: Invalid time value".
Proof.
  destruct d as [t|]; simpl; [|reflexivity]. now intros ->.
Qed.

Lemma toISOString_outcome d :
  (exists iso, toISOString d = Normal iso) \/
  toISOString d = Threw "RangeError: Invalid time value".
Proof.
  destruct d as [t|]; simpl; [|now right].
  destruct (Z.abs t <=? maxTime); [left; eexists; reflexivity | now right].
Qed.

Lemma serialize_invalid (es : list Enrollment.t) :
  Exists (fun e => isValidDate (Enrollment.enrolledAt e) = false) es ->
  mapCompletion serializeEnrollment es = Threw "RangeError: Invalid time value".
Proof.
  induction 1 as [e es He | e es _ IH]; cbn [mapCompletion];
    unfold serializeEnrollment at 1.
  - now rewrite (toISOString_invalid _ He).
  - destruct (toISOString_outcome (Enrollment.enrolledAt e)) as [[iso ->] | ->];
      [|reflexivity].
    cbn [andThen]. now rewrite IH.
Qed.

(** X6.  One record with an Invalid Date keeps the whole list from being saved:
    whatever the other records and whatever the store, [toISOString] throws a
    [RangeError] before anything is written, the store is left as it was, and
    the failure is logged. *)
Theorem invalid_date_blocks_save
    (JSON_stringify : json -> Completion string)
    (es : list Enrollment.t) (b : Browser) :
  Exists (fun e => isValidDate (Enrollment.enrolledAt e) = false) es ->
  saveEnrollmentsToStorage JSON_stringify es b
  = (Normal tt, logged b saveFailed "RangeError: Invalid time value") /\
  localStorage (snd (saveEnrollmentsToStorage JSON_stringify es b))
  = localStorage b.
Proof.
  intros H. rewrite save_outcome. unfold storedText, serialized.
  rewrite (serialize_invalid es H). split; reflexivity.
Qed.

Lemma invalid_date_blocks_save_witness :
  Exists (fun e => isValidDate (Enrollment.enrolledAt e) = false) undatedList /\
  saveEnrollmentsToStorage JSON.stringify undatedList emptyBrowser
  = (Normal tt, logged emptyBrowser saveFailed "RangeError: Invalid time value") /\
  localStorage
    (snd (saveEnrollmentsToStorage JSON.stringify undatedList emptyBrowser))
  = localStorage emptyBrowser.
Proof.
  assert (H : Exists (fun e => isValidDate (Enrollment.enrolledAt e) = false)
                     undatedList).
  { apply Exists_cons_tl, Exists_cons_hd. reflexivity. }
  split; [exact H|].
  exact (invalid_date_blocks_save JSON.stringify undatedList emptyBrowser H).
Defined.

(** ** Loading an array *)

Lemma getProp_setProp_eq {V} (k : string) (v : V) (o : list (string * V)) :
  getProp k (setProp k v o) = Some v.
Proof.
  induction o as [|[k' v'] o IH]; simpl.
  - now rewrite String.eqb_refl.
  - destruct (String.eqb_spec k' k) as [-> | Hne]; simpl.
    + now rewrite String.eqb_refl.
    + destruct (String.eqb_spec k' k); [contradiction | exact IH].
Qed.

Lemma getProp_setProp_ne {V} (k k' : string) (v : V) (o : list (string * V)) :
  k' <> k -> getProp k' (setProp k v o) = getProp k' o.
Proof.
  intros Hne. induction o as [|[k0 v0] o IH]; simpl.
  - destruct (String.eqb_spec k k'); [congruence | reflexivity].
  - destruct (String.eqb_spec k0 k) as [-> | H0]; simpl.
    + destruct (String.eqb_spec k k'); [congruence | reflexivity].
    + destruct (String.eqb_spec k0 k'); [reflexivity | exact IH].
Qed.

(** Induction on a JSON value, with the property known of the values it
    holds. *)
Lemma json_nested_ind (P : json -> Prop) :
  P JNull -> (forall b, P (JBool b)) -> (forall n, P (JNum n)) ->
  (forall s, P (JStr s)) ->
  (forall elems, Forall P elems -> P (JArr elems)) ->
  (forall props, Forall (fun kv => P (snd kv)) props -> P (JObj props)) ->
  forall j, P j.
Proof.
  intros Hn Hb Hm Hs Ha Ho. fix IH 1. intros [| b | n | s | elems | props].
  - exact Hn.
  - apply Hb.
  - apply Hm.
  - apply Hs.
  - apply Ha. induction elems as [|x l IHl]; constructor; [apply IH | exact IHl].
  - apply Ho.
    induction props as [|[k v] l IHl]; constructor; [apply IH | exact IHl].
Qed.

Lemma ToString_JArr (elems : list json) :
  ToString (JArr elems)
  = andThen (mapCompletion elementString elems)
      (fun ss => Normal (String.concat "," ss)).
Proof.
  cbn [ToString]. f_equal.
  induction elems as [|x l IH]; [reflexivity|].
  cbn [mapCompletion]. rewrite <- IH. destruct x; reflexivity.
Qed.

(** [ToString] throws exactly when the conversion meets an object with an own
    [toString]. *)
Lemma ToString_outcome (j : json) :
  if meetsOwnToString j then ToString j = Threw notPrimitive
  else exists s, ToString j = Normal s.
Proof.
  induction j as [| b | n | s | elems IH | props _] using json_nested_ind;
    try (cbn; eexists; reflexivity).
  - rewrite ToString_JArr. cbn [meetsOwnToString].
    assert (H : if existsb meetsOwnToString elems
                then mapCompletion elementString elems = Threw notPrimitive
                else exists ss, mapCompletion elementString elems = Normal ss).
    { induction IH as [|x l Hx _ IHl]; [cbn; eexists; reflexivity|].
      cbn [existsb mapCompletion].
      assert (Hx' : if meetsOwnToString x
                    then elementString x = Threw notPrimitive
                    else exists s, elementString x = Normal s).
      { destruct x; try exact Hx. cbn. eexists; reflexivity. }
      destruct (meetsOwnToString x); cbn [orb].
      - now rewrite Hx'.
      - destruct Hx' as [s ->]. cbn [andThen].
        destruct (existsb meetsOwnToString l).
        + now rewrite IHl.
        + destruct IHl as [ss ->]. cbn. eexists; reflexivity. }
    destruct (existsb meetsOwnToString elems).
    + now rewrite H.
    + destruct H as [ss ->]. cbn. eexists; reflexivity.
  - cbn. destruct (hasOwn "toString" props); [reflexivity | eexists; reflexivity].
Qed.

(** [new Date] throws exactly when its argument has no primitive. *)
Lemma newDateOf_outcome otherFormats (v : option PropertyValue) :
  if match v with Some (Data j) => meetsOwnToString j | _ => false end
  then newDateOf otherFormats v = Threw notPrimitive
  else exists d, newDateOf otherFormats v = Normal d.
Proof.
  destruct v as [[j|d]|]; try (cbn; eexists; reflexivity).
  pose proof (ToString_outcome j) as H.
  destruct j; try (cbn; eexists; reflexivity);
    unfold newDateOf; destruct (meetsOwnToString _).
  - now rewrite H.
  - destruct H as [s ->]. cbn [andThen]. eexists; reflexivity.
  - now rewrite H.
  - destruct H as [s ->]. cbn [andThen]. eexists; reflexivity.
Qed.

Lemma reviveEnrollment_revived otherFormats (j : json) :
  unreadable j = false ->
  exists o, reviveEnrollment otherFormats j = Normal o /\ revived otherFormats j o.
Proof.
  intros Hj.
  pose proof (newDateOf_outcome otherFormats
                (getProp "enrolledAt" (ownProperties j))) as H.
  assert (Hv : match getProp "enrolledAt" (ownProperties j) with
               | Some (Data v) => meetsOwnToString v
               | _ => false
               end = false).
  { destruct j; try exact Hj. discriminate Hj. }
  rewrite Hv in H. destruct H as [d Hd].
  exists (setProp "enrolledAt" (DateObject d) (ownProperties j)).
  split.
  { destruct j; try discriminate Hj;
      unfold reviveEnrollment; rewrite Hd; reflexivity. }
  split; [exists d; split; [exact Hd | apply getProp_setProp_eq]|]. split.
  - intros Hn. rewrite Hn in Hd. injection Hd as <-. apply getProp_setProp_eq.
  - intros k Hk. now apply getProp_setProp_ne.
Qed.

Lemma reviveEnrollment_throws otherFormats (j : json) :
  unreadable j = true ->
  exists err,
    In err ["TypeError: Cannot read properties of null"%string; notPrimitive] /\
    reviveEnrollment otherFormats j = Threw err.
Proof.
  intros Hj.
  assert (Hcases : j = JNull \/ j <> JNull)
    by (destruct j; [left; reflexivity | right; discriminate..]).
  destruct Hcases as [-> | Hne].
  { eexists. split; [left; reflexivity | reflexivity]. }
  pose proof (newDateOf_outcome otherFormats
                (getProp "enrolledAt" (ownProperties j))) as H.
  assert (Hv : match getProp "enrolledAt" (ownProperties j) with
               | Some (Data v) => meetsOwnToString v
               | _ => false
               end = true).
  { destruct j; try exact Hj. now elim Hne. }
  rewrite Hv in H. exists notPrimitive. split; [right; left; reflexivity|].
  destruct j; try (now elim Hne); unfold reviveEnrollment; rewrite H; reflexivity.
Qed.

Lemma revive_all otherFormats (elems : list json) :
  Forall (fun j => unreadable j = false) elems ->
  exists objs,
    mapCompletion (reviveEnrollment otherFormats) elems = Normal objs /\
    Forall2 (revived otherFormats) elems objs.
Proof.
  induction 1 as [|j elems Hj _ IH].
  - exists []. split; [reflexivity | constructor].
  - destruct (reviveEnrollment_revived otherFormats j Hj) as (o & Ho & Hr).
    destruct IH as (objs & Hobjs & Hall).
    exists (o :: objs). cbn [mapCompletion]. rewrite Ho, Hobjs.
    split; [reflexivity | now constructor].
Qed.

Lemma revive_some_unreadable otherFormats (elems : list json) :
  Exists (fun j => unreadable j = true) elems ->
  exists err,
    In err ["TypeError: Cannot read properties of null"%string; notPrimitive] /\
    mapCompletion (reviveEnrollment otherFormats) elems = Threw err.
Proof.
  induction elems as [|j elems IH]; intros Hn; [inversion Hn|].
  cbn [mapCompletion].
  destruct (unreadable j) eqn:Hj.
  - destruct (reviveEnrollment_throws otherFormats j Hj) as (err & Hin & ->).
    exists err. split; [exact Hin | reflexivity].
  - destruct (reviveEnrollment_revived otherFormats j Hj) as (o & -> & _).
    inversion Hn as [? ? Hh | ? ? Ht]; subst; [congruence|].
    destruct (IH Ht) as (err & Hin & ->).
    exists err. split; [exact Hin | reflexivity].
Qed.

(** X7.  [loadEnrollmentsFromStorage] checks nothing but the shape of the text.
    When the stored text parses to an array (of values whose numbers are safe
    integers): an element that is [null], or whose [enrolledAt] cannot be
    converted to a primitive (an object with an own [toString], or an array
    that holds one), makes the load fail as a whole: the empty list is
    returned and a [TypeError] is logged, whatever the other elements are.
    When no element is of this kind, one object is returned for every element,
    in order, whose [enrolledAt] is the [Date] object that [new Date] makes
    from the stored property (an Invalid Date when the element has none) and
    whose other properties read as stored. *)
Theorem load_revives_every_element
    (JSON_parse : string -> Completion json)
    (otherFormats : string -> option Z)
    (b : Browser) (txt : string) (elems : list json) :
  storageAccess b = true ->
  localStorage b !! ENROLLMENTS_STORAGE_KEY = Some txt ->
  txt <> EmptyString ->
  JSON_parse txt = Normal (JArr elems) ->
  Forall (fun j => safeIntegers j = true) elems ->
  (Exists (fun j => unreadable j = true) elems ->
   exists err,
     In err ["TypeError: Cannot read properties of null"%string; notPrimitive] /\
     loadEnrollmentsFromStorage JSON_parse otherFormats b
     = (Normal [], logged b loadFailed err)) /\
  (Forall (fun j => unreadable j = false) elems ->
   exists objs,
     loadEnrollmentsFromStorage JSON_parse otherFormats b = (Normal objs, b) /\
     Forall2 (revived otherFormats) elems objs).
Proof.
  intros Ha Hk Hne Hp _. rewrite load_outcome, Ha, Hk, Hp. cbn [negb].
  destruct (String.eqb_spec txt EmptyString); [contradiction|]. split.
  - intros Hn.
    destruct (revive_some_unreadable otherFormats elems Hn) as (err & Hin & ->).
    exists err. split; [exact Hin | reflexivity].
  - intros Hn. destruct (revive_all otherFormats elems Hn) as (objs & -> & H).
    exists objs. split; [reflexivity | exact H].
Qed.

Lemma load_revives_every_element_witness :
  loadEnrollmentsFromStorage JSON.parse (fun _ => None)
    (browserHolding storedWithNull)
  = (Normal [],
     logged (browserHolding storedWithNull) loadFailed
       "TypeError: Cannot read properties of null") /\
  loadEnrollmentsFromStorage JSON.parse (fun _ => None)
    (browserHolding storedWithToString)
  = (Normal [],
     logged (browserHolding storedWithToString) loadFailed notPrimitive) /\
  exists objs,
    loadEnrollmentsFromStorage JSON.parse (fun _ => None)
      (browserHolding storedWithoutDate)
    = (Normal objs, browserHolding storedWithoutDate) /\
    Forall2 (revived (fun _ => None))
      [JObj [("id"%string, JStr "enrollment-1");
             ("status"%string, JStr "enrolled")]] objs.
Proof.
  split; [|split].
  - vm_compute. reflexivity.
  - vm_compute. reflexivity.
  - refine (proj2 (load_revives_every_element JSON.parse (fun _ => None)
                     (browserHolding storedWithoutDate) _ _
                     eq_refl eq_refl _ _ _) _).
    + vm_compute. discriminate.
    + vm_compute. reflexivity.
    + repeat constructor.
    + repeat constructor.
Defined.

(** ** The ids of new enrollments *)

Lemma showZ_inj (a b : Z) : showZ a = showZ b -> a = b.
Proof.
  unfold showZ. intros H.
  destruct (JSONFacts.to_int_not_nil a) as [Ha1 Ha2].
  destruct (JSONFacts.to_int_not_nil b) as [Hb1 Hb2].
  pose proof (NilZero.isi (Z.to_int a) Ha1 Ha2) as Ia.
  pose proof (NilZero.isi (Z.to_int b) Hb1 Hb2) as Ib.
  rewrite H in Ia. rewrite Ia in Ib. injection Ib as Hab.
  rewrite <- (DecimalZ.of_to a), <- (DecimalZ.of_to b). now rewrite Hab.
Qed.

Lemma newEnrollment_id_inj t1 t2 c1 c2 :
  Enrollment.id (Update.newEnrollment t1 c1)
  = Enrollment.id (Update.newEnrollment t2 c2) <-> t1 = t2.
Proof.
  split; [|now intros ->].
  cbn [Update.newEnrollment Enrollment.id]. intros H.
  apply showZ_inj. simpl in H. now repeat (injection H as H).
Qed.

(** X8.  The id of an enrollment is made of the clock reading alone.  Two
    enrollments made one after the other have different ids exactly when time
    has passed between them; when none has, they share one id, and an operation
    called with that id (here [uploadFile]) rewrites both. *)
Theorem enrollment_ids_follow_the_clock (c1 c2 : Campaign.t) (s : State)
    (ms : Z) (f : File) :
  exists e1 e2,
    enrollments (enrollInCampaign c2 (elapse ms (enrollInCampaign c1 s)))
    = enrollments s ++ [e1; e2] /\
    Enrollment.campaign e1 = c1 /\ Enrollment.campaign e2 = c2 /\
    (Enrollment.id e1 = Enrollment.id e2 <-> ms <= 0) /\
    (ms <= 0 ->
     exists e1' e2',
       Update.uploadFile (Enrollment.id e2) f [e1; e2] = [e1'; e2'] /\
       Enrollment.status e1' = uploaded /\ Enrollment.status e2' = uploaded).
Proof.
  exists (Update.newEnrollment (now s) c1),
         (Update.newEnrollment (now s + Z.max 0 ms) c2).
  split.
  { unfold enrollInCampaign, showToast, setTimeout, setToast, setEnrollments,
      Update.enrollInCampaign, elapse. cbn. now rewrite <- app_assoc. }
  split; [reflexivity|]. split; [reflexivity|].
  assert (Hid : Enrollment.id (Update.newEnrollment (now s) c1)
                = Enrollment.id (Update.newEnrollment (now s + Z.max 0 ms) c2)
                <-> ms <= 0).
  { rewrite newEnrollment_id_inj. lia. }
  split; [exact Hid|].
  intros Hms. apply Hid in Hms.
  unfold Update.uploadFile. cbn [map]. rewrite Hms, String.eqb_refl.
  eexists _, _. split; [reflexivity|]. split; reflexivity.
Qed.

(** ** How the setters compose *)

Lemma map_pointwise {A} (f g : A -> A) (l : list A) :
  (forall a, f a = g a) -> map f l = map g l.
Proof. intros H. induction l; simpl; [reflexivity | now rewrite H, IHl]. Qed.

Ltac byId :=
  repeat match goal with
         | |- context [String.eqb ?a ?b] =>
             destruct (String.eqb_spec a b); simpl in *; subst
         end;
  try reflexivity; try congruence.

(** X9.  The three setters that draw no random number overwrite: on the list,
    uploading twice for one id is uploading the second file, and rejecting or
    submitting twice is doing it once.  Setters called with different ids
    commute. *)
Theorem setters_overwrite_and_commute (i j : string) (f1 f2 : File)
    (l : list Enrollment.t) :
  Update.uploadFile i f2 (Update.uploadFile i f1 l) = Update.uploadFile i f2 l /\
  Update.rejectEnrollment i (Update.rejectEnrollment i l)
  = Update.rejectEnrollment i l /\
  Update.submitForReview i (Update.submitForReview i l)
  = Update.submitForReview i l /\
  (i <> j ->
   Update.uploadFile i f1 (Update.rejectEnrollment j l)
   = Update.rejectEnrollment j (Update.uploadFile i f1 l) /\
   Update.uploadFile i f1 (Update.submitForReview j l)
   = Update.submitForReview j (Update.uploadFile i f1 l) /\
   Update.uploadFile i f1 (Update.uploadFile j f2 l)
   = Update.uploadFile j f2 (Update.uploadFile i f1 l) /\
   Update.rejectEnrollment i (Update.submitForReview j l)
   = Update.submitForReview j (Update.rejectEnrollment i l)).
Proof.
  unfold Update.uploadFile, Update.rejectEnrollment, Update.submitForReview.
  repeat split; try intros Hij; rewrite !map_map; apply map_pointwise;
    intros a; byId.
Qed.

(** ** The timers of a submission *)

Lemma fire_due rnd j st t :
  nth_error (timers st) j = Some t -> due t <= now st ->
  fire rnd j st = runCallback rnd (callback t) (dropTimer j st).
Proof.
  intros Hj Hd. unfold fire. rewrite Hj.
  destruct (Z.leb_spec (due t) (now st)); [reflexivity | lia].
Qed.

Lemma fire_early rnd j st t :
  nth_error (timers st) j = Some t -> now st < due t -> fire rnd j st = st.
Proof.
  intros Hj Hd. unfold fire. rewrite Hj.
  destruct (Z.leb_spec (due t) (now st)); [lia | reflexivity].
Qed.

Lemma timers_submitForReview i s :
  timers (submitForReview i s) =
  timers s ++ [ {| due := now s + 3000; callback := ClearToast |};
                {| due := now s + 4000; callback := ToUnderReview i |};
                {| due := now s + 8000; callback := ToApproved i |} ].
Proof.
  unfold submitForReview, showToast, setTimeout, setToast, setEnrollments.
  simpl. now rewrite <- !app_assoc.
Qed.

Lemma nth_error_after {A} (l tl : list A) (j : nat) :
  nth_error (l ++ tl) (length l + j) = nth_error tl j.
Proof.
  rewrite nth_error_app2 by lia. f_equal. lia.
Qed.

(** X10.  A submission that nothing interferes with runs to approval: the two
    timers that [submitForReview] schedules do nothing before they are due;
    when the first fires four seconds after the submission the record is under
    review, and when the second fires four seconds later the record is
    approved, with a referral URL and statistics; of the three timers of the
    submission only the toast timer is then still pending. *)
Theorem review_pipeline_runs (rnd : Oracle) (s : State) (k : nat)
    (e : Enrollment.t) :
  enrollments s !! k = Some e ->
  let i := Enrollment.id e in
  let n := length (timers s) in
  let s1 := submitForReview i s in
  let s2 := fire rnd (S n) (elapse 4000 s1) in
  let s3 := fire rnd (S n) (elapse 4000 s2) in
  (forall d, d < 4000 -> fire rnd (S n) (elapse d s1) = elapse d s1) /\
  (forall d, d < 8000 -> fire rnd (S (S n)) (elapse d s1) = elapse d s1) /\
  (exists e1, enrollments s1 !! k = Some e1 /\
              Enrollment.status e1 = processing) /\
  (exists e2, enrollments s2 !! k = Some e2 /\
              Enrollment.status e2 = under_review) /\
  (exists e3, enrollments s3 !! k = Some e3 /\
              Enrollment.status e3 = approved /\
              is_Some (Enrollment.referralUrl e3) /\
              is_Some (Enrollment.stats e3)) /\
  timers s3 = timers s ++ [ {| due := now s + 3000; callback := ClearToast |} ].
Proof.
  intros Hk i n s1 s2 s3.
  assert (Ht1 : forall d j, nth_error (timers (elapse d s1)) (n + j)
                            = nth_error
                                [ {| due := now s + 3000; callback := ClearToast |};
                                  {| due := now s + 4000; callback := ToUnderReview i |};
                                  {| due := now s + 8000; callback := ToApproved i |} ] j).
  { intros d j. cbn [elapse timers]. unfold s1.
    rewrite timers_submitForReview. apply nth_error_after. }
  assert (Hn1 : forall d, now (elapse d s1) = now s + Z.max 0 d) by reflexivity.
  assert (He1 : enrollments s1 = Update.submitForReview i (enrollments s))
    by reflexivity.
  assert (Hs2 : s2 = runCallback rnd (ToUnderReview i)
                       (dropTimer (S n) (elapse 4000 s1))).
  { unfold s2. apply (fire_due rnd (S n) (elapse 4000 s1)
                        {| due := now s + 4000; callback := ToUnderReview i |}).
    - replace (S n) with (n + 1)%nat by lia. now rewrite Ht1.
    - rewrite Hn1. cbn [due]. lia. }
  assert (Ht2 : timers s2 =
                timers s ++ [ {| due := now s + 3000; callback := ClearToast |};
                              {| due := now s + 8000; callback := ToApproved i |} ]).
  { rewrite Hs2. cbn [runCallback setEnrollments timers dropTimer elapse].
    unfold s1. rewrite timers_submitForReview.
    replace (S n) with (n + 1)%nat by lia. unfold n.
    rewrite firstn_app, firstn_all2 by lia.
    replace (length (timers s) + 1 - length (timers s))%nat with 1%nat by lia.
    replace (S (length (timers s) + 1)) with (length (timers s) + 2)%nat by lia.
    rewrite skipn_app, skipn_all2 by lia.
    replace (length (timers s) + 2 - length (timers s))%nat with 2%nat by lia.
    cbn [firstn skipn app]. now rewrite <- app_assoc. }
  assert (Hn2 : now s2 = now s + 4000).
  { rewrite Hs2, now_runCallback. reflexivity. }
  assert (He2 : enrollments s2
                = Update.toUnderReview i (Update.submitForReview i (enrollments s))).
  { rewrite Hs2, enrollments_runCallback. reflexivity. }
  assert (Hk1 : enrollments s1 !! k = Some (Enrollment.withStatus processing e)).
  { rewrite He1, (submitForReview_at _ _ _ Hk). unfold i.
    now rewrite String.eqb_refl. }
  assert (Hk2 : enrollments s2 !! k = Some (Enrollment.withStatus under_review e)).
  { rewrite He2. rewrite <- He1.
    rewrite (toUnderReview_at _ _ _ Hk1). cbn [Enrollment.withStatus
      Enrollment.id Enrollment.status]. unfold i.
    now rewrite !String.eqb_refl. }
  assert (Hs3 : s3 = runCallback rnd (ToApproved i)
                       (dropTimer (S n) (elapse 4000 s2))).
  { unfold s3. apply (fire_due rnd (S n) (elapse 4000 s2)
                        {| due := now s + 8000; callback := ToApproved i |}).
    - cbn [elapse timers]. rewrite Ht2.
      replace (S n) with (n + 1)%nat by lia. unfold n.
      now rewrite nth_error_after.
    - cbn [elapse now due]. rewrite Hn2. lia. }
  split; [|split; [|split; [|split; [|split]]]].
  - intros d Hd.
    apply (fire_early rnd (S n) (elapse d s1)
             {| due := now s + 4000; callback := ToUnderReview i |}).
    + replace (S n) with (n + 1)%nat by lia. now rewrite Ht1.
    + rewrite Hn1. cbn [due]. lia.
  - intros d Hd.
    apply (fire_early rnd (S (S n)) (elapse d s1)
             {| due := now s + 8000; callback := ToApproved i |}).
    + replace (S (S n)) with (n + 2)%nat by lia. now rewrite Ht1.
    + rewrite Hn1. cbn [due]. lia.
  - eexists; split; [exact Hk1 | reflexivity].
  - eexists; split; [exact Hk2 | reflexivity].
  - rewrite Hs3, enrollments_runCallback.
    cbn [dropTimer elapse enrollments now draws].
    destruct (toApproved_at rnd _ _ _ Hk2 (now s2 + Z.max 0 4000) i (draws s2))
      as [m Hm].
    rewrite Hm. cbn [Enrollment.withStatus Enrollment.id Enrollment.status].
    unfold i. rewrite !String.eqb_refl. cbn [negb orb].
    eexists; split; [reflexivity|].
    split; [reflexivity|]. split; eexists; reflexivity.
  - rewrite Hs3. cbn [runCallback].
    unfold setEnrollmentsRand.
    destruct (Update.toApproved rnd _ _ _ _) as [l' n'].
    cbn [timers dropTimer elapse]. rewrite Ht2.
    replace (S n) with (n + 1)%nat by lia. unfold n.
    rewrite firstn_app, firstn_all2 by lia.
    replace (length (timers s) + 1 - length (timers s))%nat with 1%nat by lia.
    replace (S (length (timers s) + 1)) with (length (timers s) + 2)%nat by lia.
    rewrite skipn_app, skipn_all2 by lia.
    replace (length (timers s) + 2 - length (timers s))%nat with 2%nat by lia.
    cbn [firstn skipn app]. now rewrite app_nil_r.
Qed.

Lemma review_pipeline_runs_witness :
  exists e e3,
    enrollments uploadedState !! 0%nat = Some e /\
    Enrollment.status e = uploaded /\
    enrollments
      (fire sampleOracle 3
         (elapse 4000
            (fire sampleOracle 3
               (elapse 4000
                  (submitForReview (Enrollment.id e) uploadedState))))) !! 0%nat
    = Some e3 /\
    Enrollment.status e3 = approved.
Proof.
  match eval vm_compute in (enrollments uploadedState !! 0%nat) with
  | Some ?e =>
      pose proof (review_pipeline_runs sampleOracle uploadedState 0 e eq_refl)
        as H;
      exists e
  end.
  cbv zeta in H. destruct H as (_ & _ & _ & _ & (e3 & H3 & Hst & _) & _).
  exists e3. split; [reflexivity|]. split; [reflexivity|].
  split; [exact H3 | exact Hst].
Defined.

(** ** The toast and its timers *)

(** X11.  The timer of a toast is never cancelled.  When a second toast is
    shown [d] milliseconds after a first one, with [0 < d < 3000], the timer
    of the first toast becomes due while the second toast is showing, and
    firing it clears the second toast after [3000 - d] milliseconds, before
    its own three seconds are over; the timer of the second toast is then
    still pending.  [hideToast] cancels no timer either. *)
Theorem toast_cleared_by_older_timer (rnd : Oracle) (s : State)
    (m1 m2 : string) (t1 t2 : ToastType) (d : Z) :
  0 < d < 3000 ->
  let n := length (timers s) in
  let s2 := showToast m2 t2 (elapse d (showToast m1 t1 s)) in
  let s3 := elapse (3000 - d) s2 in
  toast s3 = Some {| message := m2; type := t2 |} /\
  now s3 < now s2 + 3000 /\
  toast (fire rnd n s3) = None /\
  timers (fire rnd n s3)
  = timers s ++ [ {| due := now s2 + 3000; callback := ClearToast |} ] /\
  timers (hideToast s2) = timers s2.
Proof.
  intros Hd n s2 s3.
  assert (Ht : timers s3 =
               timers s ++ [ {| due := now s + 3000; callback := ClearToast |};
                             {| due := now s2 + 3000; callback := ClearToast |} ]).
  { cbn. now rewrite <- app_assoc. }
  assert (Hn2 : now s2 = now s + Z.max 0 d) by reflexivity.
  assert (Hn3 : now s3 = now s2 + Z.max 0 (3000 - d)) by reflexivity.
  assert (Hf : fire rnd n s3 = runCallback rnd ClearToast (dropTimer n s3)).
  { apply (fire_due rnd n s3 {| due := now s + 3000; callback := ClearToast |}).
    - rewrite Ht. replace n with (n + 0)%nat by lia. unfold n.
      now rewrite nth_error_after.
    - cbn [due]. lia. }
  split; [reflexivity|]. split; [lia|]. rewrite Hf. split; [reflexivity|].
  cbn [runCallback setToast timers dropTimer]. rewrite Ht. unfold n.
  rewrite firstn_app, firstn_all, Nat.sub_diag.
  replace (S (length (timers s))) with (length (timers s) + 1)%nat by lia.
  rewrite skipn_app, skipn_all2 by lia.
  replace (length (timers s) + 1 - length (timers s))%nat with 1%nat by lia.
  cbn [firstn skipn app]. rewrite app_nil_r. split; reflexivity.
Qed.

Lemma toast_cleared_by_older_timer_witness :
  toast (elapse 1000
           (showToast "Enrollment rejected" error
              (elapse 2000
                 (showToast "Submitted for review!" success initialState))))
  = Some {| message := "Enrollment rejected"; type := error |} /\
  toast (fire sampleOracle 0
           (elapse 1000
              (showToast "Enrollment rejected" error
                 (elapse 2000
                    (showToast "Submitted for review!" success initialState)))))
  = None.
Proof.
  pose proof (toast_cleared_by_older_timer sampleOracle initialState
                "Submitted for review!" "Enrollment rejected" success error
                2000 ltac:(lia)) as H.
  cbv zeta in H. destruct H as (H1 & _ & H2 & _ & _).
  split; [exact H1 | exact H2].
Defined.

(** ** Enrolled campaigns *)

Lemma isEnrolled_app es es' cid :
  isEnrolled (es ++ es') cid = isEnrolled es cid || isEnrolled es' cid.
Proof. unfold isEnrolled. apply existsb_app. Qed.

Lemma isEnrolled_sameIdentity es es' cid :
  Forall2 sameIdentity es es' -> isEnrolled es' cid = isEnrolled es cid.
Proof.
  unfold isEnrolled.
  induction 1 as [|a b l l' (_ & Hc & _) _ IH]; simpl; [reflexivity|].
  now rewrite Hc, IH.
Qed.

(** X12.  [isEnrolled] of the announcements view is monotone along the life of
    the hook: the campaign handed to [enrollInCampaign] is enrolled afterwards,
    and a campaign that is enrolled stays enrolled through every sequence of
    operations, clock advances and timer firings (no operation removes a record
    or changes its campaign). *)
Theorem enrolled_campaigns_stay_enrolled :
  (forall (c : Campaign.t) (s : State),
     isEnrolled (enrollments (handleEnroll (Some c) s)) (Campaign.id c) = true) /\
  (forall (rnd : Oracle) (evs : list Event) (s : State) (campaignId : string),
     isEnrolled (enrollments s) campaignId = true ->
     isEnrolled (enrollments (run rnd s evs)) campaignId = true).
Proof.
  split.
  - intros c s. cbn [handleEnroll].
    change (enrollments (enrollInCampaign c s))
      with (enrollments s ++ [Update.newEnrollment (now s) c]).
    rewrite isEnrolled_app. unfold isEnrolled at 2. simpl.
    rewrite String.eqb_refl. apply orb_true_r.
  - intros rnd evs s cid H.
    destruct (run_preserves sameIdentity) with (rnd := rnd) (evs := evs) (s := s)
      as (kept & added & -> & Hk).
    + intros a. repeat split.
    + apply sameIdentity_trans.
    + intros st a. repeat split.
    + intros f a. repeat split.
    + intros a. repeat split.
    + intros st u c o g a. repeat split.
    + rewrite isEnrolled_app, (isEnrolled_sameIdentity _ _ _ Hk), H.
      reflexivity.
Qed.

(** ** The sample enrollment *)

Lemma unenrolled_none (cs : list Campaign.t) (es : list Enrollment.t) :
  Forall (fun c => isEnrolled es (Campaign.id c) = true) cs ->
  unenrolledCampaigns cs es = [].
Proof.
  unfold unenrolledCampaigns, isEnrolled.
  induction 1 as [|c cs Hc _ IH]; simpl; [reflexivity|].
  now rewrite Hc, IH.
Qed.

Lemma unenrolled_first (pre post : list Campaign.t) (c : Campaign.t)
    (es : list Enrollment.t) :
  Forall (fun c' => isEnrolled es (Campaign.id c') = true) pre ->
  isEnrolled es (Campaign.id c) = false ->
  exists rest, unenrolledCampaigns (pre ++ c :: post) es = c :: rest.
Proof.
  intros Hpre Hc. pose proof (unenrolled_none pre es Hpre) as Hn.
  unfold unenrolledCampaigns, isEnrolled in *.
  rewrite List.filter_app, Hn. simpl. rewrite Hc. simpl. eexists. reflexivity.
Qed.

(** X13.  [enrollSampleCampaign] decides on the enrollments of the render that
    made the callback, and updates the state that is current when it runs.
    When, in the rendered list, the campaigns before [c] are all enrolled and
    [c] is not, the record of a new enrollment in [c] is appended to the
    current list, whatever that list holds; so a second call of the same
    callback, made before the next render, enrolls in [c] once more.  When
    every campaign is enrolled in the rendered list, the current list is left
    as it is and the toast says so.  A call made right after the render of the
    current state enrolls in the first campaign that no record of the hook
    refers to. *)
Theorem sample_enrollment_picks_first_unenrolled (campaigns : list Campaign.t)
    (rendered : list Enrollment.t) (s : State) :
  (forall pre c post,
     campaigns = pre ++ c :: post ->
     Forall (fun c' => isEnrolled rendered (Campaign.id c') = true) pre ->
     isEnrolled rendered (Campaign.id c) = false ->
     enrollments (enrollSampleCampaign campaigns rendered s)
     = enrollments s ++ [Update.newEnrollment (now s) c] /\
     forall ms,
       enrollments
         (enrollSampleCampaign campaigns rendered
            (elapse ms (enrollSampleCampaign campaigns rendered s)))
       = enrollments s ++ [Update.newEnrollment (now s) c;
                           Update.newEnrollment (now s + Z.max 0 ms) c]) /\
  (Forall (fun c => isEnrolled rendered (Campaign.id c) = true) campaigns ->
   enrollments (enrollSampleCampaign campaigns rendered s) = enrollments s /\
   toast (enrollSampleCampaign campaigns rendered s)
   = Some {| message := "All campaigns already enrolled!"; type := info |}) /\
  (forall pre c post,
     campaigns = pre ++ c :: post ->
     Forall (fun c' => isEnrolled (enrollments s) (Campaign.id c') = true) pre ->
     isEnrolled (enrollments s) (Campaign.id c) = false ->
     enrollments (enrollSampleAfterRender campaigns s)
     = enrollments s ++ [Update.newEnrollment (now s) c]).
Proof.
  split; [|split].
  - intros pre c post -> Hpre Hc. unfold enrollSampleCampaign.
    destruct (unenrolled_first pre post c rendered Hpre Hc) as [rest ->].
    split; [reflexivity|]. intros ms. cbn. unfold Update.enrollInCampaign.
    now rewrite <- app_assoc.
  - intros Hall. unfold enrollSampleCampaign.
    rewrite (unenrolled_none campaigns rendered Hall).
    split; reflexivity.
  - intros pre c post -> Hpre Hc.
    unfold enrollSampleAfterRender, enrollSampleCampaign.
    destruct (unenrolled_first pre post c (enrollments s) Hpre Hc) as [rest ->].
    reflexivity.
Qed.

Lemma isEnrolled_campaigns es cid :
  isEnrolled es cid
  = existsb (fun c => String.eqb (Campaign.id c) cid) (map Enrollment.campaign es).
Proof.
  unfold isEnrolled. induction es as [|e es IH]; simpl; [reflexivity|].
  now rewrite IH.
Qed.

Lemma existsb_id_In (cs : list Campaign.t) (cid : string) :
  existsb (fun c => String.eqb (Campaign.id c) cid) cs = true
  <-> In cid (map Campaign.id cs).
Proof.
  rewrite existsb_exists, in_map_iff. split.
  - intros (c & Hc & He). apply String.eqb_eq in He. now exists c.
  - intros (c & He & Hc). exists c. split; [exact Hc|].
    now apply String.eqb_eq.
Qed.

Lemma filter_none {A} (p : A -> bool) (l : list A) :
  (forall x, In x l -> p x = false) -> List.filter p l = [].
Proof.
  induction l as [|x l IH]; intros H; simpl; [reflexivity|].
  rewrite (H x) by now left. apply IH. intros y Hy. apply H. now right.
Qed.

Lemma filter_all {A} (p : A -> bool) (l : list A) :
  (forall x, In x l -> p x = true) -> List.filter p l = l.
Proof.
  induction l as [|x l IH]; intros H; simpl; [reflexivity|].
  rewrite (H x) by now left. f_equal. apply IH. intros y Hy. apply H. now right.
Qed.

(** With distinct ids, the campaigns that are not enrolled when the first
    [k] are enrolled are the remaining ones. *)
Lemma unenrolled_drop (cs : list Campaign.t) (es : list Enrollment.t) (k : nat) :
  List.NoDup (map Campaign.id cs) ->
  map Enrollment.campaign es = take k cs ->
  unenrolledCampaigns cs es = drop k cs.
Proof.
  intros Hnd Hes.
  assert (Hp : forall c,
    negb (existsb (fun e => String.eqb (Campaign.id (Enrollment.campaign e))
                                       (Campaign.id c)) es)
    = negb (existsb (fun c' => String.eqb (Campaign.id c') (Campaign.id c))
                    (take k cs))).
  { intros c. f_equal. rewrite <- Hes. apply isEnrolled_campaigns. }
  unfold unenrolledCampaigns.
  rewrite (List.filter_ext _ _ Hp). clear Hp Hes.
  rewrite <- (take_drop k cs) in Hnd.
  rewrite <- (take_drop k cs) at 1.
  rewrite map_app in Hnd. apply NoDup_ListNoDup, NoDup_app in Hnd.
  destruct Hnd as (_ & Hdis & _).
  rewrite List.filter_app, filter_none, filter_all; [reflexivity| |].
  - intros c Hc. apply negb_true_iff, not_true_is_false.
    rewrite existsb_id_In. intros Hin.
    apply (Hdis (Campaign.id c)); apply list_elem_of_In;
      [exact Hin | now apply in_map].
  - intros c Hc. apply negb_false_iff, existsb_id_In. now apply in_map.
Qed.

(** X14.  Called again and again (each call from the render that follows the
    previous one, so that the callback reads the list that the previous call
    left) from a hook without enrollments, with a constant list of
    campaigns of distinct ids, [enrollSampleCampaign] enrolls in the campaigns
    one by one in their order, and stops changing the list once all are
    enrolled: after [k] calls the campaigns of the records are the first [k]
    campaigns of the list. *)
Theorem sample_enrollment_walks_the_campaigns (campaigns : list Campaign.t)
    (s : State) (k : nat) :
  List.NoDup (map Campaign.id campaigns) ->
  enrollments s = [] ->
  map Enrollment.campaign
      (enrollments (Nat.iter k (enrollSampleAfterRender campaigns) s))
  = take k campaigns.
Proof.
  intros Hnd Hs. induction k as [|k IH].
  - cbn [Nat.iter nat_rect]. now rewrite Hs.
  - change (Nat.iter (S k) (enrollSampleAfterRender campaigns) s)
      with (enrollSampleAfterRender campaigns
              (Nat.iter k (enrollSampleAfterRender campaigns) s)).
    set (sk := Nat.iter k (enrollSampleAfterRender campaigns) s) in *.
    unfold enrollSampleAfterRender, enrollSampleCampaign.
    rewrite (unenrolled_drop campaigns (enrollments sk) k Hnd IH).
    destruct (drop k campaigns) as [|c rest] eqn:Hd.
    + change (enrollments (showToast _ _ sk)) with (enrollments sk).
      rewrite IH. apply drop_nil_inv in Hd.
      now rewrite !take_ge by lia.
    + change (enrollments (enrollInCampaign c sk))
        with (enrollments sk ++ [Update.newEnrollment (now sk) c]).
      rewrite map_app, IH. cbn [map Update.newEnrollment Enrollment.campaign].
      symmetry. apply take_S_r.
      rewrite <- (Nat.add_0_r k), <- lookup_drop, Hd. reflexivity.
Qed.

Lemma sample_enrollment_walks_the_campaigns_witness :
  List.NoDup (map Campaign.id sampleCampaigns) /\
  map Enrollment.campaign
      (enrollments (Nat.iter 2 (enrollSampleAfterRender sampleCampaigns) initialState))
  = take 2 sampleCampaigns /\
  map Enrollment.campaign
      (enrollments (Nat.iter 5 (enrollSampleAfterRender sampleCampaigns) initialState))
  = sampleCampaigns.
Proof.
  assert (H : List.NoDup (map Campaign.id sampleCampaigns)).
  { repeat constructor; simpl; intros H;
      repeat (destruct H as [H|H]; [discriminate H|]); exact H. }
  split; [exact H|]. split.
  - exact (sample_enrollment_walks_the_campaigns sampleCampaigns initialState 2
             H eq_refl).
  - exact (sample_enrollment_walks_the_campaigns sampleCampaigns initialState 5
             H eq_refl).
Defined.

(** ** The sort of the enrollment list *)

Section SortMore.
Context {A : Type}.
Variable comparefn : A -> A -> option Z.

(** Sorting leaves alone a list that is in order. *)
Lemma Array_sort_sorted_id (l : list A) :
  StronglySorted (fun x y => sortCompare comparefn x y <= 0) l ->
  Array_sort comparefn l = l.
Proof.
  induction 1 as [|x l Hs IH Hx]; simpl; [reflexivity|].
  rewrite IH. destruct l as [|y l']; simpl; [reflexivity|].
  inversion Hx as [|? ? Hxy _]; subst.
  destruct (Z.leb_spec (sortCompare comparefn x y) 0); [reflexivity | lia].
Qed.

(** The elements picked by [p], when they compare as equal to one another,
    keep their order. *)
Variable p : A -> bool.
Hypothesis p_equal :
  forall x y, p x = true -> p y = true -> sortCompare comparefn x y <= 0.

Lemma insertSorted_filter x l :
  List.filter p (insertSorted comparefn x l) = List.filter p (x :: l).
Proof using p_equal.
  induction l as [|y l IH]; [reflexivity|].
  cbn [insertSorted].
  destruct (Z.leb_spec (sortCompare comparefn x y) 0) as [Hle|Hgt];
    [reflexivity|].
  cbn [List.filter] in *. rewrite IH.
  destruct (p x) eqn:Hx; [|reflexivity].
  destruct (p y) eqn:Hy; [|reflexivity].
  specialize (p_equal x y Hx Hy). lia.
Qed.

Lemma Array_sort_filter l :
  List.filter p (Array_sort comparefn l) = List.filter p l.
Proof using p_equal.
  induction l as [|x l IH]; [reflexivity|].
  cbn [Array_sort]. rewrite insertSorted_filter. cbn [List.filter].
  now rewrite IH.
Qed.
End SortMore.

Lemma sameKeys_compare st d a b :
  sameKeys st d a = true -> sameKeys st d b = true ->
  sortCompare compareEnrollments a b <= 0.
Proof.
  unfold sameKeys. rewrite !andb_true_iff, !String.eqb_eq.
  intros [Ha Hda] [Hb Hdb].
  unfold sortCompare, compareEnrollments. rewrite Ha, Hb.
  destruct (statusPriority !! st) as [pr|]; cbn [minus isNonZero];
    [|lia].
  rewrite Z.sub_diag. cbn [Z.eqb negb].
  destruct (Enrollment.enrolledAt a) as [ta|], (Enrollment.enrolledAt b) as [tb|],
    d as [t|]; try discriminate; cbn [getTime minus]; lia.
Qed.

(** X15.  On a list of records that each have one of the six statuses and a
    valid date (the comparator is then consistent), the sort is stable and
    idempotent: the records that have one status and one enrollment time stand
    in the displayed list in the order in which the hook holds them, and
    sorting the displayed list again changes nothing. *)
Theorem display_sort_stable (l : list Enrollment.t) :
  Forall wellFormed l ->
  (forall st d,
     List.filter (sameKeys st d) (sortedEnrollments l)
     = List.filter (sameKeys st d) l) /\
  sortedEnrollments (sortedEnrollments l) = sortedEnrollments l.
Proof.
  intros Hl. split.
  - intros st d. apply Array_sort_filter. apply sameKeys_compare.
  - apply Array_sort_sorted_id.
    apply (Array_sort_sorted compareEnrollments wellFormed);
      [apply compare_total | apply compare_trans | exact Hl].
Qed.

Lemma display_sort_stable_witness :
  Forall wellFormed sameInstantList /\
  map (fun e => Campaign.id (Enrollment.campaign e))
      (List.filter (sameKeys uploaded (ValidDate 1700000000000))
                   (sortedEnrollments sameInstantList))
  = ["c-2"; "c-1"]%string /\
  sortedEnrollments (sortedEnrollments sameInstantList)
  = sortedEnrollments sameInstantList.
Proof.
  assert (H : Forall wellFormed sameInstantList) by (repeat constructor).
  split; [exact H|].
  destruct (display_sort_stable sameInstantList H) as [Hst Hid].
  split; [|exact Hid].
  rewrite Hst. reflexivity.
Defined.

(** ** The selected enrollment *)

Lemma NoDup_map_inj {A B} (f : A -> B) (l : list A) (a b : A) :
  List.NoDup (map f l) -> In a l -> In b l -> f a = f b -> a = b.
Proof.
  induction l as [|x l IH]; intros Hnd Ha Hb Hf; [inversion Ha|].
  inversion Hnd as [|? ? Hx Hl]; subst.
  destruct Ha as [-> | Ha], Hb as [-> | Hb]; auto.
  - elim Hx. rewrite Hf. now apply in_map.
  - elim Hx. rewrite <- Hf. now apply in_map.
Qed.

(** X16.  The detail view follows the list, not the record that was clicked:
    with a selection, [currentEnrollment] is a record of the current list with
    the id of the selected one, and it is [null] exactly when the list has no
    record of that id; with distinct ids it is the record of that id, as the
    list holds it now.  Without a selection it is [null]. *)
Theorem current_enrollment_follows_the_list (sel : Enrollment.t)
    (es : list Enrollment.t) :
  (forall e, currentEnrollment (Some sel) es = Some e ->
             In e es /\ Enrollment.id e = Enrollment.id sel) /\
  (currentEnrollment (Some sel) es = None <->
   forall e, In e es -> Enrollment.id e <> Enrollment.id sel) /\
  (List.NoDup (map Enrollment.id es) ->
   forall e, In e es -> Enrollment.id e = Enrollment.id sel ->
             currentEnrollment (Some sel) es = Some e) /\
  currentEnrollment None es = None.
Proof.
  pose proof (Array_sort_perm compareEnrollments es) as Hperm.
  fold (sortedEnrollments es) in Hperm.
  assert (Hsome : forall e, currentEnrollment (Some sel) es = Some e ->
                            In e es /\ Enrollment.id e = Enrollment.id sel).
  { intros e H. apply find_some in H. destruct H as [Hin Heq].
    split; [|now apply String.eqb_eq].
    now apply (Permutation_in _ (Permutation_sym Hperm)). }
  assert (Hnone : currentEnrollment (Some sel) es = None <->
                  forall e, In e es -> Enrollment.id e <> Enrollment.id sel).
  { split.
    - intros H e Hin Heq.
      pose proof (find_none _ _ H e (Permutation_in _ Hperm Hin)) as Hf.
      cbv beta in Hf. rewrite Heq, String.eqb_refl in Hf. discriminate.
    - intros H.
      destruct (currentEnrollment (Some sel) es) as [e|] eqn:He; [|reflexivity].
      destruct (Hsome e eq_refl) as [Hin Heq]. now elim (H e Hin). }
  split; [exact Hsome|]. split; [exact Hnone|]. split; [|reflexivity].
  intros Hnd e Hin Heq.
  destruct (currentEnrollment (Some sel) es) as [e'|] eqn:He.
  - destruct (Hsome e' eq_refl) as [Hin' Heq']. f_equal.
    apply (NoDup_map_inj Enrollment.id es); congruence.
  - now elim (proj1 Hnone eq_refl e Hin).
Qed.

(** ** The cards that move *)

Lemma setPositions_notin (l : list Enrollment.t) (index : nat)
    (m : gmap string nat) (i : string) :
  ~ In i (map Enrollment.id l) -> setPositions index l m !! i = m !! i.
Proof.
  revert index m. induction l as [|e l IH]; intros index m Hi; [reflexivity|].
  cbn [setPositions]. rewrite IH by (intros H; apply Hi; now right).
  apply lookup_insert_ne. intros Heq. apply Hi. now left.
Qed.

Lemma setPositions_at (l : list Enrollment.t) (index : nat)
    (m : gmap string nat) (k : nat) (e : Enrollment.t) :
  List.NoDup (map Enrollment.id l) -> l !! k = Some e ->
  setPositions index l m !! Enrollment.id e = Some (index + k)%nat.
Proof.
  revert index m k. induction l as [|x l IH]; intros index m k Hnd Hk;
    [destruct k; discriminate|].
  inversion Hnd as [|? ? Hx Hl]; subst. cbn [setPositions].
  destruct k as [|k]; simpl in Hk.
  - injection Hk as ->. rewrite setPositions_notin by exact Hx.
    rewrite lookup_insert_eq. f_equal. lia.
  - rewrite (IH (S index) _ k Hl Hk). f_equal. lia.
Qed.

Lemma setPositions_inv (l : list Enrollment.t) (i : string) (k : nat) :
  List.NoDup (map Enrollment.id l) ->
  setPositions 0 l ∅ !! i = Some k ->
  exists e, l !! k = Some e /\ Enrollment.id e = i.
Proof.
  intros Hnd Hk.
  destruct (in_dec string_dec i (map Enrollment.id l)) as [Hin|Hn].
  - apply in_map_iff in Hin. destruct Hin as (e & He & Hin).
    apply list_elem_of_In, list_elem_of_lookup in Hin. destruct Hin as [k' Hk'].
    pose proof (setPositions_at l 0 ∅ k' e Hnd Hk') as H.
    rewrite He, Hk in H. injection H as ->. now exists e.
  - rewrite (setPositions_notin l 0 ∅ i Hn) in Hk. discriminate.
Qed.

(** What the loop over the sorted list has collected. *)
Lemma cardsToAnimate_spec (prev new : gmap string nat)
    (sorted : list Enrollment.t) :
  let '(cards, flag) := cardsToAnimate prev new sorted in
  (forall i, is_Some (cards !! i) <->
             In i (map Enrollment.id sorted) /\
             exists p n, prev !! i = Some p /\ new !! i = Some n /\ p <> n) /\
  (flag = true <-> cards <> ∅).
Proof.
  unfold cardsToAnimate. induction sorted as [|e l IH] using rev_ind.
  - simpl. split.
    + intros i. rewrite lookup_empty. split; [intros [? H]; discriminate H|].
      intros [[] _].
    + split; [discriminate | congruence].
  - rewrite fold_left_app. cbn [fold_left].
    destruct (fold_left (markMoved prev new) l (∅, false)) as [cards flag].
    destruct IH as [IH1 IH2]. unfold markMoved. cbn [fst].
    assert (Hkeep :
      (forall p n, prev !! Enrollment.id e = Some p ->
                   new !! Enrollment.id e = Some n -> p = n) ->
      (forall i, is_Some (cards !! i) <->
                 In i (map Enrollment.id (l ++ [e])) /\
                 exists p n, prev !! i = Some p /\ new !! i = Some n /\ p <> n)).
    { intros Hsame i. rewrite IH1, map_app, in_app_iff. simpl.
      split; [tauto|]. intros [[Hin|[<-|[]]] Hex]; [tauto|].
      destruct Hex as (p & n & Hp & Hn & Hne). elim Hne. eauto. }
    destruct (prev !! Enrollment.id e) as [p|] eqn:Hp;
      [|split; [apply Hkeep; discriminate | exact IH2]].
    destruct (new !! Enrollment.id e) as [n|] eqn:Hn;
      [|split; [apply Hkeep; discriminate | exact IH2]].
    destruct (Nat.eqb_spec p n) as [-> | Hne]; cbn [negb].
    + split; [apply Hkeep; congruence | exact IH2].
    + split.
      * intros i. rewrite map_app, in_app_iff. simpl.
        destruct (string_dec (Enrollment.id e) i) as [<- | Hi].
        -- rewrite lookup_insert_eq. split; [|intros _; now eexists].
           intros _. split; [tauto|]. now exists p, n.
        -- rewrite lookup_insert_ne by exact Hi. rewrite IH1. tauto.
      * split; [|reflexivity]. intros _ H.
        apply (f_equal (fun m => m !! Enrollment.id e)) in H.
        rewrite lookup_insert_eq, lookup_empty in H. discriminate.
Qed.

(** X17.  The position effect flags the cards that have moved, and only those.
    Let the ref hold the positions of the previous render and let the ids of
    both lists be distinct.  After the effect the ref holds the position of
    every card of the new list.  When some card stands at a different position
    than before, the flagged ids are those of the cards that have moved: a card
    that is new to the list is not flagged, nor one that has kept its place.
    When no card has moved (the first render among them) the flagged set is
    left as it was. *)
Theorem moved_cards_are_flagged (prevSorted sorted : list Enrollment.t)
    (st : Cards) :
  List.NoDup (map Enrollment.id prevSorted) ->
  List.NoDup (map Enrollment.id sorted) ->
  prevPositions st = setPositions 0 prevSorted ∅ ->
  (forall k e, sorted !! k = Some e ->
     prevPositions (positionEffect sorted st) !! Enrollment.id e = Some k) /\
  ((exists i, moved prevSorted sorted i) ->
   forall i, i ∈ animatingCardIds (positionEffect sorted st)
             <-> moved prevSorted sorted i) /\
  (~ (exists i, moved prevSorted sorted i) ->
   animatingCardIds (positionEffect sorted st) = animatingCardIds st).
Proof.
  intros Hnp Hns Hst.
  assert (Hmoved : forall i,
    moved prevSorted sorted i <->
    In i (map Enrollment.id sorted) /\
    exists p n, setPositions 0 prevSorted ∅ !! i = Some p /\
                setPositions 0 sorted ∅ !! i = Some n /\ p <> n).
  { intros i. split.
    - intros (p & n & e & e' & Hp & He & Hn & He' & Hne). split.
      + rewrite <- He'. apply in_map.
        apply list_elem_of_In, list_elem_of_lookup. eauto.
      + exists p, n. rewrite <- He at 1. rewrite <- He'.
        rewrite (setPositions_at _ 0 ∅ p e Hnp Hp),
                (setPositions_at _ 0 ∅ n e' Hns Hn). auto.
    - intros (_ & p & n & Hp & Hn & Hne).
      destruct (setPositions_inv _ _ _ Hnp Hp) as (e & He & Hi).
      destruct (setPositions_inv _ _ _ Hns Hn) as (e' & He' & Hi').
      now exists p, n, e, e'. }
  unfold positionEffect. rewrite Hst.
  destruct (Nat.eqb_spec (base.size (setPositions 0 prevSorted ∅)) 0) as [Hz|Hnz].
  - apply map_size_empty_iff in Hz.
    assert (Hnil : prevSorted = []).
    { destruct prevSorted as [|e l]; [reflexivity|].
      pose proof (setPositions_at (e :: l) 0 ∅ 0 e Hnp eq_refl) as H.
      rewrite Hz, lookup_empty in H. discriminate. }
    subst prevSorted. cbn [prevPositions animatingCardIds].
    split; [|split].
    + intros k e Hk. cbn [setPositions].
      now rewrite (setPositions_at _ 0 ∅ k e Hns Hk).
    + intros (i & p & n & e & e' & Hp & _). destruct p; discriminate Hp.
    + reflexivity.
  - pose proof (cardsToAnimate_spec (setPositions 0 prevSorted ∅)
                  (setPositions 0 sorted ∅) sorted) as Hspec.
    destruct (cardsToAnimate _ _ sorted) as [cards flag].
    destruct Hspec as [Hc Hf]. cbn [prevPositions animatingCardIds].
    split; [|split].
    + intros k e Hk. now rewrite (setPositions_at _ 0 ∅ k e Hns Hk).
    + intros (i0 & Hi0).
      assert (Hne : cards <> ∅).
      { intros ->. apply Hmoved, Hc in Hi0. rewrite lookup_empty in Hi0.
        destruct Hi0 as [? H]. discriminate H. }
      rewrite (proj2 Hf Hne).
      assert (Hsz : (0 <? base.size cards)%nat = true).
      { apply Nat.ltb_lt. destruct (base.size cards) eqn:E; [|lia].
        apply map_size_empty_iff in E. contradiction. }
      rewrite Hsz. cbn [andb]. intros i.
      rewrite elem_of_dom, Hc. symmetry. apply Hmoved.
    + intros Hno.
      assert (He : cards = ∅).
      { apply map_empty. intros i.
        destruct (cards !! i) eqn:Hi; [|reflexivity].
        elim Hno. exists i. apply Hmoved, Hc. rewrite Hi. now eexists. }
      subst cards. rewrite map_size_empty. cbn [Nat.ltb Nat.leb].
      now rewrite andb_false_r.
Qed.

(** When the approved enrollment of the sample list is rejected it falls from
    the first place to the third: its card is flagged, and the card of the
    enrollment that stays last is not. *)
Lemma moved_cards_are_flagged_witness :
  map Enrollment.id shownBefore
  = ["enrollment-1700000002000"; "enrollment-1700000003000";
     "enrollment-1700000001000"; "enrollment-1700000000000"]%string /\
  map Enrollment.id shownAfter
  = ["enrollment-1700000003000"; "enrollment-1700000001000";
     "enrollment-1700000002000"; "enrollment-1700000000000"]%string /\
  "enrollment-1700000002000"%string
    ∈ animatingCardIds (positionEffect shownAfter cardsBefore) /\
  "enrollment-1700000000000"%string
    ∉ animatingCardIds (positionEffect shownAfter cardsBefore).
Proof.
  assert (Hb : List.NoDup (map Enrollment.id shownBefore)).
  { vm_compute. repeat constructor; simpl; intros H;
      repeat (destruct H as [H|H]; [discriminate H|]); exact H. }
  assert (Ha : List.NoDup (map Enrollment.id shownAfter)).
  { vm_compute. repeat constructor; simpl; intros H;
      repeat (destruct H as [H|H]; [discriminate H|]); exact H. }
  destruct (moved_cards_are_flagged shownBefore shownAfter cardsBefore
              Hb Ha eq_refl) as (_ & Hany & _).
  assert (Hm : moved shownBefore shownAfter "enrollment-1700000002000").
  { exists 0%nat, 2%nat. eexists _, _. repeat split; try reflexivity. lia. }
  specialize (Hany (ex_intro _ _ Hm)).
  split; [reflexivity|]. split; [reflexivity|]. split.
  - apply Hany, Hm.
  - intros H. apply Hany in H.
    destruct H as (p & n & e & e' & Hp & He & Hn & He' & Hne).
    assert (p = 3%nat).
    { destruct p as [|[|[|[|p]]]]; vm_compute in Hp; try discriminate Hp;
        injection Hp as <-; try discriminate He. reflexivity. }
    assert (n = 3%nat).
    { destruct n as [|[|[|[|n]]]]; vm_compute in Hn; try discriminate Hn;
        injection Hn as <-; try discriminate He'. reflexivity. }
    lia.
Defined.

(** ** The campaign loader, whatever the queries give *)

(** X18.  [loadCampaigns] never throws and always switches loading off, and the
    campaigns it leaves are those of the database and no others: the list that
    [fetchCampaigns] resolves to, or the empty list when a query rejects.
    Neither the list the view starts with (the mock campaigns of
    [constants.ts]) nor the result of the connection test has any influence on
    the outcome. *)
Theorem campaigns_come_from_the_database (test : Completion bool)
    (fetch : Completion (list Campaign.t)) (s : AnnouncementsTab.State) :
  let fetched :=
    match test, fetch with
    | Normal _, Normal cs => cs
    | _, _ => []
    end in
  exists s',
    AnnouncementsTab.loadCampaigns test fetch s = Normal s' /\
    AnnouncementsTab.isLoading s' = false /\
    AnnouncementsTab.campaignsList s' = fetched /\
    AnnouncementsTab.render s' =
      match fetched with
      | [] => AnnouncementsTab.NoCampaignsFound
      | _ :: _ => AnnouncementsTab.CampaignGrid fetched
      end.
Proof.
  unfold AnnouncementsTab.loadCampaigns.
  destruct test as [b|e1]; [destruct fetch as [[|c cs]|e2]|];
    cbn; eexists; repeat split.
Qed.

(** ** The smooth path of the chart *)

Section PathFacts.
Variable Number : Type.
Variables plus minus times : Number -> Number -> Number.
Variable tension : Number.
Variable show : Number -> string.

Let curveAt := Path.curveAt Number plus minus times tension.
Let curvesFrom := Path.curvesFrom Number plus minus times tension.
Let pathCommands := Path.pathCommands Number plus minus times tension.
Let createSmoothPath := Path.createSmoothPath Number plus minus times tension show.

Lemma item_in_range (points : list (Path.Point Number)) (z : Z) :
  0 <= z < Z.of_nat (length points) ->
  exists p, Path.item Number points z = Some p /\
            points !! Z.to_nat z = Some p.
Proof.
  intros Hz. unfold Path.item.
  destruct (Z.ltb_spec z 0); [lia|].
  destruct (lookup_lt_is_Some_2 points (Z.to_nat z)) as [p Hp]; [lia|].
  exists p. split; exact Hp.
Qed.

(** Inside the bounds of the loop, a turn reads no point outside the array
    and draws a curve that ends in the next point. *)
Lemma curveAt_in_range (points : list (Path.Point Number)) (i : nat) :
  (i + 1 < length points)%nat ->
  exists cp1 cp2 p,
    points !! S i = Some p /\
    curveAt points (Z.of_nat i) = Some (Path.CurveTo Number cp1 cp2 p).
Proof using Type.
  intros Hi. unfold curveAt, Path.curveAt. cbv zeta.
  destruct (item_in_range points (Z.max 0 (Z.of_nat i - 1))) as (p0 & H0 & _);
    [lia|].
  destruct (item_in_range points (Z.of_nat i)) as (p1 & H1 & _); [lia|].
  destruct (item_in_range points (Z.of_nat i + 1)) as (p2 & H2 & Hp2); [lia|].
  destruct (item_in_range points
              (Z.min (Z.of_nat (length points) - 1) (Z.of_nat i + 2)))
    as (p3 & H3 & _); [lia|].
  rewrite H0. cbn [mbind option_bind]. rewrite H1. cbn [mbind option_bind].
  rewrite H2. cbn [mbind option_bind].
  assert (E3 := H3). cbv zeta in E3.
  match goal with
  | |- context [Path.item Number points ?z ≫= _] =>
      replace (Path.item Number points z) with (Some p3)
  end.
  cbn [mbind option_bind]. eexists _, _, p2. split; [|reflexivity].
  replace (S i) with (Z.to_nat (Z.of_nat i + 1)) by lia. exact Hp2.
Qed.

Lemma curvesFrom_in_range (points : list (Path.Point Number)) (count i : nat) :
  (i + count < length points)%nat ->
  exists cs,
    curvesFrom count points (Z.of_nat i) = Some cs /\
    length cs = count /\
    forall j p, points !! S (i + j) = Some p -> (j < count)%nat ->
      exists cp1 cp2, cs !! j = Some (Path.CurveTo Number cp1 cp2 p).
Proof using Type.
  revert i. induction count as [|count IH]; intros i Hi.
  - exists []. split; [reflexivity|]. split; [reflexivity|]. intros; lia.
  - destruct (curveAt_in_range points i) as (cp1 & cp2 & p & Hp & Hc); [lia|].
    destruct (IH (S i)) as (cs & Hcs & Hlen & Hall); [lia|].
    exists (Path.CurveTo Number cp1 cp2 p :: cs).
    unfold curvesFrom in *. cbn [Path.curvesFrom].
    fold curveAt. rewrite Hc. cbn.
    replace (Z.of_nat i + 1) with (Z.of_nat (S i)) by lia. rewrite Hcs. cbn.
    split; [reflexivity|]. split; [now rewrite Hlen|].
    intros [|j] q Hq Hj.
    + rewrite Nat.add_0_r in Hq. rewrite Hp in Hq. injection Hq as <-.
      now exists cp1, cp2.
    + apply (Hall j q); [|lia].
      replace (S (S i + j)) with (S (i + S j)) by lia. exact Hq.
Qed.

(** X19.  [createSmoothPath] gives the empty string for fewer than two points.
    For two points or more it never reads outside the array (the clamped
    indices of the first and the last turn included): the path moves to the
    first point and then draws one curve for every further point, in order,
    each ending in that point. *)
Theorem smooth_path_visits_every_point (points : list (Path.Point Number)) :
  ((length points < 2)%nat -> createSmoothPath points = Some EmptyString) /\
  ((2 <= length points)%nat ->
   exists p0 cs,
     points !! 0%nat = Some p0 /\
     pathCommands points = Some (Path.MoveTo Number p0 :: cs) /\
     createSmoothPath points
     = Some (String.concat EmptyString
               (map (Path.writeCommand Number show)
                    (Path.MoveTo Number p0 :: cs))) /\
     length cs = (length points - 1)%nat /\
     forall j p, points !! S j = Some p ->
       exists cp1 cp2, cs !! j = Some (Path.CurveTo Number cp1 cp2 p)).
Proof using Type.
  unfold createSmoothPath, Path.createSmoothPath, pathCommands,
    Path.pathCommands.
  split; intros Hlen.
  - destruct (Nat.ltb_spec (length points) 2); [reflexivity | lia].
  - destruct (Nat.ltb_spec (length points) 2); [lia|].
    destruct (item_in_range points 0) as (p0 & H0 & Hp0); [lia|].
    destruct (curvesFrom_in_range points (length points - 1) 0)
      as (cs & Hcs & Hl & Hall); [lia|].
    exists p0, cs. rewrite H0. cbn [mbind option_bind].
    unfold curvesFrom in Hcs. change (Z.of_nat 0) with 0 in Hcs.
    rewrite Hcs. cbn [mbind option_bind].
    split; [exact Hp0|]. split; [reflexivity|]. split; [reflexivity|].
    split; [exact Hl|].
    intros j p Hp. apply (Hall j p Hp).
    apply lookup_lt_Some in Hp. lia.
Qed.
End PathFacts.

(** ** The labels of the chart *)

Lemma seq_map_bounds (start len : nat) :
  Forall (fun i => Z.of_nat start <= i < Z.of_nat (start + len))
         (map Z.of_nat (seq start len)) /\
  StronglySorted Z.lt (map Z.of_nat (seq start len)).
Proof.
  revert start. induction len as [|len IH]; intros start; simpl.
  - split; constructor.
  - destruct (IH (S start)) as [Hb Hs]. split.
    + constructor; [lia|]. eapply Forall_impl; [exact Hb|].
      simpl. intros i Hi. lia.
    + constructor; [exact Hs|]. eapply Forall_impl; [exact Hb|].
      simpl. intros i Hi. lia.
Qed.

(** X20.  For a chart with data, the indices at which a label is drawn all
    address a data point, they are strictly increasing (no label is drawn
    twice), they start with the first point and end with the last, and there
    are at most six of them. *)
Theorem label_indices_address_the_data (n : nat) :
  (0 < n)%nat ->
  Forall (fun i => 0 <= i < Z.of_nat n) (AreaChart.labelIndices n) /\
  StronglySorted Z.lt (AreaChart.labelIndices n) /\
  head (AreaChart.labelIndices n) = Some 0 /\
  last (AreaChart.labelIndices n) = Some (Z.of_nat n - 1) /\
  length (AreaChart.labelIndices n) = Nat.min n 6.
Proof.
  intros Hn. unfold AreaChart.labelIndices, AreaChart.labelCount.
  destruct (Z.leb_spec (Z.of_nat n) 6) as [Hle|Hgt].
  - destruct (seq_map_bounds 0 n) as [Hb Hs].
    split; [exact Hb|]. split; [exact Hs|].
    assert (H6 : (n <= 6)%nat) by lia.
    destruct n as [|[|[|[|[|[|[|n]]]]]]]; try lia; repeat split; reflexivity.
  - change (Z.to_nat 6) with 6%nat. cbn [seq map].
    change (6 - 1) with 5.
    repeat split.
    + repeat constructor; Z.div_mod_to_equations; lia.
    + repeat constructor; Z.div_mod_to_equations; lia.
    + cbn [last]. f_equal. Z.div_mod_to_equations. lia.
    + simpl. lia.
Qed.

Lemma label_indices_address_the_data_witness :
  AreaChart.labelIndices 13 = [0; 2; 4; 7; 9; 12] /\
  Forall (fun i => 0 <= i < 13) (AreaChart.labelIndices 13) /\
  StronglySorted Z.lt (AreaChart.labelIndices 13).
Proof.
  destruct (label_indices_address_the_data 13 ltac:(lia)) as (H1 & H2 & _).
  split; [reflexivity|]. split; [exact H1 | exact H2].
Defined.

(** ** The points of the chart *)

Lemma fold_max_ge (l : list Z) :
  1 <= fold_right Z.max 1 l /\ Forall (fun v => v <= fold_right Z.max 1 l) l.
Proof.
  induction l as [|v l [IH1 IH2]]; simpl; [split; [lia | constructor]|].
  split; [lia|]. constructor; [lia|].
  eapply Forall_impl; [exact IH2|]. simpl. intros w Hw. lia.
Qed.

Lemma mapIndexed_Forall {A B} (P : B -> Prop) (f : nat -> A -> B)
    (l : list A) (index : nat) :
  (forall k a, l !! k = Some a -> P (f (index + k)%nat a)) ->
  Forall P (AreaChart.mapIndexed f index l).
Proof.
  revert index. induction l as [|a l IH]; intros index H; simpl;
    constructor.
  - specialize (H 0%nat a eq_refl). now rewrite Nat.add_0_r in H.
  - apply IH. intros k b Hk. specialize (H (S k) b Hk).
    now replace (S index + k)%nat with (index + S k)%nat by lia.
Qed.

Lemma mapIndexed_length {A B} (f : nat -> A -> B) (l : list A) (index : nat) :
  length (AreaChart.mapIndexed f index l) = length l.
Proof. revert index. induction l; intros; simpl; auto. Qed.

(** A fraction of two integers with [0 <= a <= b] and [1 <= b] lies between
    0 and 1. *)
Lemma unit_fraction (a b : Z) :
  0 <= a <= b -> 1 <= b ->
  (0 <= inject_Z a / inject_Z b)%Q /\ (inject_Z a / inject_Z b <= 1)%Q.
Proof.
  intros Ha Hb.
  assert (Hpos : (0 < inject_Z b)%Q).
  { change 0%Q with (inject_Z 0). rewrite <- Zlt_Qlt. lia. }
  split.
  - apply Qle_shift_div_l; [exact Hpos|]. rewrite Qmult_0_l.
    change 0%Q with (inject_Z 0). rewrite <- Zle_Qle. lia.
  - apply Qle_shift_div_r; [exact Hpos|]. rewrite Qmult_1_l.
    rewrite <- Zle_Qle. lia.
Qed.

Lemma toPoint_insidePlot (len : nat) (range : Z) (index : nat) (value : Z) :
  (index < len)%nat -> 0 <= value <= range -> 1 <= range ->
  AreaChart.insidePlot (AreaChart.toPoint len range index value).
Proof.
  intros Hi Hv Hr.
  destruct (unit_fraction (Z.of_nat index) (Z.max (Z.of_nat len - 1) 1))
    as [Hx0 Hx1]; [lia | lia |].
  destruct (unit_fraction (value - AreaChart.min) range) as [Hy0 Hy1];
    [unfold AreaChart.min; lia | lia |].
  unfold AreaChart.insidePlot, AreaChart.toPoint. cbn [AreaChart.x AreaChart.y].
  unfold AreaChart.paddingLeft, AreaChart.paddingRight, AreaChart.paddingTop,
    AreaChart.paddingBottom, AreaChart.chartWidth, AreaChart.chartHeight.
  set (fx := (inject_Z (Z.of_nat index)
              / inject_Z (Z.max (Z.of_nat len - 1) 1))%Q) in *.
  set (fy := (inject_Z (value - AreaChart.min) / inject_Z range)%Q) in *.
  repeat split; lra.
Qed.

(** X21.  With the arithmetic taken exactly: for data whose counts are not
    negative, the scale of the chart is never zero ([max] is at least 1, so
    that the fallback of [range] is never taken and [range] is [max]); there is
    one point for every day; every point of the primary line lies inside the
    plot area, 25 <= x <= 195 and 15 <= y <= 55; and so does every point of the
    secondary line when it is drawn or when the primary line shows the orders.
    *)
Theorem chart_points_inside_plot (p : AreaChart.Props) :
  Forall (fun d => 0 <= AreaChart.clicks d /\ 0 <= AreaChart.orders d)
         (AreaChart.data p) ->
  1 <= AreaChart.max p /\
  AreaChart.range p = AreaChart.max p /\
  length (AreaChart.points p) = length (AreaChart.data p) /\
  Forall AreaChart.insidePlot (AreaChart.points p) /\
  (AreaChart.showSecondary p = true \/ AreaChart.dataKey p = AreaChart.Orders ->
   Forall AreaChart.insidePlot (AreaChart.secondaryPoints p)).
Proof.
  intros Hdata.
  destruct (fold_max_ge (AreaChart.allValues p)) as [Hmax Hall].
  fold (AreaChart.max p) in Hmax, Hall.
  assert (Hrange : AreaChart.range p = AreaChart.max p).
  { unfold AreaChart.range, AreaChart.min.
    destruct (Z.eqb_spec (AreaChart.max p - 0) 0); lia. }
  assert (Hvals : Forall (fun v => 0 <= v <= AreaChart.max p)
                         (AreaChart.values p)).
  { apply List.Forall_forall. intros v Hv. split.
    - unfold AreaChart.values in Hv. apply in_map_iff in Hv.
      destruct Hv as (d & <- & Hd).
      rewrite List.Forall_forall in Hdata. specialize (Hdata d Hd).
      destruct (AreaChart.dataKey p); simpl; lia.
    - rewrite List.Forall_forall in Hall. apply Hall.
      unfold AreaChart.allValues.
      destruct (AreaChart.showSecondary p); [apply in_or_app; now left | exact Hv]. }
  assert (Hinside : forall vs,
    Forall (fun v => 0 <= v <= AreaChart.max p) vs ->
    Forall AreaChart.insidePlot
      (AreaChart.mapIndexed (AreaChart.toPoint (length vs) (AreaChart.range p))
                            0 vs)).
  { intros vs Hvs. apply mapIndexed_Forall. intros k v Hk.
    rewrite List.Forall_forall in Hvs.
    apply toPoint_insidePlot.
    - apply lookup_lt_Some in Hk. lia.
    - rewrite Hrange. apply Hvs. apply list_elem_of_In, list_elem_of_lookup.
      eauto.
    - lia. }
  split; [exact Hmax|]. split; [exact Hrange|]. split; [|split].
  - unfold AreaChart.points, AreaChart.values.
    now rewrite mapIndexed_length, length_map.
  - exact (Hinside (AreaChart.values p) Hvals).
  - intros Hsec. refine (Hinside (AreaChart.secondaryValues p) _).
    apply List.Forall_forall. intros v Hv. split.
    + unfold AreaChart.secondaryValues in Hv. apply in_map_iff in Hv.
      destruct Hv as (d & <- & Hd).
      rewrite List.Forall_forall in Hdata. now destruct (Hdata d Hd).
    + destruct Hsec as [Hs|Hk].
      * rewrite List.Forall_forall in Hall. apply Hall.
        unfold AreaChart.allValues. rewrite Hs. apply in_or_app. now right.
      * rewrite List.Forall_forall in Hvals. apply Hvals.
        unfold AreaChart.values. rewrite Hk. exact Hv.
Qed.

Lemma chart_points_inside_plot_witness :
  Forall (fun d => 0 <= AreaChart.clicks d /\ 0 <= AreaChart.orders d)
         (AreaChart.data AreaChart.sampleWeek) /\
  AreaChart.max AreaChart.sampleWeek = 51 /\
  Forall AreaChart.insidePlot (AreaChart.points AreaChart.sampleWeek) /\
  Forall AreaChart.insidePlot (AreaChart.secondaryPoints AreaChart.sampleWeek).
Proof.
  assert (H : Forall (fun d => 0 <= AreaChart.clicks d /\ 0 <= AreaChart.orders d)
                     (AreaChart.data AreaChart.sampleWeek)).
  { repeat constructor; simpl; lia. }
  destruct (chart_points_inside_plot AreaChart.sampleWeek H)
    as (_ & _ & _ & H1 & H2).
  split; [exact H|]. split; [reflexivity|]. split; [exact H1|].
  apply H2. now left.
Defined.

(** ** Saving again *)

Lemma written_written (b : Browser) (t1 t2 : string) :
  written (written b t1) t2 = written b t2.
Proof.
  unfold written. cbn [localStorage quota storageAccess console].
  now rewrite insert_insert_eq.
Qed.

Lemma accepts_again (b : Browser) (txt : string) :
  accepts b txt -> accepts (written b txt) txt.
Proof.
  intros [Ha Hq]. split; [exact Ha|].
  cbn [written localStorage quota]. now rewrite insert_insert_eq.
Qed.

Lemma save_accepted (es : list Enrollment.t) (b : Browser) (txt : string) :
  storedText JSON.stringify es = Normal txt -> accepts b txt ->
  saveEnrollmentsToStorage JSON.stringify es b = (Normal tt, written b txt).
Proof.
  intros Ht [Ha Hq]. rewrite save_outcome, Ht, Ha. cbn [negb].
  destruct (Nat.ltb_spec (quota b)
              (storageUsage (<[ENROLLMENTS_STORAGE_KEY := txt]> (localStorage b))));
    [lia | reflexivity].
Qed.

(** X22.  Every save overwrites the stored text as a whole.  For two lists with
    valid dates, when the store takes both texts, saving the first and then the
    second leaves the store as saving the second alone would, and loading then
    returns the objects of the second list; and saving one list twice leaves
    the store as saving it once (so the save that follows a reload changes
    nothing). *)
Theorem last_save_wins (otherFormats : string -> option Z) (b : Browser)
    (es1 es2 : list Enrollment.t) :
  validDates es1 -> validDates es2 ->
  exists t1 t2,
    storedText JSON.stringify es1 = Normal t1 /\
    storedText JSON.stringify es2 = Normal t2 /\
    (accepts b t1 -> accepts (written b t1) t2 ->
     snd (saveEnrollmentsToStorage JSON.stringify es2
            (snd (saveEnrollmentsToStorage JSON.stringify es1 b)))
     = written b t2 /\
     loadEnrollmentsFromStorage JSON.parse otherFormats (written b t2)
     = (Normal (map toObject es2), written b t2)) /\
    (accepts b t1 ->
     snd (saveEnrollmentsToStorage JSON.stringify es1
            (snd (saveEnrollmentsToStorage JSON.stringify es1 b)))
     = snd (saveEnrollmentsToStorage JSON.stringify es1 b)).
Proof.
  intros H1 H2.
  destruct (roundtrip_with_codec JSON.stringify JSON.parse otherFormats
              b es1 H1) as (arr1 & Hs1 & _).
  destruct (roundtrip_with_codec JSON.stringify JSON.parse otherFormats
              b es2 H2) as (arr2 & Hs2 & Hrt).
  destruct (JSONFacts.parse_stringify arr1) as (t1 & Ht1 & _ & _).
  destruct (JSONFacts.parse_stringify arr2) as (t2 & Ht2 & Hne2 & Hp2).
  assert (E1 : storedText JSON.stringify es1 = Normal t1).
  { unfold storedText. now rewrite Hs1. }
  assert (E2 : storedText JSON.stringify es2 = Normal t2).
  { unfold storedText. now rewrite Hs2. }
  exists t1, t2. split; [exact E1|]. split; [exact E2|]. split.
  - intros A1 A2.
    rewrite (save_accepted es1 b t1 E1 A1). cbn [snd].
    rewrite (save_accepted es2 (written b t1) t2 E2 A2). cbn [snd].
    rewrite written_written. split; [reflexivity|].
    assert (A : accepts b t2).
    { destruct A2 as [Ha Hq]. split; [exact Ha|].
      cbn [written localStorage quota] in Hq.
      now rewrite insert_insert_eq in Hq. }
    apply (Hrt t2 Ht2 Hne2 Hp2 A).
  - intros A1.
    rewrite (save_accepted es1 b t1 E1 A1). cbn [snd].
    rewrite (save_accepted es1 (written b t1) t1 E1 (accepts_again b t1 A1)).
    cbn [snd]. apply written_written.
Qed.

Lemma last_save_wins_witness :
  validDates [approvedEnrollment] /\ validDates sampleEnrollments /\
  loadEnrollmentsFromStorage JSON.parse (fun _ => None)
    (snd (saveEnrollmentsToStorage JSON.stringify sampleEnrollments
            (snd (saveEnrollmentsToStorage JSON.stringify [approvedEnrollment]
                    emptyBrowser))))
  = (Normal (map toObject sampleEnrollments),
     snd (saveEnrollmentsToStorage JSON.stringify sampleEnrollments emptyBrowser)).
Proof.
  assert (H1 : validDates [approvedEnrollment]) by (repeat constructor).
  assert (H2 : validDates sampleEnrollments) by (repeat constructor).
  split; [exact H1|]. split; [exact H2|].
  destruct (last_save_wins (fun _ => None) emptyBrowser
              [approvedEnrollment] sampleEnrollments H1 H2)
    as (t1 & t2 & E1 & E2 & H & _).
  assert (A1 : accepts emptyBrowser t1).
  { vm_compute in E1. injection E1 as <-.
    split; [reflexivity | apply Nat.leb_le; vm_compute; reflexivity]. }
  assert (A2 : accepts (written emptyBrowser t1) t2).
  { vm_compute in E1. injection E1 as <-.
    vm_compute in E2. injection E2 as <-.
    split; [reflexivity | apply Nat.leb_le; vm_compute; reflexivity]. }
  destruct (H A1 A2) as [Hs Hl]. rewrite Hs.
  assert (A : accepts emptyBrowser t2).
  { destruct A2 as [Ha Hq]. split; [exact Ha|].
    cbn [written localStorage quota] in Hq.
    now rewrite insert_insert_eq in Hq. }
  rewrite (save_accepted sampleEnrollments emptyBrowser t2 E2 A). exact Hl.
Defined.

(** ** Operations called with an id that no record has *)

Lemma map_id_on {A} (f : A -> A) (l : list A) :
  (forall a, In a l -> f a = a) -> map f l = l.
Proof.
  induction l as [|a l IH]; intros H; simpl; [reflexivity|].
  rewrite (H a) by now left. f_equal. apply IH. intros b Hb. apply H. now right.
Qed.

Lemma mapRand_id_on {A} (f : A -> Rand A) (l : list A) (n : nat) :
  (forall a m, In a l -> f a m = (a, m)) -> mapRand f l n = (l, n).
Proof.
  revert n. induction l as [|a l IH]; intros n H; simpl; [reflexivity|].
  unfold bind. rewrite (H a n) by now left.
  rewrite IH by (intros b m Hb; apply H; now right). reflexivity.
Qed.

(** X23.  No operation notices an id that no record has.  Called with such an
    id, [uploadFile], [submitForReview], [advanceEnrollment],
    [advanceToApproved] and [rejectEnrollment] leave the list as it is and draw
    no random number; all but [advanceEnrollment] still show their toast of
    success (or of rejection), and [submitForReview] still schedules its two
    timers. *)
Theorem unknown_id_goes_unnoticed (rnd : Oracle) (s : State) (i : string)
    (f : File) :
  (forall e, In e (enrollments s) -> Enrollment.id e <> i) ->
  (enrollments (uploadFile i f s) = enrollments s /\
   toast (uploadFile i f s)
   = Some {| message := "Video uploaded successfully!"; type := success |}) /\
  (enrollments (submitForReview i s) = enrollments s /\
   toast (submitForReview i s)
   = Some {| message := "Submitted for review!"; type := success |} /\
   length (timers (submitForReview i s)) = (length (timers s) + 3)%nat) /\
  advanceEnrollment rnd i s = s /\
  (enrollments (advanceToApproved rnd i s) = enrollments s /\
   draws (advanceToApproved rnd i s) = draws s /\
   toast (advanceToApproved rnd i s)
   = Some {| message := "Enrollment approved!"; type := success |}) /\
  (enrollments (rejectEnrollment i s) = enrollments s /\
   toast (rejectEnrollment i s)
   = Some {| message := "Enrollment rejected"; type := error |}).
Proof.
  intros Hno.
  assert (Hneq : forall e, In e (enrollments s) ->
                           String.eqb (Enrollment.id e) i = false).
  { intros e He. apply String.eqb_neq. now apply Hno. }
  assert (Hup : Update.uploadFile i f (enrollments s) = enrollments s).
  { apply map_id_on. intros e He. now rewrite (Hneq e He). }
  assert (Hsub : Update.submitForReview i (enrollments s) = enrollments s).
  { apply map_id_on. intros e He. now rewrite (Hneq e He). }
  assert (Hrej : Update.rejectEnrollment i (enrollments s) = enrollments s).
  { apply map_id_on. intros e He. now rewrite (Hneq e He). }
  assert (Hadv : forall n, Update.advanceEnrollment rnd (now s) i (enrollments s) n
                           = (enrollments s, n)).
  { intros n. apply mapRand_id_on. intros e m He. now rewrite (Hneq e He). }
  assert (Happ : forall n, Update.advanceToApproved rnd (now s) i (enrollments s) n
                           = (enrollments s, n)).
  { intros n. apply mapRand_id_on. intros e m He. now rewrite (Hneq e He). }
  split; [|split; [|split; [|split]]].
  - split; [exact Hup | reflexivity].
  - split; [exact Hsub|]. split; [reflexivity|].
    rewrite timers_submitForReview, length_app. reflexivity.
  - unfold advanceEnrollment, setEnrollmentsRand. rewrite Hadv.
    now destruct s.
  - unfold advanceToApproved, showToast, setTimeout, setToast,
      setEnrollmentsRand. rewrite Happ. repeat split.
  - split; [exact Hrej | reflexivity].
Qed.

Lemma unknown_id_goes_unnoticed_witness :
  enrollments (uploadFile "enrollment-0" sampleFile approvedState)
  = enrollments approvedState /\
  toast (uploadFile "enrollment-0" sampleFile approvedState)
  = Some {| message := "Video uploaded successfully!"; type := success |}.
Proof.
  refine (proj1 (unknown_id_goes_unnoticed sampleOracle approvedState
                   "enrollment-0" sampleFile _)).
  intros e [<- | []]. discriminate.
Defined.
